(** * nbxflow: the flow registry, its FlowSpec document and the code that
    consumes it, embedded from the Python sources.

    Python values of type [Any] are the inductive [pyval]; a [dict] with
    string keys is an insertion-ordered association list without repeated
    keys; a dataclass is a record inside a module of the class's name,
    next to its methods; code that can raise returns an [outcome]. The
    attributes of [Flow] and [Step] objects are the records [FlowAttrs.t]
    and [StepAttrs.t], declared before the state that holds them, and the
    methods are in the modules [Flow] and [Step]. *)

From Stdlib Require Import String Ascii List ZArith Bool Lia.
From stdpp Require Import base option list gmap sets strings pretty.

Local Open Scope string_scope.
Local Open Scope list_scope.

(** ** Python values *)

#[local] Set Warnings "-register-all".

(** [PObj] stands for any object json cannot serialize (a datetime, an
    openlineage [Dataset]); numbers are integers, the modelled code never
    computes with a float. The keys of a dict are strings: a dict with a
    key of another type is not among the values modelled. *)
Inductive pyval : Type :=
| PNone
| PBool (b : bool)
| PInt (n : Z)
| PStr (s : string)
| PList (xs : list pyval)
| PTuple (xs : list pyval)
| PDict (kvs : list (string * pyval))
| PObj (cls : string) (id : nat).

Abbreviation pydict := (list (string * pyval)).

(** Exceptions, by class name and argument. *)
Inductive exn : Type :=
| KeyError (key : string)
| TypeError (what : string)
| AttributeError (what : string)
| ValueError (what : string)
| OSError (what : string)
| RuntimeError (what : string)
| UserError (cls msg : string).

(** The result of running a piece of Python: a value, a raised exception,
    or [Unmodelled] when the run leaves the typed fragment embedded here
    (a value whose type differs from the annotation it is stored under). *)
Inductive outcome (A : Type) : Type :=
| Ok (a : A)
| Raise (e : exn)
| Unmodelled.
Arguments Ok {A} a.
Arguments Raise {A} e.
Arguments Unmodelled {A}.

#[global] Instance outcome_ret : MRet outcome := fun A a => Ok a.
#[global] Instance outcome_bind : MBind outcome := fun A B k m =>
  match m with
  | Ok a => k a
  | Raise e => Raise e
  | Unmodelled => Unmodelled
  end.
#[global] Instance outcome_fmap : FMap outcome := fun A B f m =>
  match m with
  | Ok a => Ok (f a)
  | Raise e => Raise e
  | Unmodelled => Unmodelled
  end.

(** A loop whose body can raise, threading the loop's state. *)
Fixpoint foldM {A S} (f : S → A → outcome S) (s : S) (l : list A) : outcome S :=
  match l with
  | [] => Ok s
  | x :: l' => s' ← f s x; foldM f s' l'
  end.

(** *** dict operations *)

(** [d.get(k)] as an option. *)
Fixpoint dict_lookup (k : string) (d : pydict) : option pyval :=
  match d with
  | [] => None
  | (k', v) :: d' => if String.eqb k k' then Some v else dict_lookup k d'
  end.

(** [d.get(k, default)]; [d.get(k)] is [dict_get k d PNone]. *)
Definition dict_get (k : string) (d : pydict) (default : pyval) : pyval :=
  match dict_lookup k d with
  | Some v => v
  | None => default
  end.

(** [d[k]]. *)
Definition dict_subscript (d : pydict) (k : string) : outcome pyval :=
  match dict_lookup k d with
  | Some v => Ok v
  | None => Raise (KeyError k)
  end.

(** [d[k] = v]: an existing key keeps its position, a new key goes last. *)
Fixpoint dict_set (k : string) (v : pyval) (d : pydict) : pydict :=
  match d with
  | [] => [(k, v)]
  | (k', v') :: d' =>
      if String.eqb k k' then (k, v) :: d' else (k', v') :: dict_set k v d'
  end.

(** *** Equality [==] *)

Definition num_of (v : pyval) : option Z :=
  match v with
  | PBool b => Some (if b then 1 else 0)%Z
  | PInt n => Some n
  | _ => None
  end.

(** Python's [a == b]: numbers by value ([True == 1]), strings, lists and
    tuples element by element, dicts key by key whatever the order, other
    objects by identity. *)
Fixpoint py_eqb (a b : pyval) {struct a} : bool :=
  match a, b with
  | PNone, PNone => true
  | PBool _, _ | PInt _, _ =>
      match num_of a, num_of b with
      | Some x, Some y => Z.eqb x y
      | _, _ => false
      end
  | PStr s, PStr t => String.eqb s t
  | PList xs, PList ys | PTuple xs, PTuple ys =>
      (fix go (xs ys : list pyval) {struct xs} : bool :=
         match xs, ys with
         | [], [] => true
         | x :: xs', y :: ys' => py_eqb x y && go xs' ys'
         | _, _ => false
         end) xs ys
  | PDict d1, PDict d2 =>
      Nat.eqb (length d1) (length d2) &&
      (fix go (d : pydict) {struct d} : bool :=
         match d with
         | [] => true
         | (k, v) :: d' =>
             match dict_lookup k d2 with
             | Some v' => py_eqb v v'
             | None => false
             end && go d'
         end) d1
  | PObj c i, PObj c' i' => String.eqb c c' && Nat.eqb i i'
  | _, _ => false
  end.

(** *** Iteration, attribute access, formatting *)

(** [for x in v]: a list or tuple gives its elements, a dict its keys, a
    string its characters; [None], booleans and integers are not iterable. *)
Definition py_iter (v : pyval) : outcome (list pyval) :=
  match v with
  | PList xs | PTuple xs => Ok xs
  | PDict kvs => Ok (map (fun kv => PStr (fst kv)) kvs)
  | PStr s => Ok (map (fun c => PStr (String c EmptyString)) (list_ascii_of_string s))
  | PNone => Raise (TypeError "'NoneType' object is not iterable")
  | PBool _ => Raise (TypeError "'bool' object is not iterable")
  | PInt _ => Raise (TypeError "'int' object is not iterable")
  | PObj _ _ => Unmodelled
  end.

(** The receiver of [v.get(...)]: only a dict has the method. *)
Definition as_getable (v : pyval) : outcome pydict :=
  match v with
  | PDict d => Ok d
  | PObj _ _ => Unmodelled
  | _ => Raise (AttributeError "get")
  end.

(** The receiver of [v["key"]] with a string key. *)
Definition as_subscriptable (v : pyval) : outcome pydict :=
  match v with
  | PDict d => Ok d
  | PObj _ _ => Unmodelled
  | _ => Raise (TypeError "not subscriptable by a string")
  end.

(** [str(v)] inside an f-string, for the values whose text is modelled. *)
Definition py_str (v : pyval) : outcome string :=
  match v with
  | PStr s => Ok s
  | PNone => Ok "None"
  | PBool true => Ok "True"
  | PBool false => Ok "False"
  | _ => Unmodelled
  end.

(** What [json.dump] accepts. *)
Fixpoint json_serializable (v : pyval) : bool :=
  match v with
  | PNone | PBool _ | PInt _ | PStr _ => true
  | PList xs | PTuple xs => forallb json_serializable xs
  | PDict kvs => forallb (fun kv => json_serializable (snd kv)) kvs
  | PObj _ _ => false
  end.

(** Decoders for the typed fields of the records below. *)
Definition as_str (v : pyval) : outcome string :=
  match v with PStr s => Ok s | _ => Unmodelled end.

Definition as_opt_str (v : pyval) : outcome (option string) :=
  match v with PNone => Ok None | PStr s => Ok (Some s) | _ => Unmodelled end.

Definition as_dict (v : pyval) : outcome pydict :=
  match v with PDict d => Ok d | _ => Unmodelled end.

Definition as_dict_list (v : pyval) : outcome (list pydict) :=
  match v with PList xs => mapM as_dict xs | _ => Unmodelled end.

Definition of_opt_str (o : option string) : pyval :=
  match o with Some s => PStr s | None => PNone end.

(** ** core/registry.py *)

Module TaskSpec.

Record t : Type := mk {
  name : string;
  component_type : string;
  inputs : list pydict;
  outputs : list pydict;
  contracts : list pydict;
  tags : pydict;
  started_at : option string;
  finished_at : option string;
  status : option string;
  run_id : option string;
  parent : option string
}.

Definition to_dict (self : t) : pydict :=
  [ ("name", PStr (name self));
    ("component_type", PStr (component_type self));
    ("inputs", PList (map PDict (inputs self)));
    ("outputs", PList (map PDict (outputs self)));
    ("contracts", PList (map PDict (contracts self)));
    ("tags", PDict (tags self));
    ("started_at", of_opt_str (started_at self));
    ("finished_at", of_opt_str (finished_at self));
    ("status", of_opt_str (status self));
    ("run_id", of_opt_str (run_id self));
    ("parent", of_opt_str (parent self)) ].

End TaskSpec.

Module FlowRegistry.

Record t : Type := mk {
  name : string;
  run_id : string;
  tasks : list TaskSpec.t;
  started_at : option string;
  finished_at : option string;
  status : string;
  _task_stack : list string
}.

Definition set_tasks (ts : list TaskSpec.t) (self : t) : t :=
  mk (name self) (run_id self) ts (started_at self) (finished_at self)
     (status self) (_task_stack self).

Definition set_task_stack (st : list string) (self : t) : t :=
  mk (name self) (run_id self) (tasks self) (started_at self)
     (finished_at self) (status self) st.

Definition set_started_at (ts : option string) (self : t) : t :=
  mk (name self) (run_id self) (tasks self) ts (finished_at self)
     (status self) (_task_stack self).

Definition set_finished_at (ts : option string) (self : t) : t :=
  mk (name self) (run_id self) (tasks self) (started_at self) ts
     (status self) (_task_stack self).

Definition set_status (st : string) (self : t) : t :=
  mk (name self) (run_id self) (tasks self) (started_at self)
     (finished_at self) st (_task_stack self).

(** [FlowRegistry(name=..., run_id=...)]: the dataclass defaults. *)
Definition new (name run_id : string) : t :=
  mk name run_id [] None None "RUNNING" [].

Definition add_task (self : t) (task : TaskSpec.t) : t :=
  set_tasks (tasks self ++ [task]) self.

(** The test of the loop in [get_task]. *)
Definition task_matches (name : string) (run_id : option string)
    (task : TaskSpec.t) : bool :=
  String.eqb (TaskSpec.name task) name &&
  match run_id with
  | None => true
  | Some r =>
      match TaskSpec.run_id task with
      | Some r' => String.eqb r' r
      | None => false
      end
  end.

(** Position in [self.tasks] of the task [get_task] returns: the first
    match of [reversed(self.tasks)]. *)
Definition get_task_index (self : t) (name : string)
    (run_id : option string) : option nat :=
  match list_find (λ task, task_matches name run_id task = true)
          (reverse (tasks self)) with
  | Some (i, _) => Some (length (tasks self) - 1 - i)
  | None => None
  end.

Definition get_task (self : t) (name : string)
    (run_id : option string) : option TaskSpec.t :=
  match get_task_index self name run_id with
  | Some k => tasks self !! k
  | None => None
  end.

(** [update_task_status]: the task found is mutated in place, so the
    registry's list holds the new fields at the same position. [now] is the
    value [now_iso_zulu()] returns. The list holds the values of the
    tasks: this is the registry in which every position has its own
    [TaskSpec] object, as [Step.__enter__] and [from_dict] build it;
    [TaskObjects] below has the tasks as objects, for a registry that was
    given one object twice. *)
Definition update_task_status (self : t) (name run_id status : string)
    (inputs outputs contracts : option (list pydict)) (now : string) : t :=
  match get_task_index self name (Some run_id) with
  | Some k =>
      set_tasks
        (alter (λ task,
           TaskSpec.mk (TaskSpec.name task) (TaskSpec.component_type task)
             (default (TaskSpec.inputs task) inputs)
             (default (TaskSpec.outputs task) outputs)
             (default (TaskSpec.contracts task) contracts)
             (TaskSpec.tags task) (TaskSpec.started_at task)
             (Some now) (Some status)
             (TaskSpec.run_id task) (TaskSpec.parent task)) k (tasks self))
        self
  | None => self
  end.

(** The test of the innermost loop of [derive_edges]. *)
Definition same_dataset (output input_ds : pydict) : bool :=
  py_eqb (dict_get "namespace" output PNone) (dict_get "namespace" input_ds PNone) &&
  py_eqb (dict_get "name" output PNone) (dict_get "name" input_ds PNone).

(** The list [edges] at the end of the four nested loops. *)
Definition appended_edges (ts : list TaskSpec.t) : list (string * string) :=
  mjoin (imap (λ i task_a,
    mjoin (imap (λ j task_b,
      if bool_decide (j ≤ i)%nat then []  (* i >= j: continue *)
      else
        output ← TaskSpec.outputs task_a;
        input_ds ← TaskSpec.inputs task_b;
        if same_dataset output input_ds
        then [(TaskSpec.name task_a, TaskSpec.name task_b)]
        else []) ts)) ts).

(** [list(set(edges))]: the order of the result is the set's. *)
Definition derive_edges (self : t) : list (string * string) :=
  elements (list_to_set (C := gset (string * string)) (appended_edges (tasks self))).

Definition parallelizable_types : gset string :=
  {[ "Transformer"; "Enricher"; "Reconciliator"; "QualityCheck"; "Splitter" ]}.

(** The dict comprehension: a name met again overwrites its value and
    keeps its place. *)
Definition get_parallelizable_tasks (self : t) : pydict :=
  foldl (λ d task,
      dict_set (TaskSpec.name task)
        (PBool (bool_decide (TaskSpec.component_type task ∈ parallelizable_types))) d)
    [] (tasks self).

Definition to_dict (self : t) : pydict :=
  [ ("flow", PStr (name self));
    ("run_id", PStr (run_id self));
    ("started_at", of_opt_str (started_at self));
    ("finished_at", of_opt_str (finished_at self));
    ("status", PStr (status self));
    ("tasks", PList (map (λ task, PDict (TaskSpec.to_dict task)) (tasks self)));
    ("edges", PList (map (λ e, PTuple [PStr e.1; PStr e.2]) (derive_edges self)));
    ("parallelizable", PDict (get_parallelizable_tasks self)) ].

(** The keyword arguments [from_dict] evaluates for one task, before they
    are stored: only the two subscripts can raise. *)
Definition task_arguments (task_data : pyval) : outcome (list pyval) :=
  d ← as_subscriptable task_data;
  name ← dict_subscript d "name";
  component_type ← dict_subscript d "component_type";
  Ok [ name; component_type;
       dict_get "inputs" d (PList []);
       dict_get "outputs" d (PList []);
       dict_get "contracts" d (PList []);
       dict_get "tags" d (PDict []);
       dict_get "started_at" d PNone;
       dict_get "finished_at" d PNone;
       dict_get "status" d PNone;
       dict_get "run_id" d PNone;
       dict_get "parent" d PNone ].

(** The stored arguments read at the types of the dataclass fields. *)
Definition task_of_arguments (args : list pyval) : outcome TaskSpec.t :=
  match args with
  | [name; component_type; inputs; outputs; contracts; tags;
     started_at; finished_at; status; run_id; parent] =>
      name ← as_str name;
      component_type ← as_str component_type;
      inputs ← as_dict_list inputs;
      outputs ← as_dict_list outputs;
      contracts ← as_dict_list contracts;
      tags ← as_dict tags;
      started_at ← as_opt_str started_at;
      finished_at ← as_opt_str finished_at;
      status ← as_opt_str status;
      run_id ← as_opt_str run_id;
      parent ← as_opt_str parent;
      Ok (TaskSpec.mk name component_type inputs outputs contracts tags
            started_at finished_at status run_id parent)
  | _ => Unmodelled
  end.

(** [from_dict]: everything that can raise runs first, in the source's
    order; the values are then read at the annotated types. *)
Definition from_dict (data : pydict) : outcome t :=
  name ← dict_subscript data "flow";
  run_id ← dict_subscript data "run_id";
  let started_at := dict_get "started_at" data PNone in
  let finished_at := dict_get "finished_at" data PNone in
  let status := dict_get "status" data (PStr "COMPLETED") in
  task_datas ← py_iter (dict_get "tasks" data (PList []));
  stored ← mapM task_arguments task_datas;
  name ← as_str name;
  run_id ← as_str run_id;
  started_at ← as_opt_str started_at;
  finished_at ← as_opt_str finished_at;
  status ← as_str status;
  tasks ← mapM task_of_arguments stored;
  Ok (mk name run_id tasks started_at finished_at status []).

End FlowRegistry.

(** *** The tasks of a registry as objects *)

(** [self.tasks] is a list of references to [TaskSpec] objects, and
    [update_task_status] assigns to the attributes of the object that
    [get_task] returns. In [FlowRegistry.t] the list holds the values of
    the tasks, which is the same as long as no object stands at two
    positions of the list: [Step.__enter__] and [from_dict] build one
    [TaskSpec] for each position. Here the list holds addresses into a
    store of task objects, so that [add_task] can be given one object
    twice. *)
Module TaskObjects.

Record t : Type := mk {
  tasks : list nat;
  store : nat → TaskSpec.t
}.

(** What the list shows, position by position. *)
Definition values (self : t) : list TaskSpec.t := store self <$> tasks self.

Definition add_task (self : t) (task : nat) : t :=
  mk (tasks self ++ [task]) (store self).

(** [get_task]: the object that the scan of [reversed(self.tasks)] meets
    first. *)
Definition get_task (self : t) (name : string) (run_id : option string)
    : option nat :=
  snd <$> list_find
            (λ task, FlowRegistry.task_matches name run_id (store self task) = true)
            (reverse (tasks self)).

(** The assignments of [update_task_status] to the attributes of the
    object found. *)
Definition assigned (status : string)
    (inputs outputs contracts : option (list pydict)) (now : string)
    (task : TaskSpec.t) : TaskSpec.t :=
  TaskSpec.mk (TaskSpec.name task) (TaskSpec.component_type task)
    (default (TaskSpec.inputs task) inputs)
    (default (TaskSpec.outputs task) outputs)
    (default (TaskSpec.contracts task) contracts)
    (TaskSpec.tags task) (TaskSpec.started_at task)
    (Some now) (Some status)
    (TaskSpec.run_id task) (TaskSpec.parent task).

Definition update_task_status (self : t) (name run_id status : string)
    (inputs outputs contracts : option (list pydict)) (now : string) : t :=
  match get_task self name (Some run_id) with
  | Some task =>
      mk (tasks self)
         (λ other, if decide (other = task)
                   then assigned status inputs outputs contracts now
                          (store self task)
                   else store self other)
  | None => self
  end.

End TaskObjects.

(** One task object, at address 0, added twice. *)
Definition added_twice : TaskObjects.t :=
  TaskObjects.add_task
    (TaskObjects.add_task
       (TaskObjects.mk []
          (λ _, TaskSpec.mk "load" "DataLoader" [] [] [] [] None None
                  (Some "RUNNING") (Some "run-1") None)) 0) 0.

(** ** Name sanitization of the exporters *)

(** A Python character is a code point; the strings modelled here are
    those over the code points below 256, one [ascii] each. *)
Definition code (c : ascii) : nat := nat_of_ascii c.

Definition in_range (lo hi : nat) (c : ascii) : bool :=
  (lo <=? code c)%nat && (code c <=? hi)%nat.

(** The class [a-zA-Z0-9_] of the regular expressions. *)
Definition is_word_char (c : ascii) : bool :=
  in_range 97 122 c || in_range 65 90 c || in_range 48 57 c || Ascii.eqb c "_".

(** [c.isdigit()]: 0-9 and the superscripts 2, 3 and 1. *)
Definition isdigit (c : ascii) : bool :=
  in_range 48 57 c || in_range 178 179 c || Ascii.eqb c (ascii_of_nat 185).

(** [c.lower()]: A-Z and the capital letters U+00C0..U+00DE but U+00D7. *)
Definition lower_char (c : ascii) : ascii :=
  if in_range 65 90 c || (in_range 192 222 c && negb (code c =? 215)%nat)
  then ascii_of_nat (code c + 32)
  else c.

Definition lower (s : list ascii) : list ascii := map lower_char s.

(** What [re.sub(r'[^a-zA-Z0-9_]', '_', s)] makes of one character. *)
Definition word_or_underscore (c : ascii) : ascii :=
  if is_word_char c then c else "_"%char.

(** [re.sub(r'[^a-zA-Z0-9_]', '_', s)]. *)
Definition sub_nonword (s : list ascii) : list ascii :=
  map word_or_underscore s.

(** [re.sub(r'_+', '_', s)]: an underscore followed by another is dropped. *)
Fixpoint sub_underscores (s : list ascii) : list ascii :=
  match s with
  | [] => []
  | c :: s' =>
      if Ascii.eqb c "_"
      then match s' with
           | c' :: _ => if Ascii.eqb c' "_" then sub_underscores s'
                        else c :: sub_underscores s'
           | [] => [c]
           end
      else c :: sub_underscores s'
  end.

Fixpoint lstrip (s : list ascii) : list ascii :=
  match s with
  | [] => []
  | c :: s' => if Ascii.eqb c "_" then lstrip s' else s
  end.

Fixpoint rstrip (s : list ascii) : list ascii :=
  match s with
  | [] => []
  | c :: s' =>
      match rstrip s' with
      | [] => if Ascii.eqb c "_" then [] else [c]
      | r => c :: r
      end
  end.

(** [s.strip('_')]. *)
Definition strip (s : list ascii) : list ascii := rstrip (lstrip s).

(** [sanitized and sanitized[0].isdigit()]. *)
Definition starts_with_digit (s : list ascii) : bool :=
  match s with
  | c :: _ => isdigit c
  | [] => false
  end.

(** [sanitized or fallback]. *)
Definition or_else (s fallback : list ascii) : list ascii :=
  match s with
  | [] => fallback
  | _ => s
  end.

Definition chars (s : string) : list ascii := list_ascii_of_string s.
Definition str (s : list ascii) : string := string_of_list_ascii s.

(** airflow_exporter.py *)
Definition sanitize_task_name (name : string) : string :=
  let sanitized := sub_nonword (lower (chars name)) in
  let sanitized := sub_underscores sanitized in
  let sanitized := strip sanitized in
  let sanitized :=
    if starts_with_digit sanitized then chars "task_" ++ sanitized else sanitized in
  str (or_else sanitized (chars "unknown_task")).

(** prefect_exporter.py *)
Definition sanitize_function_name (name : string) : string :=
  let sanitized := sub_nonword (lower (chars name)) in
  let sanitized := sub_underscores sanitized in
  let sanitized := strip sanitized in
  let sanitized :=
    if starts_with_digit sanitized then chars "task_" ++ sanitized else sanitized in
  str (or_else sanitized (chars "unknown_task")).

(** dagster_exporter.py *)
Definition sanitize_asset_name (name : string) : string :=
  let sanitized := sub_nonword (lower (chars name)) in
  let sanitized := sub_underscores sanitized in
  let sanitized := strip sanitized in
  let sanitized :=
    if starts_with_digit sanitized then chars "asset_" ++ sanitized else sanitized in
  str (or_else sanitized (chars "unknown_asset")).

(** graphviz.py *)
Definition _sanitize_mermaid_id (name : string) : string :=
  let sanitized := sub_nonword (chars name) in
  let sanitized := sub_underscores sanitized in
  let sanitized := strip sanitized in
  str (or_else sanitized (chars "node")).

Definition _sanitize_dot_id (name : string) : string :=
  let sanitized := sub_nonword (chars name) in
  let sanitized :=
    if starts_with_digit sanitized then chars "n_" ++ sanitized else sanitized in
  str (or_else sanitized (chars "node")).

(** A bare identifier: not empty, over [a-zA-Z0-9_], no digit in front. *)
Definition is_identifier (s : string) : bool :=
  match chars s with
  | [] => false
  | c :: _ => negb (isdigit c) && forallb is_word_char (chars s)
  end.

(** No run of underscores, none in front, none at the end. *)
Fixpoint no_underscore_run (s : list ascii) : bool :=
  match s with
  | c :: (c' :: _) as s' =>
      negb (Ascii.eqb c "_" && Ascii.eqb c' "_") && no_underscore_run s'
  | _ => true
  end.

Definition trimmed (s : list ascii) : bool :=
  match s with
  | c :: _ => negb (Ascii.eqb c "_")
  | [] => true
  end &&
  match last s with
  | Some c => negb (Ascii.eqb c "_")
  | None => true
  end.

(** What the first line of the three exporters' sanitizers makes of one
    character. *)
Definition lower_word_or_underscore (c : ascii) : ascii :=
  word_or_underscore (lower_char c).

(** A string the three cleaning lines leave alone: every character is kept
    by the character map [f], there is no run of underscores and no
    underscore at either end. *)
Definition tidy (f : ascii → ascii) (s : list ascii) : Prop :=
  Forall (λ c, f c = c) s ∧ no_underscore_run s = true ∧ trimmed s = true.

(** What a prefix and a fallback must satisfy for the last two lines to
    keep a string tidy. *)
Definition prefix_ok (f : ascii → ascii) (prefix : list ascii) : bool :=
  forallb (λ c, Ascii.eqb (f c) c) prefix && no_underscore_run prefix &&
  match prefix with
  | c :: _ => negb (Ascii.eqb c "_") && negb (isdigit c)
  | [] => false
  end.

Definition fallback_ok (f : ascii → ascii) (fallback : list ascii) : bool :=
  forallb (λ c, Ascii.eqb (f c) c) fallback && no_underscore_run fallback &&
  trimmed fallback && negb (starts_with_digit fallback) &&
  negb (Nat.eqb (length fallback) 0).

(** ** Dependency derivation of the exporters *)

(** The receiver of a [str] method such as [lower] or [split]. *)
Definition str_receiver (method : string) (v : pyval) : outcome string :=
  match v with
  | PStr s => Ok s
  | PObj _ _ => Unmodelled
  | _ => Raise (AttributeError method)
  end.

(** [f"{ds.get('namespace', '')}:{ds.get('name', '')}"]. *)
Definition dataset_key (ds : pydict) : outcome string :=
  namespace ← py_str (dict_get "namespace" ds (PStr ""));
  name ← py_str (dict_get "name" ds (PStr ""));
  Ok (namespace +:+ ":" +:+ name).

(** airflow_exporter.py *)
Definition derive_task_dependencies (tasks : list pydict)
    : outcome (list (string * string)) :=
  dataset_producers ←
    foldM (λ dataset_producers task,
      name ← dict_subscript task "name";
      name ← str_receiver "lower" name;
      let task_name := sanitize_task_name name in
      outputs ← py_iter (dict_get "outputs" task (PList []));
      foldM (λ (dataset_producers : gmap string string) output,
        output ← as_getable output;
        dataset_key ← dataset_key output;
        Ok (<[dataset_key := task_name]> dataset_producers))
        dataset_producers outputs)
      (∅ : gmap string string) tasks;
  foldM (λ dependencies task,
    name ← dict_subscript task "name";
    name ← str_receiver "lower" name;
    let task_name := sanitize_task_name name in
    inputs ← py_iter (dict_get "inputs" task (PList []));
    foldM (λ dependencies input_ds,
      input_ds ← as_getable input_ds;
      dataset_key ← dataset_key input_ds;
      match dataset_producers !! dataset_key with
      | Some upstream_task =>
          if bool_decide (upstream_task ≠ task_name)
          then Ok (dependencies ++ [(upstream_task, task_name)])
          else Ok dependencies
      | None => Ok dependencies
      end) dependencies inputs)
    [] tasks.

(** [name.split('/')[-1]]. *)
Definition last_segment (s : list ascii) : list ascii :=
  foldl (λ segment c, if Ascii.eqb c "/" then [] else segment ++ [c]) [] s.

(** The edge label of [_derive_mermaid_edges]. *)
Definition edge_label (name : string) : string :=
  let dataset_name := last_segment (chars name) in
  if (20 <? length dataset_name)%nat
  then str (take 17 dataset_name ++ chars "...")
  else str dataset_name.

(** graphviz.py; a task name that is not a string is not modelled. *)
Definition _derive_mermaid_edges (tasks : list pydict)
    : outcome (list (string * string * string)) :=
  dataset_producers ←
    foldM (λ dataset_producers task,
      task_name ← as_str (dict_get "name" task (PStr "unknown"));
      outputs ← py_iter (dict_get "outputs" task (PList []));
      foldM (λ (dataset_producers : gmap string string) output,
        output ← as_getable output;
        dataset_key ← dataset_key output;
        Ok (<[dataset_key := task_name]> dataset_producers))
        dataset_producers outputs)
      (∅ : gmap string string) tasks;
  foldM (λ edges task,
    task_name ← as_str (dict_get "name" task (PStr "unknown"));
    inputs ← py_iter (dict_get "inputs" task (PList []));
    foldM (λ edges input_ds,
      input_ds ← as_getable input_ds;
      dataset_key ← dataset_key input_ds;
      match dataset_producers !! dataset_key with
      | Some upstream_task =>
          if bool_decide (upstream_task ≠ task_name)
          then
            name ← str_receiver "split" (dict_get "name" input_ds (PStr ""));
            Ok (edges ++ [(upstream_task, task_name, edge_label name)])
          else Ok edges
      | None => Ok edges
      end) edges inputs)
    [] tasks.

(** The task dicts of a registry's document. *)
Definition task_dicts (r : FlowRegistry.t) : list pydict :=
  map TaskSpec.to_dict (FlowRegistry.tasks r).

(** ** Flows recorded in the order of their data *)

(** Every output, and every input, with the position of its task. *)
Definition outputs_at (ts : list TaskSpec.t) : list (nat * pydict) :=
  mjoin (imap (λ i task, map (pair i) (TaskSpec.outputs task)) ts).

Definition inputs_at (ts : list TaskSpec.t) : list (nat * pydict) :=
  mjoin (imap (λ i task, map (pair i) (TaskSpec.inputs task)) ts).

(** The key of a dataset as a string, when [dataset_key] returns one. *)
Definition key_text (ds : pydict) : string :=
  match dataset_key ds with
  | Ok k => k
  | _ => ""
  end.

(** Both "namespace" and "name" are present and are strings, as in what
    [DatasetRef.to_dict] returns. *)
Definition string_identified (ds : pydict) : bool :=
  match dict_lookup "namespace" ds, dict_lookup "name" ds with
  | Some (PStr _), Some (PStr _) => true
  | _, _ => false
  end.

(** Two datasets with the same key have the same namespace and name. *)
Definition keys_faithful (ts : list TaskSpec.t) : bool :=
  forallb (λ o,
    forallb (λ d,
      implb (String.eqb (key_text o.2) (key_text d.2))
            (FlowRegistry.same_dataset o.2 d.2))
      (outputs_at ts ++ inputs_at ts))
    (outputs_at ts).

(** A dataset is written by one task only. *)
Definition single_producer (ts : list TaskSpec.t) : bool :=
  forallb (λ o,
    forallb (λ o',
      implb (FlowRegistry.same_dataset o.2 o'.2) (o.1 =? o'.1)%nat)
      (outputs_at ts))
    (outputs_at ts).

(** No task reads a dataset that a later task writes. *)
Definition producers_first (ts : list TaskSpec.t) : bool :=
  forallb (λ o,
    forallb (λ i,
      implb (FlowRegistry.same_dataset o.2 i.2) (o.1 <=? i.1)%nat)
      (inputs_at ts))
    (outputs_at ts).

(** The tasks stand in the order of their data: datasets identified by
    strings and told apart by their keys, one writer for each dataset, no
    reader before the writer. *)
Definition data_ordered (ts : list TaskSpec.t) : bool :=
  forallb (λ d, string_identified d.2) (outputs_at ts ++ inputs_at ts) &&
  keys_faithful ts && single_producer ts && producers_first ts.

(** What the two loops of an exporter compute on such a flow: the last
    writer of every key, then one entry for every input whose key has a
    writer under another label. *)
Definition producers_of (label : TaskSpec.t → string) (ts : list TaskSpec.t)
    : gmap string string :=
  foldl (λ producers task,
      foldl (λ producers output, <[key_text output := label task]> producers)
        producers (TaskSpec.outputs task))
    ∅ ts.

Definition dependencies_of {E : Type} (label : TaskSpec.t → string)
    (entry : string → string → pydict → E)
    (producers : gmap string string) (ts : list TaskSpec.t) : list E :=
  task ← ts;
  input_ds ← TaskSpec.inputs task;
  match producers !! key_text input_ds with
  | Some upstream =>
      if bool_decide (upstream ≠ label task)
      then [entry upstream (label task) input_ds]
      else []
  | None => []
  end.

(** The producer index in words: the task at [i] is the last of the list
    to write the key of a dataset that the task at [j] reads, [a] and [b]
    are their labels, and the labels differ. Positions are not compared. *)
Definition last_writer_link (label : TaskSpec.t → string) (ts : list TaskSpec.t)
    (i j : nat) (a b : string) : Prop :=
  ∃ producer consumer ds,
    ts !! i = Some producer ∧
    key_text ds ∈ map key_text (TaskSpec.outputs producer) ∧
    (∀ i' task', (i < i')%nat → ts !! i' = Some task' →
                 key_text ds ∉ map key_text (TaskSpec.outputs task')) ∧
    ts !! j = Some consumer ∧ ds ∈ TaskSpec.inputs consumer ∧
    a = label producer ∧ b = label consumer ∧ a ≠ b.

Definition last_writer_pair (label : TaskSpec.t → string) (ts : list TaskSpec.t)
    (a b : string) : Prop :=
  ∃ i j, last_writer_link label ts i j a b.

(** The "name" of a dataset, when it is a string. *)
Definition name_text (ds : pydict) : string :=
  match dict_get "name" ds (PStr "") with
  | PStr s => s
  | _ => ""
  end.

(** ** The identity of a dataset, in the words of the specification *)

(** What the specification calls the (namespace, name) of a dataset: what
    the record holds under "namespace" and under "name", [None] for a key
    that is missing. Two identities are equal when both components are,
    as Python compares values with [==]. This is written from the
    specification, to be compared with the test [derive_edges] makes. *)
Definition dataset_identity (ds : pydict) : pyval * pyval :=
  (dict_get "namespace" ds PNone, dict_get "name" ds PNone).

Definition equal_identity (a b : pyval * pyval) : Prop :=
  py_eqb a.1 b.1 = true ∧ py_eqb a.2 b.2 = true.

(** ** Example registries *)

Definition ds_X : pydict :=
  [("namespace", PStr "file"); ("name", PStr "/data/x.csv"); ("facets", PDict [])].

Definition task_A_out_X : TaskSpec.t :=
  TaskSpec.mk "A" "DataLoader" [] [ds_X] [] [] None None None None None.

Definition task_B_in_X : TaskSpec.t :=
  TaskSpec.mk "B" "Transformer" [ds_X] [] [] [] None None None None None.

Definition task_A_in_X : TaskSpec.t :=
  TaskSpec.mk "A" "DataLoader" [ds_X] [] [] [] None None None None None.

Definition registry_of (ts : list TaskSpec.t) : FlowRegistry.t :=
  FlowRegistry.mk "p" "run-1" ts None None "RUNNING" [].

(** The dataset of [ds_X] under another namespace, and [ds_X] with a
    facet: the first is another dataset, the second the same one. *)
Definition ds_X_elsewhere : pydict :=
  [("namespace", PStr "s3"); ("name", PStr "/data/x.csv"); ("facets", PDict [])].

Definition ds_X_described : pydict :=
  [("namespace", PStr "file"); ("name", PStr "/data/x.csv");
   ("facets", PDict [("stats", PDict [("rowCount", PInt 3)])])].

Definition task_B_in (ds : pydict) : TaskSpec.t :=
  TaskSpec.mk "B" "Transformer" [ds] [] [] [] None None None None None.

Definition task_load : TaskSpec.t :=
  TaskSpec.mk "load" "DataLoader" [] [ds_X] [] [] None None None None None.

Definition task_clean : TaskSpec.t :=
  TaskSpec.mk "clean" "Transformer" [ds_X] [] [] [] None None None None None.

(** ** core/datasets.py *)

Module DatasetRef.

Record t : Type := mk {
  namespace : string;
  name : string;
  facets : pydict
}.

Definition to_dict (self : t) : pydict :=
  [ ("namespace", PStr (namespace self));
    ("name", PStr (name self));
    ("facets", PDict (facets self)) ].

(** [Dataset(...)], an object of the openlineage client, when the package
    can be imported; the dict of the [except ImportError] branch
    otherwise. [self.facets if self.facets else None]: an empty dict is
    false. *)
Definition to_openlineage_dataset (openlineage_importable : bool) (self : t) : pyval :=
  if openlineage_importable then PObj "Dataset" 0
  else PDict [ ("namespace", PStr (namespace self));
               ("name", PStr (name self));
               ("facets", match facets self with
                          | [] => PNone
                          | fs => PDict fs
                          end) ].

End DatasetRef.

(** ** config.py, and what the run depends on outside the program *)

Module Settings.

Record t : Type := mk {
  ol_url : string;
  ol_namespace : string;
  prometheus_enabled : bool;
  warn_on_missing_io : bool
}.

(** The values when no environment variable is set. *)
Definition default : t := mk "" "notebook" false true.

End Settings.

Record environment : Type := mkEnvironment {
  settings : Settings.t;
  openlineage_importable : bool;       (** [import openlineage] succeeds *)
  tracer_available : bool;             (** [get_tracer()] is not None *)
  client_emit_fails : bool;            (** [client.emit] raises *)
  metrics_rows : string → option pydict; (** what [find_metrics_row] finds *)
  can_write : string → bool;           (** [open(path, "w")] succeeds *)
  now_iso_zulu : nat → string;         (** the clock, by the number of earlier readings *)
  uuid4 : nat → string;                (** uuids, by the number drawn before *)
  client_construction_fails : bool     (** building the transport or the client raises *)
}.

(** ** The state of a run *)

Inductive level : Type := DEBUG | INFO | WARNING | ERROR.

Inductive message : Type :=
| Text (s : string)
| WithJson (s : string) (v : pyval)
| WithError (s : string) (e : exn).

Inductive telemetry_event : Type :=
| SpanEntered (span_name : string) (attributes : pydict)
| SpanExited (success : bool)
| GaugeInc (metric : string)
| GaugeDec (metric : string)
| CounterInc (metric : string) (labels : list string)
| Observed (metric : string) (labels : list string) (value : nat).

(** What a file holds after [json.dump]: the document, or the beginning
    of it when serialization raised on the way. *)
Inductive file_content : Type :=
| Document (doc : pydict)
| Truncated.

Module OpenLineageEmitter.
Record t : Type := mk {
  namespace : string;
  url : string;
  client : bool                        (** [self.client is not None] *)
}.
End OpenLineageEmitter.

(** A token of a context variable: the value the variable had before
    [set], and whether [reset] has used the token, which it can do once.
    The run is in one [Context]. *)
Record token : Type := mkToken {
  old_value : option nat;
  used : bool
}.

(** What [ContextVar.reset] raises on a token it has used before. *)
Definition token_used : exn := RuntimeError "Token has already been used once".

(** The token after [reset], and whether [reset] raises on it; an
    attribute that holds no token is not reset. *)
Definition spent (t : option token) : option token :=
  (λ tok, mkToken (old_value tok) true) <$> t.

Definition reset_raises (t : option token) : bool :=
  match t with
  | Some tok => used tok
  | None => false
  end.

(** The attributes of a [Flow] object. *)
Module FlowAttrs.
Record t : Type := mk {
  name : string;
  run_id : string;
  auto_export : bool;
  export_path : option string;
  registry : nat;
  _token : option token;
  _cleanup_registered : bool
}.

Definition set_export_path (x : option string) (f : t) : t :=
  mk (name f) (run_id f) (auto_export f) x (registry f) (_token f)
     (_cleanup_registered f).
Definition set_token (x : option token) (f : t) : t :=
  mk (name f) (run_id f) (auto_export f) (export_path f) (registry f) x
     (_cleanup_registered f).
Definition set_cleanup_registered (x : bool) (f : t) : t :=
  mk (name f) (run_id f) (auto_export f) (export_path f) (registry f)
     (_token f) x.
End FlowAttrs.

(** The attributes of a [Step] object; [_start_time] is in clock readings. *)
Module StepAttrs.
Record t : Type := mk {
  name : string;
  component_type : string;
  job_namespace : string;
  tags : pydict;
  run_id : string;
  inputs : list DatasetRef.t;
  outputs : list DatasetRef.t;
  contracts : list pydict;
  _start_time : option nat;
  _tracing_context : option (string * pydict);
  _step_token : option token;
  flow_registry : option nat;
  _emitter : OpenLineageEmitter.t
}.

Definition set_inputs (x : list DatasetRef.t) (s : t) : t :=
  mk (name s) (component_type s) (job_namespace s) (tags s) (run_id s) x
     (outputs s) (contracts s) (_start_time s) (_tracing_context s)
     (_step_token s) (flow_registry s) (_emitter s).
Definition set_outputs (x : list DatasetRef.t) (s : t) : t :=
  mk (name s) (component_type s) (job_namespace s) (tags s) (run_id s)
     (inputs s) x (contracts s) (_start_time s) (_tracing_context s)
     (_step_token s) (flow_registry s) (_emitter s).
Definition set_contracts (x : list pydict) (s : t) : t :=
  mk (name s) (component_type s) (job_namespace s) (tags s) (run_id s)
     (inputs s) (outputs s) x (_start_time s) (_tracing_context s)
     (_step_token s) (flow_registry s) (_emitter s).
Definition set_start_time (x : option nat) (s : t) : t :=
  mk (name s) (component_type s) (job_namespace s) (tags s) (run_id s)
     (inputs s) (outputs s) (contracts s) x (_tracing_context s)
     (_step_token s) (flow_registry s) (_emitter s).
Definition set_tracing_context (x : option (string * pydict)) (s : t) : t :=
  mk (name s) (component_type s) (job_namespace s) (tags s) (run_id s)
     (inputs s) (outputs s) (contracts s) (_start_time s) x
     (_step_token s) (flow_registry s) (_emitter s).
Definition set_step_token (x : option token) (s : t) : t :=
  mk (name s) (component_type s) (job_namespace s) (tags s) (run_id s)
     (inputs s) (outputs s) (contracts s) (_start_time s) (_tracing_context s)
     x (flow_registry s) (_emitter s).
End StepAttrs.

(** Objects live in stores by address, so that a registry reached from
    the flow, from its steps and from the context variable is one object. *)
Record world : Type := mkWorld {
  registries : gmap nat FlowRegistry.t;
  flow_objects : gmap nat FlowAttrs.t;
  step_objects : gmap nat StepAttrs.t;
  _current_flow : option nat;
  _current_step : option nat;
  _default_emitter : option OpenLineageEmitter.t;
  atexit_registered : list nat;        (** flows whose [_export_on_exit] is registered *)
  files : gmap string file_content;
  log : list (level * message);
  telemetry : list telemetry_event;
  clock_readings : nat;
  uuids_drawn : nat
}.

Definition empty_world : world :=
  mkWorld ∅ ∅ ∅ None None None [] ∅ [] [] 0 0.

Definition set_registries (x : gmap nat FlowRegistry.t) (w : world) : world :=
  mkWorld x (flow_objects w) (step_objects w) (_current_flow w) (_current_step w)
    (_default_emitter w) (atexit_registered w) (files w) (log w) (telemetry w)
    (clock_readings w) (uuids_drawn w).
Definition set_flow_objects (x : gmap nat FlowAttrs.t) (w : world) : world :=
  mkWorld (registries w) x (step_objects w) (_current_flow w) (_current_step w)
    (_default_emitter w) (atexit_registered w) (files w) (log w) (telemetry w)
    (clock_readings w) (uuids_drawn w).
Definition set_step_objects (x : gmap nat StepAttrs.t) (w : world) : world :=
  mkWorld (registries w) (flow_objects w) x (_current_flow w) (_current_step w)
    (_default_emitter w) (atexit_registered w) (files w) (log w) (telemetry w)
    (clock_readings w) (uuids_drawn w).
Definition set_current_flow (x : option nat) (w : world) : world :=
  mkWorld (registries w) (flow_objects w) (step_objects w) x (_current_step w)
    (_default_emitter w) (atexit_registered w) (files w) (log w) (telemetry w)
    (clock_readings w) (uuids_drawn w).
Definition set_current_step (x : option nat) (w : world) : world :=
  mkWorld (registries w) (flow_objects w) (step_objects w) (_current_flow w) x
    (_default_emitter w) (atexit_registered w) (files w) (log w) (telemetry w)
    (clock_readings w) (uuids_drawn w).
Definition set_default_emitter (x : option OpenLineageEmitter.t) (w : world) : world :=
  mkWorld (registries w) (flow_objects w) (step_objects w) (_current_flow w)
    (_current_step w) x (atexit_registered w) (files w) (log w) (telemetry w)
    (clock_readings w) (uuids_drawn w).
Definition set_atexit_registered (x : list nat) (w : world) : world :=
  mkWorld (registries w) (flow_objects w) (step_objects w) (_current_flow w)
    (_current_step w) (_default_emitter w) x (files w) (log w) (telemetry w)
    (clock_readings w) (uuids_drawn w).
Definition set_files (x : gmap string file_content) (w : world) : world :=
  mkWorld (registries w) (flow_objects w) (step_objects w) (_current_flow w)
    (_current_step w) (_default_emitter w) (atexit_registered w) x (log w)
    (telemetry w) (clock_readings w) (uuids_drawn w).
Definition set_log (x : list (level * message)) (w : world) : world :=
  mkWorld (registries w) (flow_objects w) (step_objects w) (_current_flow w)
    (_current_step w) (_default_emitter w) (atexit_registered w) (files w) x
    (telemetry w) (clock_readings w) (uuids_drawn w).
Definition set_telemetry (x : list telemetry_event) (w : world) : world :=
  mkWorld (registries w) (flow_objects w) (step_objects w) (_current_flow w)
    (_current_step w) (_default_emitter w) (atexit_registered w) (files w) (log w)
    x (clock_readings w) (uuids_drawn w).
Definition set_clock_readings (x : nat) (w : world) : world :=
  mkWorld (registries w) (flow_objects w) (step_objects w) (_current_flow w)
    (_current_step w) (_default_emitter w) (atexit_registered w) (files w) (log w)
    (telemetry w) x (uuids_drawn w).
Definition set_uuids_drawn (x : nat) (w : world) : world :=
  mkWorld (registries w) (flow_objects w) (step_objects w) (_current_flow w)
    (_current_step w) (_default_emitter w) (atexit_registered w) (files w) (log w)
    (telemetry w) (clock_readings w) x.

(** *** Statements: state passing with exceptions *)

(** A statement takes the state to a result and the state it leaves; what
    was done before an exception stays done. *)
Definition M (A : Type) : Type := world → outcome A * world.

Definition ret {A} (a : A) : M A := λ w, (Ok a, w).

Definition bind {A B} (m : M A) (k : A → M B) : M B := λ w,
  match m w with
  | (Ok a, w') => k a w'
  | (Raise e, w') => (Raise e, w')
  | (Unmodelled, w') => (Unmodelled, w')
  end.

Definition raise {A} (e : exn) : M A := λ w, (Raise e, w).

Definition get_world : M world := λ w, (Ok w, w).

Definition modify (f : world → world) : M unit := λ w, (Ok tt, f w).

Declare Scope stmt_scope.
Delimit Scope stmt_scope with stmt.
Notation "x ⇐ m ; k" := (bind m (λ x, k))
  (at level 20, m at level 100, k at level 200, only parsing) : stmt_scope.
Notation "m ;; k" := (bind m (λ _, k))
  (at level 100, k at level 200, right associativity, only parsing) : stmt_scope.

(** [try: m  except Exception as e: handler e]. *)
Definition try_except {A} (m : M A) (handler : exn → M A) : M A := λ w,
  match m w with
  | (Raise e, w') => handler e w'
  | r => r
  end.

(** [try: m  finally: cleanup]: an exception of the cleanup replaces the
    result of [m]. *)
Definition try_finally {A} (m : M A) (cleanup : M unit) : M A := λ w,
  match m w with
  | (r, w') =>
      match cleanup w' with
      | (Ok _, w'') => (r, w'')
      | (Raise e, w'') => (Raise e, w'')
      | (Unmodelled, w'') => (Unmodelled, w'')
      end
  end.

(** [with manager: body]: [__exit__] gets the exception of the body, if
    any, and the exception goes on unless [__exit__] returns true; an
    exception of [__exit__] itself replaces it. *)
Definition with_statement {A B} (enter : M B) (exit : option exn → M bool)
    (body : B → M A) : M (option A) :=
  bind enter (λ target, λ w,
    match body target w with
    | (Ok a, w') =>
        match exit None w' with
        | (Ok _, w'') => (Ok (Some a), w'')
        | (Raise e, w'') => (Raise e, w'')
        | (Unmodelled, w'') => (Unmodelled, w'')
        end
    | (Raise e, w') =>
        match exit (Some e) w' with
        | (Ok true, w'') => (Ok None, w'')
        | (Ok false, w'') => (Raise e, w'')
        | (Raise e', w'') => (Raise e', w'')
        | (Unmodelled, w'') => (Unmodelled, w'')
        end
    | (Unmodelled, w') => (Unmodelled, w')
    end).

Local Open Scope stmt_scope.

(** *** Collaborators *)

(** Modelled from the spec: utils/logging.py (get_logger) is not among the
    sources; operations degrade to "a logged warning", so a logger call
    adds a record to the log and returns. *)
Definition logger (lvl : level) (msg : message) : M unit :=
  modify (λ w, set_log (log w ++ [(lvl, msg)]) w).

(** utils/time.py and [time.perf_counter]: a reading of the clock. *)
Definition read_clock : M nat := λ w,
  (Ok (clock_readings w), set_clock_readings (S (clock_readings w)) w).

Definition now (env : environment) : M string :=
  n ⇐ read_clock; ret (now_iso_zulu env n).

(** utils/ids.py *)
Definition generate_run_id (env : environment) : M string := λ w,
  (Ok (uuid4 env (uuids_drawn w)), set_uuids_drawn (S (uuids_drawn w)) w).

Definition generate_job_name (flow_name : string) (step_name : option string) : string :=
  match step_name with
  | Some s => if String.eqb s "" then flow_name else flow_name +:+ "." +:+ s
  | None => flow_name
  end.

(** core/otel.py: [prom_metrics = get_prometheus_metrics()] followed by
    [if name in prom_metrics: ...]; the dict is empty unless Prometheus is
    enabled. The log lines of otel.py itself are left out. *)
Definition prometheus (env : environment) (ev : telemetry_event) : M unit :=
  if Settings.prometheus_enabled (settings env)
  then modify (λ w, set_telemetry (telemetry w ++ [ev]) w)
  else ret tt.

(** [TracingContext.__enter__] and [__exit__]: the span is None without a
    tracer, and the generator behind [trace_span] hands the exception back
    unchanged. *)
Definition tracing_enter (env : environment) (span_name : string)
    (attributes : pydict) : M unit :=
  _ ⇐ read_clock;
  if tracer_available env
  then modify (λ w, set_telemetry (telemetry w ++ [SpanEntered span_name attributes]) w)
  else ret tt.

Definition tracing_exit (env : environment) (exc : option exn) : M unit :=
  if tracer_available env
  then
    _ ⇐ read_clock;
    modify (λ w, set_telemetry
                   (telemetry w ++ [SpanExited (bool_decide (exc = None))]) w)
  else ret tt.

(** core/lineage.py *)

(** [OpenLineageEmitter()] with [_init_client]: the client exists when a
    URL is configured, the package can be imported and the transport and
    the client can be built; [except ImportError] and [except Exception]
    both leave [self.client] at None. *)
Definition new_emitter (env : environment) : M OpenLineageEmitter.t :=
  let url := Settings.ol_url (settings env) in
  let namespace := Settings.ol_namespace (settings env) in
  if String.eqb url ""
  then
    logger DEBUG (Text "OpenLineage URL not configured, events will be logged only");;
    ret (OpenLineageEmitter.mk namespace url false)
  else if openlineage_importable env
  then
    if client_construction_fails env
    then
      logger ERROR (Text "Failed to initialize OpenLineage client");;
      ret (OpenLineageEmitter.mk namespace url false)
    else
      logger INFO (Text ("OpenLineage client initialized for " +:+ url));;
      ret (OpenLineageEmitter.mk namespace url true)
  else
    logger WARNING (Text "OpenLineage client not available. Install with: pip install 'nbxflow[ol]'");;
    ret (OpenLineageEmitter.mk namespace url false).

Definition get_emitter (env : environment) : M OpenLineageEmitter.t :=
  w ⇐ get_world;
  match _default_emitter w with
  | Some e => ret e
  | None =>
      e ⇐ new_emitter env;
      modify (set_default_emitter (Some e));;
      ret e
  end.

(** [_prepare_facets]: every facet of the bundle is one of the facet
    classes, kept here as what its [to_dict] returns. *)
Definition _prepare_facets (facets : option pydict) : pyval :=
  match facets with
  | None | Some [] => PNone
  | Some fs =>
      PDict (map (λ kv,
        (kv.1,
         match kv.2 with
         | PDict facet_data =>
             PDict (dict_set "_schemaURL"
                      (PStr ("https://github.com/your-org/nbxflow/facets/" +:+ kv.1))
                      (dict_set "_producer"
                         (PStr "https://github.com/your-org/nbxflow") facet_data))
         | v => v
         end)) fs)
  end.

Definition emit_event (env : environment) (self : OpenLineageEmitter.t)
    (event_type run_id job_name : string)
    (inputs outputs : list DatasetRef.t) (run_facets : option pydict) : M bool :=
  event_time ⇐ now env;
  let ol_inputs := map (DatasetRef.to_openlineage_dataset (openlineage_importable env)) inputs in
  let ol_outputs := map (DatasetRef.to_openlineage_dataset (openlineage_importable env)) outputs in
  let event_data : pydict :=
    [ ("eventType", PStr event_type);
      ("eventTime", PStr event_time);
      ("run", PDict [ ("runId", PStr run_id);
                      ("facets", _prepare_facets run_facets) ]);
      ("job", PDict [ ("namespace", PStr (OpenLineageEmitter.namespace self));
                      ("name", PStr job_name);
                      ("facets", _prepare_facets None) ]);
      ("inputs", PList ol_inputs);
      ("outputs", PList ol_outputs);
      ("producer", PStr "nbxflow/0.1.0");
      ("schemaURL", PStr "https://openlineage.io/spec/1-0-5/OpenLineage.json#/definitions/RunEvent") ] in
  logger DEBUG (Text ("OpenLineage event: " +:+ event_type +:+ " for job " +:+ job_name));;
  if OpenLineageEmitter.client self
  then
    (* try: self.client.emit(...)  except Exception: ... *)
    if client_emit_fails env
    then logger ERROR (Text "Failed to emit OpenLineage event");; ret false
    else ret true
  else
    (* the f-string calls json.dumps before anything is logged *)
    if json_serializable (PDict event_data)
    then logger INFO (WithJson "OpenLineage event (no client): " (PDict event_data));;
         ret true
    else raise (TypeError "Object is not JSON serializable").

(** core/metrics_adapter.py: [find_metrics_row] catches what it raises. *)
Definition find_metrics_row (env : environment) (operation_name : string)
    : M (option pydict) :=
  match metrics_rows env operation_name with
  | Some row => ret (Some row)
  | None =>
      logger DEBUG (Text ("No metrics found for operation: " +:+ operation_name));;
      ret None
  end.

(** core/facets.py, each facet as its [to_dict]. *)
Definition performance_from_metrics_row (row : pydict) : option pydict :=
  match row with
  | [] => None
  | _ =>
      Some [ ("wall_time_seconds", dict_get "wall_time_seconds" row PNone);
             ("cpu_hours", dict_get "cpu_hours" row PNone);
             ("memory_delta_mb", dict_get "memory_delta_mb" row PNone);
             ("throughput_rps", dict_get "throughput_records_per_sec" row PNone);
             ("input_tokens", dict_get "input_tokens" row PNone);
             ("output_tokens", dict_get "output_tokens" row PNone);
             ("llm_cost_usd", dict_get "llm_cost" row PNone) ]
  end.

Definition reliability_from_metrics_row (row : pydict) : option pydict :=
  match row, dict_lookup "reliability_attempts" row with
  | [], _ | _, None => None
  | _, Some _ =>
      Some [ ("attempts", dict_get "reliability_attempts" row (PInt 1));
             ("retries", dict_get "reliability_retries" row (PInt 0));
             ("succeeded_after_retry",
              dict_get "reliability_succeeded_after_retry" row (PBool false));
             ("success", dict_get "reliability_success" row PNone);
             ("mttr_seconds", dict_get "reliability_mttr_seconds" row PNone);
             ("wasted_seconds", dict_get "reliability_wasted_seconds" row PNone) ]
  end.

Definition minimal_performance_facet (wall_time : nat) : pydict :=
  [ ("wall_time_seconds", PInt (Z.of_nat wall_time));
    ("cpu_hours", PNone); ("memory_delta_mb", PNone); ("throughput_rps", PNone);
    ("input_tokens", PNone); ("output_tokens", PNone); ("llm_cost_usd", PNone) ].

(** *** Objects in the stores *)

Definition read_registry (a : nat) : M FlowRegistry.t := λ w,
  match registries w !! a with
  | Some r => (Ok r, w)
  | None => (Unmodelled, w)
  end.

Definition update_registry (a : nat) (f : FlowRegistry.t → FlowRegistry.t) : M unit :=
  modify (λ w, set_registries (alter f a (registries w)) w).

Definition read_flow (a : nat) : M FlowAttrs.t := λ w,
  match flow_objects w !! a with
  | Some f => (Ok f, w)
  | None => (Unmodelled, w)
  end.

Definition update_flow (a : nat) (f : FlowAttrs.t → FlowAttrs.t) : M unit :=
  modify (λ w, set_flow_objects (alter f a (flow_objects w)) w).

Definition read_step (a : nat) : M StepAttrs.t := λ w,
  match step_objects w !! a with
  | Some s => (Ok s, w)
  | None => (Unmodelled, w)
  end.

Definition update_step (a : nat) (f : StepAttrs.t → StepAttrs.t) : M unit :=
  modify (λ w, set_step_objects (alter f a (step_objects w)) w).

(** [d.update(other)]. *)
Definition dict_update (d other : pydict) : pydict :=
  foldl (λ d kv, dict_set kv.1 kv.2 d) d other.

(** [FlowRegistry.to_json]: the file is opened, then the document is
    built and dumped. *)
Definition to_json (env : environment) (registry : nat) (path : string) : M unit :=
  if can_write env path
  then
    r ⇐ read_registry registry;
    let doc := FlowRegistry.to_dict r in
    if json_serializable (PDict doc)
    then modify (λ w, set_files (<[path := Document doc]> (files w)) w)
    else
      modify (λ w, set_files (<[path := Truncated]> (files w)) w);;
      raise (TypeError "Object is not JSON serializable")
  else raise (OSError path).

(** What [json.load] reads back from what [json.dump] wrote for a
    serializable value: a tuple comes back as a list, and the string keys
    of the dicts come back as they are. (json writes a key that is an
    int, a float, a bool or None as a string; dicts with such keys are
    not among the values modelled.) *)
Fixpoint json_reloaded (v : pyval) : pyval :=
  match v with
  | PList xs | PTuple xs => PList (map json_reloaded xs)
  | PDict kvs => PDict (map (λ kv, (kv.1, json_reloaded kv.2)) kvs)
  | other => other
  end.

Definition json_reloaded_dict (d : pydict) : pydict :=
  map (λ kv, (kv.1, json_reloaded kv.2)) d.

(** [FlowRegistry.from_json]: a missing file raises FileNotFoundError, an
    OSError; the beginning of a document is not a document and raises
    JSONDecodeError, a ValueError. *)
Definition from_json (path : string) : M FlowRegistry.t := λ w,
  match files w !! path with
  | None => (Raise (OSError path), w)
  | Some Truncated => (Raise (ValueError "JSONDecodeError"), w)
  | Some (Document doc) => (FlowRegistry.from_dict (json_reloaded_dict doc), w)
  end.

(** A value without tuples. *)
Fixpoint tuple_free (v : pyval) : bool :=
  match v with
  | PList xs => forallb tuple_free xs
  | PTuple _ => false
  | PDict kvs => forallb (λ kv, tuple_free kv.2) kvs
  | _ => true
  end.

Definition tuple_free_task (task : TaskSpec.t) : bool :=
  forallb (λ d, tuple_free (PDict d))
    (TaskSpec.inputs task ++ TaskSpec.outputs task ++ TaskSpec.contracts task) &&
  tuple_free (PDict (TaskSpec.tags task)).

(** The task [from_json] rebuilds from what [to_json] wrote for [task]. *)
Definition reloaded_task (task : TaskSpec.t) : TaskSpec.t :=
  TaskSpec.mk (TaskSpec.name task) (TaskSpec.component_type task)
    (map json_reloaded_dict (TaskSpec.inputs task))
    (map json_reloaded_dict (TaskSpec.outputs task))
    (map json_reloaded_dict (TaskSpec.contracts task))
    (json_reloaded_dict (TaskSpec.tags task))
    (TaskSpec.started_at task) (TaskSpec.finished_at task)
    (TaskSpec.status task) (TaskSpec.run_id task) (TaskSpec.parent task).

(** ** core/step.py *)

Definition COMPONENT_TYPES : list string :=
  [ "DataLoader"; "Transformer"; "Reconciliator"; "Enricher";
    "Exporter"; "QualityCheck"; "Splitter"; "Merger";
    "Orchestrator"; "Other" ].

Module Flow.

Definition __init__ (env : environment) (name : string) (run_id : option string)
    (auto_export : bool) (export_path : option string) : M nat :=
  (* run_id or generate_run_id() *)
  run_id ⇐ match run_id with
           | Some r => if String.eqb r "" then generate_run_id env else ret r
           | None => generate_run_id env
           end;
  w ⇐ get_world;
  let registry := fresh (dom (registries w)) in
  modify (set_registries (<[registry := FlowRegistry.new name run_id]> (registries w)));;
  let self := fresh (dom (flow_objects w)) in
  modify (set_flow_objects
            (<[self := FlowAttrs.mk name run_id auto_export export_path
                         registry None false]> (flow_objects w)));;
  prometheus env (GaugeInc "active_flows");;
  ret self.

Definition __enter__ (env : environment) (self : nat) : M nat :=
  f ⇐ read_flow self;
  w ⇐ get_world;
  modify (set_current_flow (Some (FlowAttrs.registry f)));;
  update_flow self (FlowAttrs.set_token (Some (mkToken (_current_flow w) false)));;
  started_at ⇐ now env;
  update_registry (FlowAttrs.registry f) (FlowRegistry.set_started_at (Some started_at));;
  (if FlowAttrs.auto_export f && negb (FlowAttrs._cleanup_registered f)
   then
     (* atexit.register(self._export_on_exit) *)
     modify (λ w, set_atexit_registered (atexit_registered w ++ [self]) w);;
     update_flow self (FlowAttrs.set_cleanup_registered true)
   else ret tt);;
  logger INFO (Text ("Started flow: " +:+ FlowAttrs.name f +:+
                     " (run_id: " +:+ FlowAttrs.run_id f +:+ ")"));;
  ret (FlowAttrs.registry f).

Definition __exit__ (env : environment) (self : nat) (exc : option exn) : M bool :=
  f ⇐ read_flow self;
  try_finally
    (finished_at ⇐ now env;
     update_registry (FlowAttrs.registry f) (FlowRegistry.set_finished_at (Some finished_at));;
     match exc with
     | None => update_registry (FlowAttrs.registry f) (FlowRegistry.set_status "SUCCESS")
     | Some e =>
         update_registry (FlowAttrs.registry f) (FlowRegistry.set_status "FAILED");;
         logger ERROR (WithError ("Flow " +:+ FlowAttrs.name f +:+ " failed: ") e)
     end;;
     prometheus env (GaugeDec "active_flows");;
     r ⇐ read_registry (FlowAttrs.registry f);
     logger INFO (Text ("Completed flow: " +:+ FlowAttrs.name f +:+
                        " with status: " +:+ FlowRegistry.status r)))
    (match FlowAttrs._token f with
     | Some tok =>
         (* _current_flow.reset(self._token) *)
         if used tok
         then raise token_used
         else
           modify (set_current_flow (old_value tok));;
           update_flow self (FlowAttrs.set_token (Some (mkToken (old_value tok) true)))
     | None => ret tt
     end);;
  ret false.

Definition _export_on_exit (env : environment) (self : nat) : M unit :=
  try_except
    (f ⇐ read_flow self;
     (* if not self.export_path *)
     path ⇐ match FlowAttrs.export_path f with
            | Some p =>
                if String.eqb p ""
                then
                  let p := FlowAttrs.name f +:+ "_flow_" +:+ FlowAttrs.run_id f +:+ ".json" in
                  update_flow self (FlowAttrs.set_export_path (Some p));; ret p
                else ret p
            | None =>
                let p := FlowAttrs.name f +:+ "_flow_" +:+ FlowAttrs.run_id f +:+ ".json" in
                update_flow self (FlowAttrs.set_export_path (Some p));; ret p
            end;
     to_json env (FlowAttrs.registry f) path;;
     logger INFO (Text ("Flow registry exported to: " +:+ path)))
    (λ e, logger ERROR (WithError "Failed to export flow registry: " e)).

End Flow.

(** The interpreter exits: the registered functions run, last one first. *)
Definition interpreter_exit (env : environment) : M unit :=
  w ⇐ get_world;
  foldr (λ self rest, rest;; Flow._export_on_exit env self) (ret tt)
    (atexit_registered w).

(** [self.flow_registry.name if self.flow_registry else ...]: the name of
    the owning flow, when there is one. A registry object is true. *)
Definition flow_name (st : StepAttrs.t) : M (option string) :=
  match StepAttrs.flow_registry st with
  | Some a => r ⇐ read_registry a; ret (Some (FlowRegistry.name r))
  | None => ret None
  end.

(** The call [self.flow_registry.update_task_status(...)] of a step: the
    clock is read when the task is found. *)
Definition call_update_task_status (env : environment) (registry : nat)
    (name run_id status : string)
    (inputs outputs contracts : list pydict) : M unit :=
  r ⇐ read_registry registry;
  match FlowRegistry.get_task_index r name (Some run_id) with
  | Some _ =>
      finished_at ⇐ now env;
      update_registry registry (λ r,
        FlowRegistry.update_task_status r name run_id status
          (Some inputs) (Some outputs) (Some contracts) finished_at)
  | None => ret tt
  end.

Module Step.

Definition __init__ (env : environment) (name component_type : string)
    (job_namespace : option string) (tags : option pydict) : M nat :=
  if negb (bool_decide (component_type ∈ COMPONENT_TYPES)) &&
     negb (String.eqb component_type "auto")
  then raise (ValueError ("Invalid component_type: " +:+ component_type))
  else
    run_id ⇐ generate_run_id env;
    w ⇐ get_world;
    let flow_registry := _current_flow w in
    emitter ⇐ get_emitter env;
    let self := fresh (dom (step_objects w)) in
    modify (set_step_objects
      (<[self := StepAttrs.mk name component_type
                   (match job_namespace with
                    | Some ns => if String.eqb ns ""
                                 then Settings.ol_namespace (settings env) else ns
                    | None => Settings.ol_namespace (settings env)
                    end)
                   (default [] tags) run_id [] [] [] None None None
                   flow_registry emitter]> (step_objects w)));;
    ret self.

Definition __enter__ (env : environment) (self : nat) : M nat :=
  start ⇐ read_clock;
  update_step self (StepAttrs.set_start_time (Some start));;
  w ⇐ get_world;
  modify (set_current_step (Some self));;
  update_step self (StepAttrs.set_step_token (Some (mkToken (_current_step w) false)));;
  st ⇐ read_step self;
  flow ⇐ flow_name st;
  let trace_attributes :=
    dict_update
      [ ("flow.name", PStr (default "unknown" flow));
        ("step.name", PStr (StepAttrs.name st));
        ("step.component_type", PStr (StepAttrs.component_type st));
        ("step.run_id", PStr (StepAttrs.run_id st)) ]
      (StepAttrs.tags st) in
  let span_name := default "flow" flow +:+ "." +:+ StepAttrs.name st in
  update_step self (StepAttrs.set_tracing_context (Some (span_name, trace_attributes)));;
  tracing_enter env span_name trace_attributes;;
  match StepAttrs.flow_registry st with
  | Some a =>
      started_at ⇐ now env;
      r ⇐ read_registry a;
      let task_spec :=
        TaskSpec.mk (StepAttrs.name st) (StepAttrs.component_type st) [] [] []
          (StepAttrs.tags st) (Some started_at) None (Some "RUNNING")
          (Some (StepAttrs.run_id st)) (last (FlowRegistry._task_stack r)) in
      update_registry a (λ r, FlowRegistry.add_task r task_spec);;
      update_registry a (λ r,
        FlowRegistry.set_task_stack (FlowRegistry._task_stack r ++ [StepAttrs.name st]) r)
  | None => ret tt
  end;;
  _ ⇐ emit_event env (StepAttrs._emitter st) "START" (StepAttrs.run_id st)
        (generate_job_name (default "unknown_flow" flow) (Some (StepAttrs.name st)))
        [] [] None;
  prometheus env (GaugeInc "active_steps");;
  logger INFO (Text ("Started step: " +:+ StepAttrs.name st +:+
                     " (component_type: " +:+ StepAttrs.component_type st +:+ ")"));;
  ret self.

Definition _build_run_facets (env : environment) (self : nat) (success : bool)
    (wall_time : nat) : M pydict :=
  st ⇐ read_step self;
  let manual := negb (String.eqb (StepAttrs.component_type st) "auto") in
  let facets : pydict :=
    [ ("classification",
       PDict [ ("component_type", PStr (StepAttrs.component_type st));
               ("method", PStr (if manual then "manual" else "auto"));
               ("rationale", PStr (if manual then "Manually specified"
                                   else "Auto-classified")) ]) ] in
  metrics_row ⇐ find_metrics_row env (StepAttrs.name st);
  let facets :=
    match metrics_row with
    | Some ((_ :: _) as row) =>
        let facets :=
          match performance_from_metrics_row row with
          | Some perf_facet =>
              dict_set "performance"
                (PDict match dict_get "wall_time_seconds" perf_facet PNone with
                       | PNone => dict_set "wall_time_seconds"
                                    (PInt (Z.of_nat wall_time)) perf_facet
                       | _ => perf_facet
                       end) facets
          | None => facets
          end in
        match reliability_from_metrics_row row with
        | Some rel_facet =>
            dict_set "reliability"
              (PDict (dict_set "success" (PBool success) rel_facet)) facets
        | None => facets
        end
    | _ => dict_set "performance" (PDict (minimal_performance_facet wall_time)) facets
    end in
  let facets :=
    match StepAttrs.contracts st with
    | [] => facets
    | contracts =>
        dict_set "contracts"
          (PDict [("contracts", PList (map PDict contracts))]) facets
    end in
  ret facets.

Definition __exit__ (env : environment) (self : nat) (exc : option exn) : M bool :=
  let success := bool_decide (exc = None) in
  st ⇐ read_step self;
  (* a reading of perf_counter is never zero *)
  wall_time ⇐ match StepAttrs._start_time st with
              | Some start => t ⇐ read_clock; ret (t - start)
              | None => ret 0
              end;
  try_finally
    (try_except
       (run_facets ⇐ _build_run_facets env self success wall_time;
        st ⇐ read_step self;
        flow ⇐ flow_name st;
        let job_name :=
          generate_job_name (default "unknown_flow" flow) (Some (StepAttrs.name st)) in
        _ ⇐ emit_event env (StepAttrs._emitter st)
              (if success then "COMPLETE" else "FAIL") (StepAttrs.run_id st) job_name
              (StepAttrs.inputs st) (StepAttrs.outputs st) (Some run_facets);
        match StepAttrs.flow_registry st with
        | Some a =>
            call_update_task_status env a (StepAttrs.name st) (StepAttrs.run_id st)
              (if success then "SUCCESS" else "FAILED")
              (map DatasetRef.to_dict (StepAttrs.inputs st))
              (map DatasetRef.to_dict (StepAttrs.outputs st))
              (StepAttrs.contracts st);;
            r ⇐ read_registry a;
            if bool_decide (last (FlowRegistry._task_stack r) = Some (StepAttrs.name st))
            then update_registry a (λ r,
                   FlowRegistry.set_task_stack
                     (take (length (FlowRegistry._task_stack r) - 1)
                        (FlowRegistry._task_stack r)) r)
            else ret tt
        | None => ret tt
        end;;
        (if Settings.warn_on_missing_io (settings env)
         then
           match StepAttrs.inputs st with
           | [] => logger WARNING (Text ("Step '" +:+ StepAttrs.name st +:+
                     "' has no marked inputs. Use mark_input() to track data lineage."))
           | _ => ret tt
           end;;
           match StepAttrs.outputs st with
           | [] => logger WARNING (Text ("Step '" +:+ StepAttrs.name st +:+
                     "' has no marked outputs. Use mark_output() to track data lineage."))
           | _ => ret tt
           end
         else ret tt);;
        prometheus env (GaugeDec "active_steps");;
        prometheus env (CounterInc "steps_total"
                          [default "unknown" flow; StepAttrs.name st;
                           if success then "success" else "failed"]);;
        prometheus env (Observed "step_duration_seconds"
                          [default "unknown" flow; StepAttrs.name st] wall_time);;
        logger INFO (Text ("Step " +:+ StepAttrs.name st +:+
                           (if success then " succeeded" else " failed"))))
       (λ e, logger ERROR (WithError "Error in step cleanup: " e)))
    (st ⇐ read_step self;
     match StepAttrs._tracing_context st with
     | Some _ => tracing_exit env exc
     | None => ret tt
     end;;
     match StepAttrs._step_token st with
     | Some tok =>
         (* _current_step.reset(self._step_token) *)
         if used tok
         then raise token_used
         else
           modify (set_current_step (old_value tok));;
           update_step self
             (StepAttrs.set_step_token (Some (mkToken (old_value tok) true)))
     | None => ret tt
     end);;
  ret false.

Definition mark_input (self : nat) (dataset : DatasetRef.t) : M unit :=
  update_step self (λ st, StepAttrs.set_inputs (StepAttrs.inputs st ++ [dataset]) st);;
  logger DEBUG (Text ("Marked input dataset: " +:+ DatasetRef.namespace dataset +:+
                      ":" +:+ DatasetRef.name dataset)).

Definition mark_output (self : nat) (dataset : DatasetRef.t) : M unit :=
  update_step self (λ st, StepAttrs.set_outputs (StepAttrs.outputs st ++ [dataset]) st);;
  logger DEBUG (Text ("Marked output dataset: " +:+ DatasetRef.namespace dataset +:+
                      ":" +:+ DatasetRef.name dataset)).

Definition add_contract (self : nat) (contract : pydict) : M unit :=
  update_step self (λ st, StepAttrs.set_contracts (StepAttrs.contracts st ++ [contract]) st);;
  logger DEBUG (Text "Added contract").

End Step.

Definition current_step : M (option nat) :=
  w ⇐ get_world; ret (_current_step w).

Definition current_flow : M (option nat) :=
  w ⇐ get_world; ret (_current_flow w).

(** A [Step] object is true: the class defines neither [__bool__] nor
    [__len__]. *)
Definition mark_input (dataset : DatasetRef.t) : M unit :=
  current ⇐ current_step;
  match current with
  | Some self => Step.mark_input self dataset
  | None => logger WARNING (Text "mark_input() called outside of step context")
  end.

Definition mark_output (dataset : DatasetRef.t) : M unit :=
  current ⇐ current_step;
  match current with
  | Some self => Step.mark_output self dataset
  | None => logger WARNING (Text "mark_output() called outside of step context")
  end.

(** [with flow(...) as registry: body] and [with step(...): body]. *)
Definition with_flow {A} (env : environment) (name : string) (run_id : option string)
    (auto_export : bool) (export_path : option string) (body : nat → M A)
    : M (option A) :=
  self ⇐ Flow.__init__ env name run_id auto_export export_path;
  with_statement (Flow.__enter__ env self) (Flow.__exit__ env self) body.

Definition with_step {A} (env : environment) (name component_type : string)
    (body : nat → M A) : M (option A) :=
  self ⇐ Step.__init__ env name component_type None None;
  with_statement (Step.__enter__ env self) (Step.__exit__ env self) body.

(** ** Example runs *)

(** No environment variable set, no optional package installed, every
    path writable. *)
Definition plain_environment : environment :=
  mkEnvironment Settings.default false false false (λ _, None) (λ _, true)
    (λ n, "2024-01-01T00:00:" +:+ pretty n +:+ "Z")
    (λ n, "uuid-" +:+ pretty n) false.

Definition ds_raw : DatasetRef.t := DatasetRef.mk "file" "/data/raw.csv" [].

(** A dataset reference with a facet that json cannot serialize. *)
Definition ds_raw_loaded_at : DatasetRef.t :=
  DatasetRef.mk "file" "/data/raw.csv" [("loaded_at", PObj "datetime" 0)].

Definition boom : exn := UserError "ValueError" "boom".

(** [with flow("p"): with step("load", "DataLoader"): mark_input(ds); raise ValueError("boom")] *)
Definition failing_step (env : environment) (ds : DatasetRef.t) : M (option (option unit)) :=
  with_flow env "p" None true None (λ _,
    with_step env "load" "DataLoader" (λ _,
      mark_input ds;;
      raise boom)).

(** [with flow("p"): with step("guess", "auto"): pass] *)
Definition auto_step (env : environment) : M (option (option unit)) :=
  with_flow env "p" None true None (λ _,
    with_step env "guess" "auto" (λ _, ret tt)).

(** [with flow("p"): pass] *)
Definition empty_flow (env : environment) : M (option unit) :=
  with_flow env "p" None true None (λ _, ret tt).

(** The tasks of the registry at address 0 of a state. *)
Definition recorded_tasks (w : world) : list TaskSpec.t :=
  match registries w !! 0 with
  | Some r => FlowRegistry.tasks r
  | None => []
  end.

(** The state inside [with flow("p"):], before any step. *)
Definition inside_flow : world :=
  (bind (Flow.__init__ plain_environment "p" None true None)
        (Flow.__enter__ plain_environment) empty_world).2.

(** A statement that raises in no state. *)
Definition never_raises {A} (m : M A) : Prop :=
  ∀ (w : world) (e : exn), (m w).1 ≠ Raise e.

Definition raises_only {A} (P : exn → Prop) (m : M A) : Prop :=
  ∀ (w : world) (e : exn), (m w).1 = Raise e → P e.

(** No path can be opened for writing. *)
Definition read_only_directory : environment :=
  mkEnvironment Settings.default false false false (λ _, None) (λ _, false)
    (now_iso_zulu plain_environment) (uuid4 plain_environment) false.

(** What [json.dump] needs of a task: its dicts are serializable. *)
Definition serializable_task (task : TaskSpec.t) : bool :=
  forallb (λ d, json_serializable (PDict d))
    (TaskSpec.inputs task ++ TaskSpec.outputs task ++ TaskSpec.contracts task) &&
  json_serializable (PDict (TaskSpec.tags task)).

(** A state whose only object is the registry [r], at address 0. *)
Definition world_of_registry (r : FlowRegistry.t) : world :=
  set_registries {[ 0%nat := r ]} empty_world.

(** A task with an input facet that json cannot serialize. *)
Definition task_load_at : TaskSpec.t :=
  TaskSpec.mk "load" "DataLoader"
    [[("namespace", PStr "file"); ("name", PStr "/data/raw.csv");
      ("facets", PDict [("loaded_at", PObj "datetime" 0)])]]
    [] [] [] None None None (Some "run-1") None.

(** What a statement can change besides the log, the telemetry, the clock
    and the uuids drawn. *)
Definition objects (w : world) :=
  (registries w, flow_objects w, step_objects w, _current_flow w,
   _current_step w, _default_emitter w, atexit_registered w, files w).

(** A statement that returns in every state and changes no object. *)
Definition only_observes {A} (m : M A) : Prop :=
  ∀ w, ∃ a w', m w = (Ok a, w') ∧ objects w' = objects w.

(** The registry of a step's flow after the step's [__exit__] has
    finalized its task: the task is updated, and the step's name is
    popped when it is on top of the task stack. *)
Definition finalized (r : FlowRegistry.t) (st : StepAttrs.t) (success : bool)
    (finished_at : string) : FlowRegistry.t :=
  let r := FlowRegistry.update_task_status r (StepAttrs.name st)
             (StepAttrs.run_id st) (if success then "SUCCESS" else "FAILED")
             (Some (map DatasetRef.to_dict (StepAttrs.inputs st)))
             (Some (map DatasetRef.to_dict (StepAttrs.outputs st)))
             (Some (StepAttrs.contracts st)) finished_at in
  if bool_decide (last (FlowRegistry._task_stack r) = Some (StepAttrs.name st))
  then FlowRegistry.set_task_stack
         (take (length (FlowRegistry._task_stack r) - 1)
            (FlowRegistry._task_stack r)) r
  else r.

(** Whether the emitter [get_emitter] hands to a new step has a client. *)
Definition emitter_has_client (env : environment) (w : world) : bool :=
  match _default_emitter w with
  | Some e => OpenLineageEmitter.client e
  | None => negb (String.eqb (Settings.ol_url (settings env)) "") &&
            openlineage_importable env &&
            negb (client_construction_fails env)
  end.

(** What [json.dumps] needs of the event [emit_event] prints when there
    is no client: of a dataset as the event holds it, and of the metrics
    row the facets are built from. *)
Definition printable_dataset (env : environment) (dataset : DatasetRef.t) : bool :=
  json_serializable
    (DatasetRef.to_openlineage_dataset (openlineage_importable env) dataset).

Definition printable_metrics (env : environment) (name : string) : bool :=
  match metrics_rows env name with
  | Some row => json_serializable (PDict row)
  | None => true
  end.

(** Enough for the [emit_event] of a step's [__exit__] to return: a
    client, whose failures are caught, or an event that can be printed. *)
Definition emission_returns (env : environment) (st : StepAttrs.t) : bool :=
  OpenLineageEmitter.client (StepAttrs._emitter st) ||
  (forallb (printable_dataset env) (StepAttrs.inputs st ++ StepAttrs.outputs st) &&
   printable_metrics env (StepAttrs.name st) &&
   forallb (λ c, json_serializable (PDict c)) (StepAttrs.contracts st)).

(** The calls by which the body of a step records its datasets. *)
Inductive marking : Type :=
| Input (dataset : DatasetRef.t)
| Output (dataset : DatasetRef.t).

Definition mark (m : marking) : M unit :=
  match m with
  | Input dataset => mark_input dataset
  | Output dataset => mark_output dataset
  end.

(** [for x in l: f(x)] *)
Definition for_each {A} (f : A → M unit) (l : list A) : M unit :=
  foldr (λ x rest, f x;; rest) (ret tt) l.

Definition marked_inputs (ms : list marking) : list DatasetRef.t :=
  omap (λ m, match m with Input dataset => Some dataset | Output _ => None end) ms.

Definition marked_outputs (ms : list marking) : list DatasetRef.t :=
  omap (λ m, match m with Output dataset => Some dataset | Input _ => None end) ms.

(** [with step(name, component_type): <the markings>; raise exc] when
    [exc] is given, and without the [raise] otherwise. *)
Definition marking_step (env : environment) (name component_type : string)
    (ms : list marking) (exc : option exn) : M (option unit) :=
  with_step env name component_type (λ _,
    for_each mark ms;;
    match exc with
    | Some e => raise e
    | None => ret tt
    end).

(** The state inside [with flow("p"): with step("load", "DataLoader"):],
    after [mark_input(ds_raw)]. *)
Definition inside_step : world :=
  (bind (Step.__init__ plain_environment "load" "DataLoader" None None)
        (λ self, bind (Step.__enter__ plain_environment self)
                   (λ _, mark_input ds_raw)) inside_flow).2.

(** One [with step(...)] statement of a notebook: the name, the component
    type and the markings of its body. *)
Record step_call : Type := mkStepCall {
  call_name : string;
  call_type : string;
  call_marks : list marking
}.

(** [with flow(name, run_id): with step(...): ...; with step(...): ...],
    the steps one after the other, none raising. *)
Definition pipeline (env : environment) (name : string) (run_id : option string)
    (calls : list step_call) : M (option unit) :=
  with_flow env name run_id true None (λ _,
    for_each (λ c,
      marking_step env (call_name c) (call_type c) (call_marks c) None;;
      ret tt) calls).

(** The test of [Step.__init__] on the component type. *)
Definition valid_call (c : step_call) : bool :=
  bool_decide (call_type c ∈ COMPONENT_TYPES) || String.eqb (call_type c) "auto".

Definition printable_call (env : environment) (c : step_call) : bool :=
  forallb (printable_dataset env)
    (marked_inputs (call_marks c) ++ marked_outputs (call_marks c)) &&
  printable_metrics env (call_name c).

(** The facets of the datasets a call marks can be dumped as JSON. *)
Definition serializable_call (c : step_call) : bool :=
  forallb (λ ds, json_serializable (PDict (DatasetRef.facets ds)))
    (marked_inputs (call_marks c) ++ marked_outputs (call_marks c)).

(** The task a completed call leaves in the registry. *)
Definition records (parent : option string) (c : step_call) (task : TaskSpec.t) : Prop :=
  TaskSpec.name task = call_name c ∧
  TaskSpec.component_type task = call_type c ∧
  TaskSpec.inputs task = map DatasetRef.to_dict (marked_inputs (call_marks c)) ∧
  TaskSpec.outputs task = map DatasetRef.to_dict (marked_outputs (call_marks c)) ∧
  TaskSpec.contracts task = [] ∧
  TaskSpec.status task = Some "SUCCESS" ∧
  is_Some (TaskSpec.started_at task) ∧ is_Some (TaskSpec.finished_at task) ∧
  TaskSpec.parent task = parent ∧ TaskSpec.tags task = [].

(** [load] writes the raw file, [clean] reads it. *)
Definition two_calls : list step_call :=
  [ mkStepCall "load" "DataLoader" [Output ds_raw];
    mkStepCall "clean" "Transformer" [Input ds_raw] ].

(** The state after [Flow("p")], before it is entered. *)
Definition flow_created : world :=
  (Flow.__init__ plain_environment "p" None true None empty_world).2.

(** Every flow registered for the exit of the interpreter is an object of
    the state, and so is its registry. *)
Definition exports_ready (l : list nat) (w : world) : Prop :=
  ∀ self, self ∈ l →
    ∃ f r, flow_objects w !! self = Some f ∧
           registries w !! FlowAttrs.registry f = Some r.

(** The path [_export_on_exit] writes to: [export_path], or the name
    made of the flow's name and run id when that is None or empty. *)
Definition export_target (f : FlowAttrs.t) : string :=
  match FlowAttrs.export_path f with
  | Some p =>
      if String.eqb p ""
      then FlowAttrs.name f +:+ "_flow_" +:+ FlowAttrs.run_id f +:+ ".json"
      else p
  | None => FlowAttrs.name f +:+ "_flow_" +:+ FlowAttrs.run_id f +:+ ".json"
  end.

(** What one export leaves behind for a flow [f] with registry [r]: what
    the file at its path holds, when the path can be opened, and the one
    line it logs. *)
Definition exported_content (env : environment) (f : FlowAttrs.t)
    (r : FlowRegistry.t) : option file_content :=
  if can_write env (export_target f)
  then Some (if json_serializable (PDict (FlowRegistry.to_dict r))
             then Document (FlowRegistry.to_dict r) else Truncated)
  else None.

Definition export_line (env : environment) (f : FlowAttrs.t)
    (r : FlowRegistry.t) : level * message :=
  if can_write env (export_target f)
  then
    if json_serializable (PDict (FlowRegistry.to_dict r))
    then (INFO, Text ("Flow registry exported to: " +:+ export_target f))
    else (ERROR, WithError "Failed to export flow registry: "
                   (TypeError "Object is not JSON serializable"))
  else (ERROR, WithError "Failed to export flow registry: "
                 (OSError (export_target f))).

(** The export of the flow at [self], read in the state [w]. *)
Definition export_of (env : environment) (w : world) (self : nat)
    : option (string * option file_content * (level * message)) :=
  f ← flow_objects w !! self;
  r ← registries w !! FlowAttrs.registry f;
  Some (export_target f, exported_content env f r, export_line env f r).

(** The paths of the registered exports, in the order of registration. *)
Definition registered_targets (w : world) : list string :=
  omap (λ self, export_target <$> flow_objects w !! self) (atexit_registered w).

(** Two flows left one after the other, [with flow("p"): pass] and
    [with flow("q"): pass], where the file of the first cannot be
    opened. *)
Definition first_path_locked : environment :=
  mkEnvironment Settings.default false false false (λ _, None)
    (λ path, negb (String.eqb path "p_flow_uuid-0.json"))
    (now_iso_zulu plain_environment) (uuid4 plain_environment) false.

Definition two_flows_left : world :=
  (bind (with_flow first_path_locked "p" None true None (λ _, ret tt))
        (λ _, with_flow first_path_locked "q" None true None (λ _, ret tt))
        empty_world).2.

(** airflow_exporter.py, [validate_airflow_export]: the check for circular
    dependencies. The state of the search is the pair of the sets
    [visited] and [rec_stack]. *)
Definition search : Type := gset string * gset string.

(** [for neighbor in graph[node]: ...], with [has_cycle] for the
    recursive call; true stands for [return True]. *)
Fixpoint neighbors_loop (has_cycle : string → search → outcome (bool * search))
    (neighbors : list string) (s : search) : outcome (bool * search) :=
  match neighbors with
  | [] => Ok (false, s)
  | neighbor :: rest =>
      if bool_decide (neighbor ∉ s.1)
      then
        '(found, s) ← has_cycle neighbor s;
        if found : bool then Ok (true, s) else neighbors_loop has_cycle rest s
      else if bool_decide (neighbor ∈ s.2) then Ok (true, s)
      else neighbors_loop has_cycle rest s
  end.

(** [has_cycle(node)]; the fuel bounds the depth of the recursion.
    [rec_stack.remove(node)] raises KeyError when the node is not in the
    set. *)
Fixpoint has_cycle (fuel : nat) (graph : gmap string (list string))
    (node : string) (s : search) : outcome (bool * search) :=
  match fuel with
  | 0 => Unmodelled
  | S fuel =>
      '(found, s) ←
        (if bool_decide (node ∉ s.1)
         then
           neighbors ← match graph !! node with
                       | Some neighbors => Ok neighbors
                       | None => Raise (KeyError node)
                       end;
           neighbors_loop (has_cycle fuel graph) neighbors
             ({[node]} ∪ s.1, {[node]} ∪ s.2)
         else Ok (false, s));
      if found : bool then Ok (true, s)
      else if bool_decide (node ∈ s.2)
           then Ok (false, (s.1, s.2 ∖ {[node]}))
           else Raise (KeyError node)
  end.

(** [for node in task_names: if has_cycle(node): ...; break], in the
    order [order] in which the set is iterated; true when the warning is
    appended. *)
Fixpoint cycle_loop (fuel : nat) (graph : gmap string (list string))
    (order : list string) (s : search) : outcome bool :=
  match order with
  | [] => Ok false
  | node :: rest =>
      '(found, s) ← has_cycle fuel graph node s;
      if found : bool then Ok true else cycle_loop fuel graph rest s
  end.

(** [graph = {name: [] for name in task_names}] and then
    [graph[upstream].append(downstream)] for every dependency. *)
Definition dependency_graph (task_names : list string)
    (dependencies : list (string * string)) : outcome (gmap string (list string)) :=
  foldM (λ graph dependency,
      match graph !! dependency.1 with
      | Some downstreams =>
          Ok (<[dependency.1 := downstreams ++ [dependency.2]]> graph)
      | None => Raise (KeyError dependency.1)
      end)
    (list_to_map ((λ name, (name, [])) <$> task_names)) dependencies.

(** The last part of [validate_airflow_export], from the call of
    [derive_task_dependencies] on: whether the warning about a circular
    dependency is appended. [task_names] is a set in the source; the graph
    built from it has one key for each name, in whatever order the names
    come, and [order] is the order in which the final loop iterates it. *)
Definition circular_dependency_check (fuel : nat) (order : list string)
    (tasks : list pydict) : outcome bool :=
  dependencies ← derive_task_dependencies tasks;
  task_names ← mapM (λ task,
                  name ← dict_subscript task "name";
                  name ← str_receiver "lower" name;
                  Ok (sanitize_task_name name)) tasks;
  graph ← dependency_graph task_names dependencies;
  cycle_loop fuel graph order (∅, ∅).

(** [a] stands before [b] in the list. *)
Definition before {A} (l : list A) (a b : A) : Prop :=
  ∃ i j, (i < j)%nat ∧ l !! i = Some a ∧ l !! j = Some b.

(** dagster_exporter.py; the returned dict as a map, without the order of
    its keys. *)
Definition derive_asset_dependencies (tasks : list pydict)
    : outcome (gmap string (list string)) :=
  dataset_producers ←
    foldM (λ dataset_producers task,
      name ← dict_subscript task "name";
      name ← str_receiver "lower" name;
      let asset_name := sanitize_asset_name name in
      outputs ← py_iter (dict_get "outputs" task (PList []));
      foldM (λ (dataset_producers : gmap string string) output,
        output ← as_getable output;
        dataset_key ← dataset_key output;
        Ok (<[dataset_key := asset_name]> dataset_producers))
        dataset_producers outputs)
      (∅ : gmap string string) tasks;
  foldM (λ (dependencies : gmap string (list string)) task,
    name ← dict_subscript task "name";
    name ← str_receiver "lower" name;
    let asset_name := sanitize_asset_name name in
    inputs ← py_iter (dict_get "inputs" task (PList []));
    asset_dependencies ←
      foldM (λ asset_dependencies input_ds,
        input_ds ← as_getable input_ds;
        dataset_key ← dataset_key input_ds;
        match dataset_producers !! dataset_key with
        | Some upstream_asset =>
            if bool_decide (upstream_asset ≠ asset_name)
            then Ok (asset_dependencies ++ [upstream_asset])
            else Ok asset_dependencies
        | None => Ok asset_dependencies
        end) [] inputs;
    Ok (<[asset_name := asset_dependencies]> dependencies))
    ∅ tasks.

(** The asset of a task, and what the second loop of
    [derive_asset_dependencies] collects for one task. *)
Definition asset_of (task : TaskSpec.t) : string :=
  sanitize_asset_name (TaskSpec.name task).

Definition upstreams_of (producers : gmap string string) (task : TaskSpec.t)
    : list string :=
  input_ds ← TaskSpec.inputs task;
  match producers !! key_text input_ds with
  | Some upstream =>
      if bool_decide (upstream ≠ asset_of task) then [upstream] else []
  | None => []
  end.

(** ** The dependencies the generators write *)

(** [for i in range(len(l) - 1)]: the elements at [i] and [i + 1]. *)
Definition consecutive {A} (l : list A) : list (A * A) := zip l (tail l).

(** airflow_exporter.py, [generate_airflow_dag]: the lines of the part
    "Generate dependencies". *)
Definition airflow_dependency_lines (tasks : list pydict) : outcome (list string) :=
  dependencies ← derive_task_dependencies tasks;
  match dependencies with
  | _ :: _ =>
      Ok (map (λ dependency, dependency.1 +:+ " >> " +:+ dependency.2) dependencies)
  | [] =>
      (* If no dependencies found, chain tasks in order *)
      if (1 <? length tasks)%nat
      then
        task_names ← mapM (λ task,
                        name ← dict_subscript task "name";
                        name ← str_receiver "lower" name;
                        Ok (sanitize_task_name name)) tasks;
        Ok (map (λ pair, pair.1 +:+ " >> " +:+ pair.2) (consecutive task_names))
      else Ok []
  end.

(** graphviz.py: the lines [to_mermaid] and [to_graphviz_dot] add for the
    edges. [tasks[i]['name']] is read for the tasks of a pair only, and a
    name that is not a string is not modelled. *)
Definition sequential_lines (line : string → string → string)
    (tasks : list pydict) : outcome (list string) :=
  mapM (λ pair : pydict * pydict,
      source ← dict_subscript pair.1 "name";
      source ← as_str source;
      target ← dict_subscript pair.2 "name";
      target ← as_str target;
      Ok (line source target)) (consecutive tasks).

Definition mermaid_edge_lines (tasks : list pydict) : outcome (list string) :=
  edges ← _derive_mermaid_edges tasks;
  match edges with
  | _ :: _ =>
      Ok ("    %% Dependencies" ::
          map (λ edge : string * string * string,
                 let source_id := _sanitize_mermaid_id edge.1.1 in
                 let target_id := _sanitize_mermaid_id edge.1.2 in
                 if String.eqb edge.2 ""
                 then "    " +:+ source_id +:+ " --> " +:+ target_id
                 else "    " +:+ source_id +:+ " -.->|" +:+ edge.2 +:+ "| " +:+ target_id)
            edges)
  | [] =>
      lines ← sequential_lines (λ source target,
                 "    " +:+ _sanitize_mermaid_id source +:+ " --> " +:+
                 _sanitize_mermaid_id target) tasks;
      Ok ("    %% Sequential flow (no dependencies detected)" :: lines)
  end.

(** The double quote around the labels of DOT. *)
Definition double_quote : string := String (ascii_of_nat 34) EmptyString.

Definition dot_edge_lines (tasks : list pydict) : outcome (list string) :=
  edges ← _derive_mermaid_edges tasks;
  match edges with
  | _ :: _ =>
      Ok (map (λ edge : string * string * string,
                 let source_id := _sanitize_dot_id edge.1.1 in
                 let target_id := _sanitize_dot_id edge.1.2 in
                 if String.eqb edge.2 ""
                 then "    " +:+ source_id +:+ " -> " +:+ target_id +:+ ";"
                 else "    " +:+ source_id +:+ " -> " +:+ target_id +:+
                      " [label=" +:+ double_quote +:+ edge.2 +:+ double_quote +:+ "];")
            edges)
  | [] =>
      sequential_lines (λ source target,
        "    " +:+ _sanitize_dot_id source +:+ " -> " +:+
        _sanitize_dot_id target +:+ ";") tasks
  end.

(** Two tasks without a dataset in common. *)
Definition task_report : TaskSpec.t :=
  TaskSpec.mk "report" "Exporter" [] [] [] [] None None None None None.

(** * Properties *)

(** ** Helpers on dicts and on loops that can raise *)

Lemma dict_lookup_set (k k' : string) (v : pyval) (d : pydict) :
  dict_lookup k' (dict_set k v d) =
  if String.eqb k' k then Some v else dict_lookup k' d.
Proof.
  induction d as [|[k0 v0] d IH]; simpl.
  - by destruct (String.eqb k' k).
  - destruct (String.eqb k k0) eqn:E; simpl.
    + apply String.eqb_eq in E as ->.
      by destruct (String.eqb k' k0).
    + destruct (String.eqb k' k0) eqn:E'.
      * apply String.eqb_eq in E' as ->.
        rewrite String.eqb_sym in E. by rewrite E.
      * by rewrite IH.
Qed.

Lemma mapM_ok_map {A B} (f : A → outcome B) (g : A → B) (l : list A) :
  (∀ x, x ∈ l → f x = Ok (g x)) → mapM f l = Ok (map g l).
Proof.
  induction l as [|x l IH]; intros H; simpl; [done|].
  rewrite (H x) by left. simpl.
  rewrite IH; [done|]. intros y Hy. apply H. by right.
Qed.

Lemma as_opt_str_encode (o : option string) : as_opt_str (of_opt_str o) = Ok o.
Proof. by destruct o. Qed.

(** ** The dependency graph of the registry *)

Lemma elem_of_appended_edges (ts : list TaskSpec.t) (a b : string) :
  (a, b) ∈ FlowRegistry.appended_edges ts ↔
  ∃ i j task_a task_b output input_ds,
    (i < j)%nat ∧ ts !! i = Some task_a ∧ ts !! j = Some task_b ∧
    output ∈ TaskSpec.outputs task_a ∧ input_ds ∈ TaskSpec.inputs task_b ∧
    FlowRegistry.same_dataset output input_ds = true ∧
    a = TaskSpec.name task_a ∧ b = TaskSpec.name task_b.
Proof.
  unfold FlowRegistry.appended_edges. split.
  - intros H.
    apply list_elem_of_join in H as (row & Hab & Hrow).
    apply elem_of_lookup_imap in Hrow as (i & task_a & -> & Hi).
    apply list_elem_of_join in Hab as (cell & Hab & Hcell).
    apply elem_of_lookup_imap in Hcell as (j & task_b & -> & Hj).
    case_bool_decide as Hij; [by apply elem_of_nil in Hab|].
    apply list_elem_of_bind in Hab as (output & Hab & Hout).
    apply list_elem_of_bind in Hab as (input_ds & Hab & Hin).
    destruct (FlowRegistry.same_dataset output input_ds) eqn:Hsame;
      [|by apply elem_of_nil in Hab].
    apply list_elem_of_singleton in Hab. inversion Hab; subst.
    exists i, j, task_a, task_b, output, input_ds.
    repeat split; try done. lia.
  - intros (i & j & task_a & task_b & output & input_ds &
            Hij & Hi & Hj & Hout & Hin & Hsame & -> & ->).
    apply list_elem_of_join. eexists. split; last first.
    { apply elem_of_lookup_imap. exists i, task_a. split; [reflexivity|done]. }
    apply list_elem_of_join. eexists. split; last first.
    { apply elem_of_lookup_imap. exists j, task_b. split; [reflexivity|done]. }
    rewrite bool_decide_eq_false_2 by lia.
    apply list_elem_of_bind. exists output. split; [|done].
    apply list_elem_of_bind. exists input_ds. split; [|done].
    rewrite Hsame. by apply list_elem_of_singleton.
Qed.

Lemma same_dataset_equal_identity (output input_ds : pydict) :
  FlowRegistry.same_dataset output input_ds = true ↔
  equal_identity (dataset_identity output) (dataset_identity input_ds).
Proof.
  unfold FlowRegistry.same_dataset, equal_identity, dataset_identity. cbn.
  by rewrite andb_true_iff.
Qed.

Lemma equal_identity_of_refs (o d : DatasetRef.t) :
  equal_identity (dataset_identity (DatasetRef.to_dict o))
                 (dataset_identity (DatasetRef.to_dict d)) ↔
  DatasetRef.namespace o = DatasetRef.namespace d ∧
  DatasetRef.name o = DatasetRef.name d.
Proof.
  unfold equal_identity, dataset_identity, DatasetRef.to_dict. cbn.
  by rewrite !String.eqb_eq.
Qed.

(** C1. [derive_edges] returns, without repetition, exactly the pairs
    (task_i.name, task_j.name) over positions i < j such that an output of
    task_i and an input of task_j have equal (namespace, name): the values
    under "namespace" are equal and so are the values under "name". For
    the records [DatasetRef.to_dict] makes this is the equality of the
    two namespace strings and of the two name strings, whatever the
    facets. With tasks [A(out=X); B(in=X)] the edge (A, B) is returned,
    with [B(in=X); A(out=X)] nothing is; an input under another namespace
    gives no edge, an input with other facets gives the edge. *)
Theorem derive_edges_forward_pairs (r : FlowRegistry.t) :
  NoDup (FlowRegistry.derive_edges r) ∧
  (∀ a b : string,
     (a, b) ∈ FlowRegistry.derive_edges r ↔
     ∃ i j task_i task_j output input_ds,
       (i < j)%nat ∧
       FlowRegistry.tasks r !! i = Some task_i ∧
       FlowRegistry.tasks r !! j = Some task_j ∧
       output ∈ TaskSpec.outputs task_i ∧
       input_ds ∈ TaskSpec.inputs task_j ∧
       equal_identity (dataset_identity output) (dataset_identity input_ds) ∧
       a = TaskSpec.name task_i ∧ b = TaskSpec.name task_j) ∧
  (∀ o d : DatasetRef.t,
     equal_identity (dataset_identity (DatasetRef.to_dict o))
                    (dataset_identity (DatasetRef.to_dict d)) ↔
     DatasetRef.namespace o = DatasetRef.namespace d ∧
     DatasetRef.name o = DatasetRef.name d) ∧
  FlowRegistry.derive_edges (registry_of [task_A_out_X; task_B_in_X]) = [("A", "B")] ∧
  FlowRegistry.derive_edges (registry_of [task_B_in_X; task_A_out_X]) = [] ∧
  FlowRegistry.derive_edges (registry_of [task_A_out_X; task_B_in ds_X_elsewhere]) = [] ∧
  FlowRegistry.derive_edges (registry_of [task_A_out_X; task_B_in ds_X_described]) =
    [("A", "B")].
Proof.
  split; [unfold FlowRegistry.derive_edges; apply NoDup_elements|].
  split; [|split; [apply equal_identity_of_refs|by split_and!; vm_compute]].
  intros a b. unfold FlowRegistry.derive_edges.
  rewrite elem_of_elements, elem_of_list_to_set, elem_of_appended_edges.
  split.
  - intros (i & j & ti & tj & o & d & Hij & Hi & Hj & Ho & Hd & Hsame & -> & ->).
    exists i, j, ti, tj, o, d. split_and!; try done.
    by apply same_dataset_equal_identity.
  - intros (i & j & ti & tj & o & d & Hij & Hi & Hj & Ho & Hd & Hsame & -> & ->).
    exists i, j, ti, tj, o, d. split_and!; try done.
    by apply same_dataset_equal_identity.
Qed.

(** C2. Two tasks of the same name at different positions are paired like
    any other two: with tasks [A(out=X); A(in=X)], [derive_edges] returns
    the edge (A, A). *)
Theorem derive_edges_repeated_name_self_edge :
  FlowRegistry.derive_edges (registry_of [task_A_out_X; task_A_in_X]) = [("A", "A")].
Proof. by vm_compute. Qed.

(** ** Serialization *)

Lemma mapM_ok_decode {A B} (f : B → outcome A) (h : A → B) (l : list A) :
  (∀ x, f (h x) = Ok x) → mapM f (map h l) = Ok l.
Proof.
  intros H. induction l as [|x l IH]; simpl; [done|].
  rewrite H. simpl. by rewrite IH.
Qed.

(** What [from_dict] stores for a task that [TaskSpec.to_dict] wrote. *)
Lemma task_arguments_to_dict (task : TaskSpec.t) :
  FlowRegistry.task_arguments (PDict (TaskSpec.to_dict task)) =
  Ok (map snd (TaskSpec.to_dict task)).
Proof. reflexivity. Qed.

Lemma task_of_arguments_to_dict (task : TaskSpec.t) :
  FlowRegistry.task_of_arguments (map snd (TaskSpec.to_dict task)) = Ok task.
Proof.
  destruct task as [n c i o k t s f st r p]. simpl.
  rewrite !(mapM_ok_decode as_dict PDict) by done. simpl.
  by destruct s, f, st, r, p.
Qed.

Lemma from_dict_ignores_key (k : string) (v : pyval) (data : pydict) :
  k ∉ ["flow"; "run_id"; "started_at"; "finished_at"; "status"; "tasks"] →
  FlowRegistry.from_dict (dict_set k v data) = FlowRegistry.from_dict data.
Proof.
  intros Hk.
  assert (∀ k', k' ∈ ["flow"; "run_id"; "started_at"; "finished_at"; "status"; "tasks"] →
                dict_lookup k' (dict_set k v data) = dict_lookup k' data) as Hl.
  { intros k' Hk'. rewrite dict_lookup_set.
    destruct (String.eqb k' k) eqn:E; [|done].
    apply String.eqb_eq in E. by subst. }
  unfold FlowRegistry.from_dict, dict_subscript, dict_get.
  rewrite !Hl by (by apply (bool_decide_unpack _); vm_compute). reflexivity.
Qed.

Lemma from_dict_to_dict (r : FlowRegistry.t) :
  FlowRegistry.from_dict (FlowRegistry.to_dict r) =
  Ok (FlowRegistry.set_task_stack [] r).
Proof.
  destruct r as [n rid ts sa fa st stack].
  unfold FlowRegistry.from_dict, FlowRegistry.to_dict, FlowRegistry.set_task_stack,
    dict_subscript, dict_get.
  simpl.
  rewrite <- (map_map (λ task, TaskSpec.to_dict task) PDict).
  rewrite (mapM_ok_map FlowRegistry.task_arguments
             (λ v, match v with PDict d => map snd d | _ => [] end)).
  2:{ intros x Hx. apply list_elem_of_fmap in Hx as (d & -> & Hd).
      apply list_elem_of_fmap in Hd as (task & -> & _).
      apply task_arguments_to_dict. }
  simpl. rewrite !as_opt_str_encode. simpl.
  rewrite !map_map.
  rewrite (mapM_ok_decode FlowRegistry.task_of_arguments
             (λ task, map snd (TaskSpec.to_dict task)) ts task_of_arguments_to_dict).
  reflexivity.
Qed.

(** C3. Loading what [to_dict] wrote gives back every field of every
    task; the edges and the parallelizable map computed from the loaded
    registry are those of the original, the loaded registry serializes to
    the same document, and whatever stands under "edges" and
    "parallelizable" in the document is not read. *)
Theorem flowspec_round_trip (r : FlowRegistry.t) :
  ∃ r' : FlowRegistry.t,
    FlowRegistry.from_dict (FlowRegistry.to_dict r) = Ok r' ∧
    FlowRegistry.tasks r' = FlowRegistry.tasks r ∧
    FlowRegistry.derive_edges r' = FlowRegistry.derive_edges r ∧
    FlowRegistry.get_parallelizable_tasks r' = FlowRegistry.get_parallelizable_tasks r ∧
    FlowRegistry.to_dict r' = FlowRegistry.to_dict r ∧
    ∀ stale_edges stale_parallelizable : pyval,
      FlowRegistry.from_dict
        (dict_set "parallelizable" stale_parallelizable
           (dict_set "edges" stale_edges (FlowRegistry.to_dict r))) = Ok r'.
Proof.
  exists (FlowRegistry.set_task_stack [] r).
  split; [apply from_dict_to_dict|].
  repeat split; try by destruct r.
  intros se sp.
  rewrite !from_dict_ignores_key by (by apply (bool_decide_unpack _); vm_compute).
  apply from_dict_to_dict.
Qed.

(** A document with neither "status" nor "tasks" loads. *)
Lemma from_dict_defaults_status_and_tasks :
  FlowRegistry.from_dict [("flow", PStr "p"); ("run_id", PStr "run-1")] =
  Ok (FlowRegistry.mk "p" "run-1" [] None None "COMPLETED" []).
Proof. reflexivity. Qed.

(** C8, as the code has it. A document without "flow", or with "flow" and
    without "run_id", raises KeyError when loaded; a document without
    "status" loads as the same document with status "COMPLETED", and one
    without "tasks" as the same document with an empty task list. *)
Theorem from_dict_missing_keys (data : pydict) :
  (dict_lookup "flow" data = None →
   FlowRegistry.from_dict data = Raise (KeyError "flow")) ∧
  (is_Some (dict_lookup "flow" data) → dict_lookup "run_id" data = None →
   FlowRegistry.from_dict data = Raise (KeyError "run_id")) ∧
  (dict_lookup "status" data = None →
   FlowRegistry.from_dict data =
   FlowRegistry.from_dict (dict_set "status" (PStr "COMPLETED") data)) ∧
  (dict_lookup "tasks" data = None →
   FlowRegistry.from_dict data =
   FlowRegistry.from_dict (dict_set "tasks" (PList []) data)).
Proof.
  unfold FlowRegistry.from_dict, dict_subscript, dict_get.
  repeat split.
  - by intros ->.
  - intros [v ->] ->. reflexivity.
  - intros H. rewrite !dict_lookup_set. simpl. by rewrite H.
  - intros H. rewrite !dict_lookup_set. simpl. by rewrite H.
Qed.

Lemma from_dict_missing_keys_witness :
  FlowRegistry.from_dict [("run_id", PStr "run-1")] = Raise (KeyError "flow") ∧
  FlowRegistry.from_dict [("flow", PStr "p")] = Raise (KeyError "run_id") ∧
  FlowRegistry.from_dict [("flow", PStr "p"); ("run_id", PStr "run-1")] =
  FlowRegistry.from_dict
    (dict_set "status" (PStr "COMPLETED") [("flow", PStr "p"); ("run_id", PStr "run-1")]) ∧
  FlowRegistry.from_dict [("flow", PStr "p"); ("run_id", PStr "run-1")] =
  FlowRegistry.from_dict
    (dict_set "tasks" (PList []) [("flow", PStr "p"); ("run_id", PStr "run-1")]).
Proof.
  split; [|split; [|split]].
  - apply (proj1 (from_dict_missing_keys [("run_id", PStr "run-1")])).
    reflexivity.
  - apply (proj1 (proj2 (from_dict_missing_keys [("flow", PStr "p")]))).
    + simpl. eexists. reflexivity.
    + reflexivity.
  - apply (proj1 (proj2 (proj2 (from_dict_missing_keys
             [("flow", PStr "p"); ("run_id", PStr "run-1")])))).
    reflexivity.
  - apply (proj2 (proj2 (proj2 (from_dict_missing_keys
             [("flow", PStr "p"); ("run_id", PStr "run-1")])))).
    reflexivity.
Defined.

(** ** Name sanitization *)

Lemma chars_str (s : list ascii) : chars (str s) = s.
Proof. apply list_ascii_of_string_of_list_ascii. Qed.

Lemma no_underscore_run_cons (c : ascii) (r : list ascii) :
  no_underscore_run (c :: r) =
  match head r with
  | Some c' => negb (Ascii.eqb c "_" && Ascii.eqb c' "_")
  | None => true
  end && no_underscore_run r.
Proof. by destruct r. Qed.

Lemma no_underscore_run_tail (c : ascii) (r : list ascii) :
  no_underscore_run (c :: r) = true → no_underscore_run r = true.
Proof. rewrite no_underscore_run_cons. by intros [_ ?]%andb_true_iff. Qed.

Lemma head_sub_underscores (s : list ascii) : head (sub_underscores s) = head s.
Proof.
  induction s as [|c s IH]; [done|]. simpl.
  destruct (Ascii.eqb c "_") eqn:Ec; [|done].
  destruct s as [|c' s']; [done|].
  destruct (Ascii.eqb c' "_") eqn:Ec'; [|done].
  rewrite IH. simpl.
  apply Ascii.eqb_eq in Ec, Ec'. by subst.
Qed.

Lemma no_underscore_run_sub_underscores (s : list ascii) :
  no_underscore_run (sub_underscores s) = true.
Proof.
  induction s as [|c s IH]; [done|]. simpl.
  destruct (Ascii.eqb c "_") eqn:Ec.
  - destruct s as [|c' s']; [done|].
    destruct (Ascii.eqb c' "_") eqn:Ec'; [done|].
    rewrite no_underscore_run_cons, head_sub_underscores, IH. simpl.
    by rewrite Ec'; destruct (Ascii.eqb c "_").
  - rewrite no_underscore_run_cons, IH, Ec.
    by destruct (head (sub_underscores s)).
Qed.

Lemma sub_underscores_fixed (s : list ascii) :
  no_underscore_run s = true → sub_underscores s = s.
Proof.
  induction s as [|c s IH]; [done|]. intros H.
  pose proof (no_underscore_run_tail _ _ H) as Ht.
  simpl. destruct s as [|c' s'].
  - by destruct (Ascii.eqb c "_").
  - rewrite (IH Ht). simpl in H.
    destruct (Ascii.eqb c "_"); [|done].
    by destruct (Ascii.eqb c' "_").
Qed.

Lemma Forall_sub_underscores (P : ascii → Prop) (s : list ascii) :
  Forall P s → Forall P (sub_underscores s).
Proof.
  induction 1 as [|c s Hc Hs IH]; [constructor|]. simpl.
  destruct (Ascii.eqb c "_"); [|by constructor].
  destruct s as [|c' s']; [by constructor|].
  destruct (Ascii.eqb c' "_"); [done|by constructor].
Qed.

Lemma Forall_lstrip (P : ascii → Prop) (s : list ascii) :
  Forall P s → Forall P (lstrip s).
Proof.
  induction 1 as [|c s Hc Hs IH]; [constructor|]. simpl.
  destruct (Ascii.eqb c "_"); [done|by constructor].
Qed.

Lemma Forall_rstrip (P : ascii → Prop) (s : list ascii) :
  Forall P s → Forall P (rstrip s).
Proof.
  induction 1 as [|c s Hc Hs IH]; [constructor|]. simpl.
  destruct (rstrip s) as [|c' r].
  - destruct (Ascii.eqb c "_"); by repeat constructor.
  - by constructor.
Qed.

Lemma head_lstrip (s : list ascii) (c : ascii) :
  head (lstrip s) = Some c → Ascii.eqb c "_" = false.
Proof.
  induction s as [|c0 s IH]; [done|]. simpl.
  destruct (Ascii.eqb c0 "_") eqn:E; [done|].
  simpl. intros [= <-]. done.
Qed.

Lemma no_underscore_run_lstrip (s : list ascii) :
  no_underscore_run s = true → no_underscore_run (lstrip s) = true.
Proof.
  induction s as [|c s IH]; [done|]. intros H. simpl.
  destruct (Ascii.eqb c "_"); [|done].
  apply IH. by eapply no_underscore_run_tail.
Qed.

Lemma head_rstrip (s : list ascii) :
  rstrip s ≠ [] → head (rstrip s) = head s.
Proof.
  destruct s as [|c s]; [done|]. simpl.
  destruct (rstrip s); [|done].
  by destruct (Ascii.eqb c "_").
Qed.

Lemma no_underscore_run_rstrip (s : list ascii) :
  no_underscore_run s = true → no_underscore_run (rstrip s) = true.
Proof.
  induction s as [|c s IH]; [done|]. intros H.
  pose proof (IH (no_underscore_run_tail _ _ H)) as IH'.
  simpl. destruct (rstrip s) as [|c' r] eqn:Er.
  - by destruct (Ascii.eqb c "_").
  - rewrite no_underscore_run_cons, IH'.
    rewrite no_underscore_run_cons in H.
    assert (head (c' :: r) = head s) as Hh.
    { rewrite <- Er. apply head_rstrip. by rewrite Er. }
    rewrite Hh. by apply andb_true_iff in H as [-> _].
Qed.

Lemma last_rstrip (s : list ascii) (c : ascii) :
  last (rstrip s) = Some c → Ascii.eqb c "_" = false.
Proof.
  induction s as [|c0 s IH]; [done|]. simpl.
  destruct (rstrip s) as [|c' r] eqn:Er.
  - destruct (Ascii.eqb c0 "_") eqn:E; [done|].
    simpl. by intros [= <-].
  - rewrite last_cons. destruct (last (c' :: r)) eqn:El.
    + intros [= <-]. by apply IH.
    + by apply last_None in El.
Qed.

Lemma rstrip_fixed (s : list ascii) :
  match last s with
  | Some c => Ascii.eqb c "_" = false
  | None => True
  end → rstrip s = s.
Proof.
  induction s as [|c s IH]; [done|]. rewrite last_cons. simpl.
  destruct (last s) as [c'|] eqn:El.
  - intros H. rewrite (IH H). destruct s; [done|done].
  - apply last_None in El as ->. simpl. by intros ->.
Qed.

Lemma trimmed_strip (s : list ascii) : trimmed (strip s) = true.
Proof.
  unfold trimmed, strip. apply andb_true_iff. split.
  - destruct (rstrip (lstrip s)) as [|c r] eqn:Er; [done|].
    assert (head (rstrip (lstrip s)) = head (lstrip s)) as Hh
      by (apply head_rstrip; by rewrite Er).
    rewrite Er in Hh. simpl in Hh. symmetry in Hh.
    by rewrite (head_lstrip _ _ Hh).
  - destruct (last (rstrip (lstrip s))) as [c|] eqn:El; [|done].
    by rewrite (last_rstrip _ _ El).
Qed.

Lemma strip_fixed (s : list ascii) : trimmed s = true → strip s = s.
Proof.
  unfold trimmed, strip. intros [Hh Hl]%andb_true_iff.
  assert (lstrip s = s) as ->.
  { destruct s as [|c s]; [done|]. simpl.
    by destruct (Ascii.eqb c "_"). }
  apply rstrip_fixed. destruct (last s); [|done].
  by destruct (Ascii.eqb a "_").
Qed.

Lemma sub_nonword_lower (s : list ascii) :
  sub_nonword (lower s) = map lower_word_or_underscore s.
Proof. unfold sub_nonword, lower. by rewrite map_map. Qed.

Ltac each_char c := destruct c as [[] [] [] [] [] [] [] []].

Lemma word_or_underscore_idem (c : ascii) :
  word_or_underscore (word_or_underscore c) = word_or_underscore c.
Proof.
  unfold word_or_underscore. destruct (is_word_char c) eqn:E; [by rewrite E|done].
Qed.

Lemma word_or_underscore_word (c : ascii) : is_word_char (word_or_underscore c) = true.
Proof. unfold word_or_underscore. by destruct (is_word_char c) eqn:E. Qed.

Lemma lower_word_or_underscore_idem (c : ascii) :
  lower_word_or_underscore (lower_word_or_underscore c) = lower_word_or_underscore c.
Proof. each_char c; by vm_compute. Qed.

Lemma lower_word_or_underscore_word (c : ascii) :
  is_word_char (lower_word_or_underscore c) = true.
Proof. apply word_or_underscore_word. Qed.

Lemma isdigit_not_underscore (c : ascii) : isdigit c = true → Ascii.eqb c "_" = false.
Proof. each_char c; by vm_compute. Qed.

Lemma no_underscore_run_app (p x : list ascii) :
  no_underscore_run p = true → no_underscore_run x = true →
  match head x with
  | Some c => Ascii.eqb c "_" = false
  | None => True
  end →
  no_underscore_run (p ++ x) = true.
Proof.
  intros Hp Hx Hh. induction p as [|c p IH]; [done|].
  rewrite <- app_comm_cons, no_underscore_run_cons.
  rewrite no_underscore_run_cons in Hp.
  apply andb_true_iff in Hp as [Hc Hp]. rewrite (IH Hp), andb_true_r.
  destruct p as [|c' p']; [|done]. simpl.
  destruct (head x); [|done]. rewrite Hh. by rewrite andb_false_r.
Qed.

Section Cleaning.

Variable f : ascii → ascii.
Hypothesis f_idem : ∀ c, f (f c) = f c.
Hypothesis f_word : ∀ c, is_word_char (f c) = true.

Lemma tidy_clean (s : list ascii) : tidy f (strip (sub_underscores (map f s))).
Proof.
  split; [|split].
  - apply Forall_rstrip, Forall_lstrip, Forall_sub_underscores.
    apply Forall_fmap, Forall_true. intros c. apply f_idem.
  - apply no_underscore_run_rstrip, no_underscore_run_lstrip,
      no_underscore_run_sub_underscores.
  - apply trimmed_strip.
Qed.

Lemma clean_fixed (s : list ascii) :
  tidy f s → strip (sub_underscores (map f s)) = s.
Proof.
  intros (Hf & Hr & Ht).
  assert (map f s = s) as ->.
  { clear Hr Ht. induction Hf as [|c s Hc Hs IH]; [done|]. simpl. by rewrite Hc, IH. }
  rewrite (sub_underscores_fixed _ Hr). by apply strip_fixed.
Qed.

Lemma tidy_word (s : list ascii) : tidy f s → forallb is_word_char s = true.
Proof.
  intros (Hf & _ & _). apply forallb_forall. intros c Hc.
  rewrite Forall_forall in Hf.
  rewrite <- (Hf c) by (by apply list_elem_of_In). apply f_word.
Qed.

Variables prefix fallback : list ascii.
Hypothesis prefix_good : prefix_ok f prefix = true.
Hypothesis fallback_good : fallback_ok f fallback = true.

(** The last two lines: the prefix before a digit, the fallback for the
    empty string. *)
Let finish (s : list ascii) : list ascii :=
  or_else (if starts_with_digit s then prefix ++ s else s) fallback.

Lemma finish_tidy (s : list ascii) :
  tidy f s →
  tidy f (finish s) ∧ finish s ≠ [] ∧ starts_with_digit (finish s) = false.
Proof.
  intros Hs. unfold finish.
  unfold prefix_ok in prefix_good. unfold fallback_ok in fallback_good.
  apply andb_true_iff in prefix_good as [[Hpf Hpr]%andb_true_iff Hph].
  apply andb_true_iff in fallback_good as [Hfb Hfn].
  apply andb_true_iff in Hfb as [Hfb Hfd].
  apply andb_true_iff in Hfb as [[Hff Hfr]%andb_true_iff Hft].
  destruct s as [|c s].
  - simpl. destruct fallback as [|c0 fb]; [done|]. simpl.
    split; [|split; [done|by apply negb_true_iff in Hfd]].
    split; [|done].
    apply Forall_forall. intros c Hc.
    rewrite forallb_forall in Hff. by apply Ascii.eqb_eq, Hff, list_elem_of_In.
  - simpl. destruct (isdigit c) eqn:Ed.
    + destruct prefix as [|p0 pre] eqn:Ep; [done|].
      apply andb_true_iff in Hph as [Hp0 Hp0d].
      rewrite <- app_comm_cons. simpl.
      split; [|split; [done|by apply negb_true_iff in Hp0d]].
      destruct Hs as (Hf & Hr & Ht).
      split; [|split].
      * rewrite app_comm_cons. apply Forall_app. split; [|done].
        apply Forall_forall. intros c' Hc'.
        rewrite forallb_forall in Hpf. by apply Ascii.eqb_eq, Hpf, list_elem_of_In.
      * rewrite app_comm_cons. apply no_underscore_run_app; [done|done|].
        simpl. by apply isdigit_not_underscore.
      * unfold trimmed in *. rewrite Hp0. simpl.
        rewrite app_comm_cons, last_app.
        apply andb_true_iff in Ht as [_ Hl].
        destruct (last (c :: s)) eqn:El; [done|].
        by apply last_None in El.
    + split; [done|]. split; [done|]. simpl. done.
Qed.

Lemma finish_fixed (s : list ascii) :
  s ≠ [] → starts_with_digit s = false → finish s = s.
Proof.
  intros Hne Hd. unfold finish. rewrite Hd. by destruct s.
Qed.

End Cleaning.

Lemma prefixed_pipeline (f : ascii → ascii) (prefix fallback s : list ascii) :
  (∀ c, f (f c) = f c) → (∀ c, is_word_char (f c) = true) →
  prefix_ok f prefix = true → fallback_ok f fallback = true →
  let pipeline (s : list ascii) :=
    let x := strip (sub_underscores (map f s)) in
    or_else (if starts_with_digit x then prefix ++ x else x) fallback in
  pipeline (pipeline s) = pipeline s ∧
  tidy f (pipeline s) ∧ pipeline s ≠ [] ∧ starts_with_digit (pipeline s) = false.
Proof.
  intros Hidem Hword Hp Hfb pipeline.
  destruct (finish_tidy f prefix fallback Hp Hfb _ (tidy_clean f Hidem s))
    as (Ht & Hne & Hd).
  split; [|done].
  unfold pipeline at 1. fold (pipeline s).
  rewrite (clean_fixed f (pipeline s) Ht).
  by apply (finish_fixed prefix fallback).
Qed.

Lemma identifier_of_tidy (f : ascii → ascii) (r : list ascii) :
  (∀ c, is_word_char (f c) = true) →
  tidy f r → r ≠ [] → starts_with_digit r = false →
  is_identifier (str r) = true.
Proof.
  intros Hword Ht Hne Hd. unfold is_identifier. rewrite chars_str.
  destruct r as [|c r]; [done|].
  simpl in Hd. rewrite Hd. simpl.
  by apply (tidy_word f Hword (c :: r)).
Qed.

Lemma prefixed_sanitizer (prefix fallback : list ascii) (name : string) :
  prefix_ok lower_word_or_underscore prefix = true →
  fallback_ok lower_word_or_underscore fallback = true →
  let sanitize (name : string) :=
    let x := strip (sub_underscores (sub_nonword (lower (chars name)))) in
    str (or_else (if starts_with_digit x then prefix ++ x else x) fallback) in
  sanitize (sanitize name) = sanitize name ∧
  is_identifier (sanitize name) = true ∧
  no_underscore_run (chars (sanitize name)) = true ∧
  trimmed (chars (sanitize name)) = true.
Proof.
  intros Hp Hfb sanitize. unfold sanitize.
  rewrite !chars_str, !sub_nonword_lower.
  destruct (prefixed_pipeline lower_word_or_underscore prefix fallback (chars name)
              lower_word_or_underscore_idem lower_word_or_underscore_word Hp Hfb)
    as (Hi & Ht & Hne & Hd).
  simpl in Hi. split; [by rewrite Hi|].
  split; [by eapply identifier_of_tidy; eauto using lower_word_or_underscore_word|].
  by destruct Ht as (_ & ? & ?).
Qed.

Lemma sanitize_mermaid_id_properties (name : string) :
  _sanitize_mermaid_id (_sanitize_mermaid_id name) = _sanitize_mermaid_id name ∧
  chars (_sanitize_mermaid_id name) ≠ [] ∧
  forallb is_word_char (chars (_sanitize_mermaid_id name)) = true ∧
  no_underscore_run (chars (_sanitize_mermaid_id name)) = true ∧
  trimmed (chars (_sanitize_mermaid_id name)) = true.
Proof.
  unfold _sanitize_mermaid_id, sub_nonword. rewrite !chars_str.
  pose proof (tidy_clean word_or_underscore word_or_underscore_idem (chars name)) as Ht.
  destruct (strip (sub_underscores (map word_or_underscore (chars name))))
    as [|c r].
  - by vm_compute.
  - change (or_else (c :: r) (chars "node")) with (c :: r).
    rewrite (clean_fixed word_or_underscore (c :: r) Ht).
    split; [done|]. split; [done|].
    split; [by apply (tidy_word word_or_underscore word_or_underscore_word (c :: r))|].
    by destruct Ht as (_ & ? & ?).
Qed.

Lemma sanitize_dot_id_properties (name : string) :
  _sanitize_dot_id (_sanitize_dot_id name) = _sanitize_dot_id name ∧
  is_identifier (_sanitize_dot_id name) = true.
Proof.
  unfold _sanitize_dot_id, is_identifier, sub_nonword. rewrite !chars_str.
  assert (∀ r, map word_or_underscore (map word_or_underscore r) =
               map word_or_underscore r) as Hmm.
  { intros r. rewrite map_map. apply map_ext. intros. apply word_or_underscore_idem. }
  assert (∀ r, forallb is_word_char (map word_or_underscore r) = true) as Hw.
  { intros r. apply forallb_forall. intros c Hc.
    apply in_map_iff in Hc as (c0 & <- & _). apply word_or_underscore_word. }
  specialize (Hw (chars name)). specialize (Hmm (chars name)).
  destruct (map word_or_underscore (chars name)) as [|c x].
  - by vm_compute.
  - cbn [starts_with_digit]. destruct (isdigit c) eqn:Ed.
    + change (or_else (chars "n_" ++ c :: x) (chars "node"))
        with ("n"%char :: "_"%char :: c :: x).
      change (map word_or_underscore ("n"%char :: "_"%char :: c :: x))
        with ("n"%char :: "_"%char :: map word_or_underscore (c :: x)).
      rewrite Hmm. cbn [starts_with_digit]. split; [done|].
      cbn [forallb] in Hw |- *. rewrite Hw. by vm_compute.
    + change (or_else (c :: x) (chars "node")) with (c :: x).
      rewrite Hmm. cbn [starts_with_digit]. rewrite Ed.
      change (or_else (c :: x) (chars "node")) with (c :: x).
      split; [done|]. by rewrite Hw.
Qed.

(** The identifier [_sanitize_mermaid_id] makes of "1" starts with a digit,
    and [_sanitize_dot_id] keeps a run of underscores. *)
Lemma sanitize_mermaid_id_keeps_leading_digit :
  _sanitize_mermaid_id "1" = "1" ∧
  is_identifier (_sanitize_mermaid_id "1") = false ∧
  _sanitize_dot_id "a  b" = "a__b" ∧
  no_underscore_run (chars (_sanitize_dot_id "a  b")) = false.
Proof. by vm_compute. Qed.

(** C9, as the code has it. Each sanitizer is total and idempotent and
    returns a non-empty string over [a-zA-Z0-9_]. [sanitize_task_name],
    [sanitize_function_name] and [sanitize_asset_name] return a bare
    identifier without a run of underscores and without an underscore at
    either end; [_sanitize_dot_id] returns a bare identifier;
    [_sanitize_mermaid_id] returns a string without a run of underscores
    and without an underscore at either end, which no prefix keeps from
    starting with a digit. *)
Theorem sanitizers_idempotent (s : string) :
  (sanitize_task_name (sanitize_task_name s) = sanitize_task_name s ∧
   is_identifier (sanitize_task_name s) = true ∧
   no_underscore_run (chars (sanitize_task_name s)) = true ∧
   trimmed (chars (sanitize_task_name s)) = true) ∧
  (sanitize_function_name (sanitize_function_name s) = sanitize_function_name s ∧
   is_identifier (sanitize_function_name s) = true ∧
   no_underscore_run (chars (sanitize_function_name s)) = true ∧
   trimmed (chars (sanitize_function_name s)) = true) ∧
  (sanitize_asset_name (sanitize_asset_name s) = sanitize_asset_name s ∧
   is_identifier (sanitize_asset_name s) = true ∧
   no_underscore_run (chars (sanitize_asset_name s)) = true ∧
   trimmed (chars (sanitize_asset_name s)) = true) ∧
  (_sanitize_dot_id (_sanitize_dot_id s) = _sanitize_dot_id s ∧
   is_identifier (_sanitize_dot_id s) = true) ∧
  (_sanitize_mermaid_id (_sanitize_mermaid_id s) = _sanitize_mermaid_id s ∧
   chars (_sanitize_mermaid_id s) ≠ [] ∧
   forallb is_word_char (chars (_sanitize_mermaid_id s)) = true ∧
   no_underscore_run (chars (_sanitize_mermaid_id s)) = true ∧
   trimmed (chars (_sanitize_mermaid_id s)) = true).
Proof.
  split; [|split; [|split; [|split]]].
  - by apply (prefixed_sanitizer (chars "task_") (chars "unknown_task") s).
  - by apply (prefixed_sanitizer (chars "task_") (chars "unknown_task") s).
  - by apply (prefixed_sanitizer (chars "asset_") (chars "unknown_asset") s).
  - apply sanitize_dot_id_properties.
  - apply sanitize_mermaid_id_properties.
Qed.

(** ** The exporters' dependency graph *)

Lemma foldM_ok_map {A B S} (f : S → B → outcome S) (g : S → A → S)
    (h : A → B) (l : list A) (s : S) :
  (∀ s x, x ∈ l → f s (h x) = Ok (g s x)) →
  foldM f s (map h l) = Ok (foldl g s l).
Proof.
  revert s. induction l as [|x l IH]; intros s H; simpl; [done|].
  rewrite (H s x) by left. simpl. apply IH.
  intros s' y Hy. apply H. by right.
Qed.

Lemma foldl_app_bind {A B} (h : A → list B) (l : list A) (acc : list B) :
  foldl (λ acc x, acc ++ h x) acc l = acc ++ (l ≫= h).
Proof.
  revert acc. induction l as [|x l IH]; intros acc; simpl.
  - by rewrite app_nil_r.
  - by rewrite IH, app_assoc.
Qed.

Lemma dataset_key_text (ds : pydict) :
  string_identified ds = true → dataset_key ds = Ok (key_text ds).
Proof.
  unfold string_identified, key_text, dataset_key, dict_get.
  destruct (dict_lookup "namespace" ds) as [[]|]; try done.
  destruct (dict_lookup "name" ds) as [[]|]; done.
Qed.

Lemma name_text_identified (ds : pydict) :
  string_identified ds = true →
  dict_get "name" ds (PStr "") = PStr (name_text ds).
Proof.
  unfold string_identified, name_text, dict_get.
  destruct (dict_lookup "namespace" ds) as [[]|]; try done.
  destruct (dict_lookup "name" ds) as [[]|]; done.
Qed.

Lemma same_dataset_key_text (o d : pydict) :
  string_identified o = true → string_identified d = true →
  FlowRegistry.same_dataset o d = true → key_text o = key_text d.
Proof.
  unfold string_identified, FlowRegistry.same_dataset, key_text, dataset_key, dict_get.
  destruct (dict_lookup "namespace" o) as [[]|]; try done.
  destruct (dict_lookup "name" o) as [[]|]; try done.
  destruct (dict_lookup "namespace" d) as [[]|]; try done.
  destruct (dict_lookup "name" d) as [[]|]; try done.
  simpl. intros _ _ [H1 H2]%andb_true_iff.
  apply String.eqb_eq in H1, H2. by subst.
Qed.

Section ExporterLoops.

Variable ts : list TaskSpec.t.
Hypothesis identified :
  ∀ task ds, task ∈ ts →
    ds ∈ TaskSpec.outputs task ++ TaskSpec.inputs task →
    string_identified ds = true.

Lemma producer_loop_ok (task : TaskSpec.t) (label : string)
    (producers : gmap string string) :
  task ∈ ts →
  foldM (λ (dataset_producers : gmap string string) output,
      output ← as_getable output;
      dataset_key ← dataset_key output;
      Ok (<[dataset_key := label]> dataset_producers))
    producers (map PDict (TaskSpec.outputs task)) =
  Ok (foldl (λ producers output, <[key_text output := label]> producers)
        producers (TaskSpec.outputs task)).
Proof.
  intros Ht. apply foldM_ok_map. intros P o Ho. simpl.
  rewrite dataset_key_text; [done|].
  apply (identified task); [done|]. apply elem_of_app. by left.
Qed.

Lemma mermaid_edges_ok :
  _derive_mermaid_edges (map TaskSpec.to_dict ts) =
  Ok (dependencies_of TaskSpec.name
        (λ upstream task_name input_ds,
           (upstream, task_name, edge_label (name_text input_ds)))
        (producers_of TaskSpec.name ts) ts).
Proof.
  unfold _derive_mermaid_edges.
  rewrite (foldM_ok_map _
    (λ producers task,
       foldl (λ producers output,
                <[key_text output := TaskSpec.name task]> producers)
         producers (TaskSpec.outputs task))).
  2:{ intros P task Ht. simpl. by apply producer_loop_ok. }
  simpl. fold (producers_of TaskSpec.name ts).
  rewrite (foldM_ok_map _
    (λ edges task,
       edges ++
       (input_ds ← TaskSpec.inputs task;
        match producers_of TaskSpec.name ts !! key_text input_ds with
        | Some upstream =>
            if bool_decide (upstream ≠ TaskSpec.name task)
            then [(upstream, TaskSpec.name task, edge_label (name_text input_ds))]
            else []
        | None => []
        end))).
  2:{ intros edges task Ht. simpl.
      rewrite <- foldl_app_bind. apply foldM_ok_map.
      intros acc d Hd. simpl.
      assert (string_identified d = true) as Hid.
      { apply (identified task); [done|]. apply elem_of_app. by right. }
      rewrite dataset_key_text by done. simpl.
      destruct (producers_of TaskSpec.name ts !! key_text d) as [up|];
        [|by rewrite app_nil_r].
      case_bool_decide; [|by rewrite app_nil_r].
      by rewrite name_text_identified. }
  by rewrite foldl_app_bind.
Qed.

Lemma airflow_dependencies_ok :
  derive_task_dependencies (map TaskSpec.to_dict ts) =
  Ok (dependencies_of (λ task, sanitize_task_name (TaskSpec.name task))
        (λ upstream task_name _, (upstream, task_name))
        (producers_of (λ task, sanitize_task_name (TaskSpec.name task)) ts) ts).
Proof.
  unfold derive_task_dependencies.
  rewrite (foldM_ok_map _
    (λ producers task,
       foldl (λ producers output,
                <[key_text output := sanitize_task_name (TaskSpec.name task)]> producers)
         producers (TaskSpec.outputs task))).
  2:{ intros P task Ht. simpl. by apply producer_loop_ok. }
  simpl. fold (producers_of (λ task, sanitize_task_name (TaskSpec.name task)) ts).
  rewrite (foldM_ok_map _
    (λ dependencies task,
       dependencies ++
       (input_ds ← TaskSpec.inputs task;
        match producers_of (λ task, sanitize_task_name (TaskSpec.name task)) ts
                !! key_text input_ds with
        | Some upstream =>
            if bool_decide (upstream ≠ sanitize_task_name (TaskSpec.name task))
            then [(upstream, sanitize_task_name (TaskSpec.name task))]
            else []
        | None => []
        end))).
  2:{ intros deps task Ht. simpl.
      rewrite <- foldl_app_bind. apply foldM_ok_map.
      intros acc d Hd. simpl.
      assert (string_identified d = true) as Hid.
      { apply (identified task); [done|]. apply elem_of_app. by right. }
      rewrite dataset_key_text by done. simpl.
      destruct (producers_of _ ts !! key_text d) as [up|];
        [|by rewrite app_nil_r].
      case_bool_decide; by rewrite ?app_nil_r. }
  by rewrite foldl_app_bind.
Qed.

End ExporterLoops.

Lemma elem_of_outputs_at (ts : list TaskSpec.t) (i : nat) (o : pydict) :
  (i, o) ∈ outputs_at ts ↔ ∃ task, ts !! i = Some task ∧ o ∈ TaskSpec.outputs task.
Proof.
  unfold outputs_at. rewrite list_elem_of_join. split.
  - intros (l & Hio & Hl).
    apply elem_of_lookup_imap in Hl as (j & task & -> & Hj).
    apply list_elem_of_fmap in Hio as (o' & [= -> ->] & Ho). eauto.
  - intros (task & Hi & Ho). eexists. split; last first.
    { apply elem_of_lookup_imap. exists i, task. split; [reflexivity|done]. }
    apply list_elem_of_fmap. eauto.
Qed.

Lemma elem_of_inputs_at (ts : list TaskSpec.t) (i : nat) (d : pydict) :
  (i, d) ∈ inputs_at ts ↔ ∃ task, ts !! i = Some task ∧ d ∈ TaskSpec.inputs task.
Proof.
  unfold inputs_at. rewrite list_elem_of_join. split.
  - intros (l & Hio & Hl).
    apply elem_of_lookup_imap in Hl as (j & task & -> & Hj).
    apply list_elem_of_fmap in Hio as (o' & [= -> ->] & Ho). eauto.
  - intros (task & Hi & Ho). eexists. split; last first.
    { apply elem_of_lookup_imap. exists i, task. split; [reflexivity|done]. }
    apply list_elem_of_fmap. eauto.
Qed.

Lemma insert_keys_lookup (n : string) (outs : list pydict)
    (P : gmap string string) (k : string) :
  foldl (λ producers output, <[key_text output := n]> producers) P outs !! k =
  if bool_decide (k ∈ map key_text outs) then Some n else P !! k.
Proof.
  revert P. induction outs as [|o outs IH]; intros P; simpl.
  - done.
  - rewrite IH. destruct (decide (k ∈ map key_text outs)) as [Hin|Hin].
    + rewrite !bool_decide_eq_true_2; [done| |done]. by right.
    + rewrite (bool_decide_eq_false_2 _ Hin).
      destruct (decide (k = key_text o)) as [->|Hne].
      * rewrite lookup_insert_eq, bool_decide_eq_true_2; [done|]. by left.
      * rewrite lookup_insert_ne by done.
        rewrite bool_decide_eq_false_2; [done|].
        intros [?|?]%elem_of_cons; done.
Qed.

Lemma producers_fold_lookup (label : TaskSpec.t → string)
    (ts : list TaskSpec.t) (P : gmap string string) (k n : string) :
  foldl (λ producers task,
      foldl (λ producers output, <[key_text output := label task]> producers)
        producers (TaskSpec.outputs task)) P ts !! k = Some n →
  P !! k = Some n ∨
  ∃ i task o, ts !! i = Some task ∧ o ∈ TaskSpec.outputs task ∧
              key_text o = k ∧ n = label task.
Proof.
  revert P. induction ts as [|task ts IH]; intros P; simpl; [by left|].
  intros H. apply IH in H as [H|(i & task' & o & Hi & Ho & Hk & Hn)].
  - rewrite insert_keys_lookup in H. case_bool_decide as Hin; [|by left].
    right. apply list_elem_of_fmap in Hin as (o & -> & Ho).
    exists 0, task, o. by simplify_eq.
  - right. exists (S i), task', o. done.
Qed.

Lemma producers_fold_is_Some (label : TaskSpec.t → string)
    (ts : list TaskSpec.t) (P : gmap string string) (k : string) :
  (is_Some (P !! k) ∨
   ∃ i task o, ts !! i = Some task ∧ o ∈ TaskSpec.outputs task ∧ key_text o = k) →
  is_Some (foldl (λ producers task,
      foldl (λ producers output, <[key_text output := label task]> producers)
        producers (TaskSpec.outputs task)) P ts !! k).
Proof.
  revert P. induction ts as [|task ts IH]; intros P; simpl.
  - intros [H|(i & task & o & Hi & _)]; [done|by rewrite lookup_nil in Hi].
  - intros H. apply IH. rewrite insert_keys_lookup.
    destruct H as [H|(i & task' & o & Hi & Ho & Hk)].
    + left. by case_bool_decide.
    + destruct i as [|i]; simpl in Hi.
      * simplify_eq. left. rewrite bool_decide_eq_true_2; [done|].
        apply list_elem_of_fmap. eauto.
      * right. eauto 10.
Qed.

Lemma elem_of_dependencies_of {E} (label : TaskSpec.t → string)
    (entry : string → string → pydict → E) (P : gmap string string)
    (ts : list TaskSpec.t) (e : E) :
  e ∈ dependencies_of label entry P ts ↔
  ∃ j task input_ds upstream,
    ts !! j = Some task ∧ input_ds ∈ TaskSpec.inputs task ∧
    P !! key_text input_ds = Some upstream ∧ upstream ≠ label task ∧
    e = entry upstream (label task) input_ds.
Proof.
  unfold dependencies_of. rewrite list_elem_of_bind. split.
  - intros (task & He & Ht).
    apply list_elem_of_bind in He as (d & He & Hd).
    apply list_elem_of_lookup in Ht as (j & Hj).
    destruct (P !! key_text d) as [up|] eqn:Hup; [|by apply elem_of_nil in He].
    case_bool_decide; [|by apply elem_of_nil in He].
    apply list_elem_of_singleton in He. eauto 10.
  - intros (j & task & d & up & Hj & Hd & Hup & Hne & ->).
    exists task. split; [|by eapply list_elem_of_lookup_2].
    apply list_elem_of_bind. exists d. split; [|done].
    rewrite Hup, bool_decide_eq_true_2 by done. by apply list_elem_of_singleton.
Qed.

(** ** Marking outside of a step *)

(** C10. With no step active, [mark_input] and [mark_output] return
    without raising; the state they leave differs from the one they found
    by one warning in the log. *)
Theorem mark_outside_step_only_warns (dataset : DatasetRef.t) (w : world) :
  _current_step w = None →
  (∃ w', mark_input dataset w = (Ok tt, w') ∧
     log w' = log w ++ [(WARNING, Text "mark_input() called outside of step context")] ∧
     registries w' = registries w ∧ flow_objects w' = flow_objects w ∧
     step_objects w' = step_objects w ∧
     _current_flow w' = _current_flow w ∧ _current_step w' = _current_step w ∧
     _default_emitter w' = _default_emitter w ∧
     atexit_registered w' = atexit_registered w ∧ files w' = files w ∧
     telemetry w' = telemetry w ∧
     clock_readings w' = clock_readings w ∧ uuids_drawn w' = uuids_drawn w) ∧
  (∃ w', mark_output dataset w = (Ok tt, w') ∧
     log w' = log w ++ [(WARNING, Text "mark_output() called outside of step context")] ∧
     registries w' = registries w ∧ flow_objects w' = flow_objects w ∧
     step_objects w' = step_objects w ∧
     _current_flow w' = _current_flow w ∧ _current_step w' = _current_step w ∧
     _default_emitter w' = _default_emitter w ∧
     atexit_registered w' = atexit_registered w ∧ files w' = files w ∧
     telemetry w' = telemetry w ∧
     clock_readings w' = clock_readings w ∧ uuids_drawn w' = uuids_drawn w).
Proof.
  intros Hnone. split.
  - eexists. split.
    + unfold mark_input, current_step, bind, get_world, ret. simpl.
      rewrite Hnone. reflexivity.
    + by repeat split.
  - eexists. split.
    + unfold mark_output, current_step, bind, get_world, ret. simpl.
      rewrite Hnone. reflexivity.
    + by repeat split.
Qed.

Lemma mark_outside_step_only_warns_witness :
  ∃ w', mark_input ds_raw empty_world = (Ok tt, w') ∧
        log w' = [(WARNING, Text "mark_input() called outside of step context")] ∧
        registries w' = ∅ ∧ step_objects w' = ∅.
Proof.
  destruct (mark_outside_step_only_warns ds_raw empty_world eq_refl)
    as [(w' & Hrun & Hlog & Hreg & _ & Hsteps & _) _].
  exists w'. by repeat split.
Defined.

(** ** The export of a flow *)

Lemma flow_exit_keeps_files (env : environment) (self : nat) (exc : option exn)
    (w : world) :
  files (Flow.__exit__ env self exc w).2 = files w ∧
  atexit_registered (Flow.__exit__ env self exc w).2 = atexit_registered w.
Proof.
  unfold Flow.__exit__, bind, read_flow, try_finally, now, read_clock,
    update_registry, update_flow, prometheus, logger, read_registry, modify,
    raise, ret.
  repeat (case_match; simplify_eq; simpl in *; try done).
Qed.

(** C7. The scope [with flow("p"): pass], auto-export on, leaves no file
    when it is exited: the export function is only registered with atexit,
    and the document is written to "p_flow_<run_id>.json" when the
    interpreter exits. *)
Theorem flow_exit_does_not_export :
  let (result, w) := empty_flow plain_environment empty_world in
  let (result', w') := interpreter_exit plain_environment w in
  result = Ok (Some tt) ∧
  files w = ∅ ∧
  atexit_registered w = [0] ∧
  result' = Ok tt ∧
  files w' !! "p_flow_uuid-0.json" =
    Some (Document
            [ ("flow", PStr "p"); ("run_id", PStr "uuid-0");
              ("started_at", PStr "2024-01-01T00:00:0Z");
              ("finished_at", PStr "2024-01-01T00:00:1Z");
              ("status", PStr "SUCCESS"); ("tasks", PList []);
              ("edges", PList []); ("parallelizable", PDict []) ]).
Proof. by vm_compute. Qed.

(** ** The end of a step *)

(** With a dataset whose facets json can serialize, the task of a step
    that raises is recorded as failed, and the exception goes on. *)
Lemma failing_step_recorded :
  let (result, w) := failing_step plain_environment ds_raw empty_world in
  result = Raise boom ∧
  map TaskSpec.status (recorded_tasks w) = [Some "FAILED"] ∧
  map TaskSpec.finished_at (recorded_tasks w) = [Some "2024-01-01T00:00:7Z"].
Proof. by vm_compute. Qed.

(** C5. A step that marks an input whose facets hold a value json cannot
    serialize and then raises: the exception goes on to the caller, and
    the task record stays RUNNING with no finished_at, because the failure
    of [emit_event] ends the bookkeeping before the registry is updated. *)
Theorem failing_step_left_running :
  let (result, w) := failing_step plain_environment ds_raw_loaded_at empty_world in
  result = Raise boom ∧
  map TaskSpec.status (recorded_tasks w) = [Some "RUNNING"] ∧
  map TaskSpec.finished_at (recorded_tasks w) = [None] ∧
  (ERROR, WithError "Error in step cleanup: "
            (TypeError "Object is not JSON serializable")) ∈ log w.
Proof.
  vm_compute. repeat split; try done.
  repeat (first [by left | right]).
Qed.

(** With the openlineage package installed and no URL configured, the same
    happens with a dataset whose facets are plain JSON: the [Dataset]
    objects of the client are what json cannot serialize. *)
Lemma openlineage_datasets_left_running :
  let env := mkEnvironment Settings.default true false false (λ _, None) (λ _, true)
               (now_iso_zulu plain_environment) (uuid4 plain_environment) false in
  let (result, w) := failing_step env ds_raw empty_world in
  result = Raise boom ∧
  map TaskSpec.status (recorded_tasks w) = [Some "RUNNING"] ∧
  map TaskSpec.finished_at (recorded_tasks w) = [None].
Proof. by vm_compute. Qed.

(** With a URL configured and the package installed, but a transport or a
    client that cannot be built, the emitter has no client either
    ([_init_client] logs the error), and the same happens. *)
Lemma client_construction_failure_left_running :
  let env := mkEnvironment (Settings.mk "http://marquez:5000" "notebook" false true)
               true false false (λ _, None) (λ _, true)
               (now_iso_zulu plain_environment) (uuid4 plain_environment) true in
  let (result, w) := failing_step env ds_raw empty_world in
  emitter_has_client env empty_world = false ∧
  result = Raise boom ∧
  map TaskSpec.status (recorded_tasks w) = [Some "RUNNING"] ∧
  map TaskSpec.finished_at (recorded_tasks w) = [None] ∧
  (ERROR, Text "Failed to initialize OpenLineage client") ∈ log w.
Proof.
  vm_compute. repeat split; try done.
  repeat (first [by left | right]).
Qed.

(** ** The component type of a step *)

Lemma step_init_valid (env : environment) (name ct : string)
    (ns : option string) (tags : option pydict) (w : world) :
  ct ∈ COMPONENT_TYPES ∨ ct = "auto" →
  ∃ self w1 st,
    Step.__init__ env name ct ns tags w = (Ok self, w1) ∧
    step_objects w1 !! self = Some st ∧
    StepAttrs.component_type st = ct ∧
    StepAttrs.name st = name ∧
    StepAttrs.flow_registry st = _current_flow w ∧
    registries w1 = registries w.
Proof.
  intros Hvalid. unfold Step.__init__.
  assert (negb (bool_decide (ct ∈ COMPONENT_TYPES)) && negb (String.eqb ct "auto") = false)
    as ->.
  { destruct Hvalid as [Hin| ->].
    - by rewrite bool_decide_eq_true_2.
    - by rewrite andb_false_r. }
  unfold bind, generate_run_id, get_world, get_emitter, new_emitter, logger,
    modify, ret, bind. simpl.
  destruct (_default_emitter w) as [e|]; simpl.
  - eexists _, _, _. split; [reflexivity|]. simpl.
    rewrite lookup_insert_eq. done.
  - destruct (String.eqb (Settings.ol_url (settings env)) ""); simpl.
    + eexists _, _, _. split; [reflexivity|]. simpl.
      rewrite lookup_insert_eq. done.
    + destruct (openlineage_importable env); simpl.
      * destruct (client_construction_fails env); simpl;
          (eexists _, _, _; split; [reflexivity|]; simpl;
           rewrite lookup_insert_eq; done).
      * eexists _, _, _. split; [reflexivity|]. simpl.
        rewrite lookup_insert_eq. done.
Qed.

Lemma step_init_invalid (env : environment) (name ct : string)
    (ns : option string) (tags : option pydict) (w : world) :
  ct ∉ COMPONENT_TYPES → ct ≠ "auto" →
  Step.__init__ env name ct ns tags w =
  (Raise (ValueError ("Invalid component_type: " +:+ ct)), w).
Proof.
  intros Hnotin Hne. unfold Step.__init__.
  rewrite bool_decide_eq_false_2 by done.
  apply String.eqb_neq in Hne. by rewrite Hne.
Qed.

Lemma emit_event_start_ok (env : environment) (e : OpenLineageEmitter.t)
    (run_id job_name : string) (w : world) :
  ∃ sent w',
    emit_event env e "START" run_id job_name [] [] None w = (Ok sent, w') ∧
    registries w' = registries w.
Proof.
  unfold emit_event, bind, now, read_clock, logger, modify, ret, bind. simpl.
  destruct (OpenLineageEmitter.client e); simpl.
  - destruct (client_emit_fails env); simpl; eexists _, _; split; done.
  - eexists _, _. split; done.
Qed.

Lemma step_enter_records (env : environment) (self : nat) (w : world)
    (st : StepAttrs.t) (a : nat) (r : FlowRegistry.t) :
  step_objects w !! self = Some st →
  StepAttrs.flow_registry st = Some a →
  registries w !! a = Some r →
  ∃ w' r' task,
    Step.__enter__ env self w = (Ok self, w') ∧
    registries w' !! a = Some r' ∧
    FlowRegistry.tasks r' = FlowRegistry.tasks r ++ [task] ∧
    TaskSpec.name task = StepAttrs.name st ∧
    TaskSpec.component_type task = StepAttrs.component_type st ∧
    TaskSpec.status task = Some "RUNNING".
Proof.
  intros Hst Hflow Hr.
  unfold Step.__enter__, bind, read_clock, update_step, modify, get_world,
    read_step, flow_name, read_registry, ret, bind. simpl.
  rewrite !lookup_alter_eq, Hst. simpl. rewrite Hflow.
  unfold set_step_objects, set_current_step, set_clock_readings. simpl.
  rewrite Hr. simpl.
  unfold tracing_enter, bind, read_clock, modify, ret,
    set_step_objects, set_clock_readings, set_telemetry, now, update_registry,
    modify, bind.
  destruct (tracer_available env); simpl; rewrite Hr; simpl.
  - match goal with
    | |- context [emit_event ?env ?e "START" ?rid ?job [] [] None ?w0] =>
        destruct (emit_event_start_ok env e rid job w0) as (sent & w1 & -> & Hreg)
    end.
    unfold prometheus, modify, logger, ret.
    destruct (Settings.prometheus_enabled (settings env)); simpl;
      (eexists _, _, _; split; [reflexivity|]; simpl; rewrite Hreg; simpl;
       rewrite !lookup_alter_eq, Hr; simpl; by repeat split).
  - match goal with
    | |- context [emit_event ?env ?e "START" ?rid ?job [] [] None ?w0] =>
        destruct (emit_event_start_ok env e rid job w0) as (sent & w1 & -> & Hreg)
    end.
    unfold prometheus, modify, logger, ret.
    destruct (Settings.prometheus_enabled (settings env)); simpl;
      (eexists _, _, _; split; [reflexivity|]; simpl; rewrite Hreg; simpl;
       rewrite !lookup_alter_eq, Hr; simpl; by repeat split).
Qed.

(** A step created with "auto" is recorded with the component type
    "auto", which is not one of COMPONENT_TYPES. *)
Lemma auto_is_stored_unresolved :
  let (result, w) := auto_step plain_environment empty_world in
  result = Ok (Some (Some tt)) ∧
  map TaskSpec.component_type (recorded_tasks w) = ["auto"] ∧
  "auto" ∉ COMPONENT_TYPES.
Proof.
  vm_compute. repeat split; try done.
  intros H. repeat (apply elem_of_cons in H as [H|H]; [discriminate|]).
  by apply elem_of_nil in H.
Qed.

(** C6, as the code has it. Constructing a step succeeds for every member
    of COMPONENT_TYPES and for "auto", and the step keeps the value given;
    inside a flow, entering the step appends a task record with that same
    value, "auto" included. Constructing with any other string raises
    ValueError and changes nothing. *)
Theorem step_component_type (env : environment) (name ct : string)
    (ns : option string) (tags : option pydict) (w : world) :
  (ct ∈ COMPONENT_TYPES ∨ ct = "auto" →
   (∃ self w1 st,
      Step.__init__ env name ct ns tags w = (Ok self, w1) ∧
      step_objects w1 !! self = Some st ∧
      StepAttrs.component_type st = ct) ∧
   (∀ a r, _current_flow w = Some a → registries w !! a = Some r →
      ∃ self w1 w2 r' task,
        Step.__init__ env name ct ns tags w = (Ok self, w1) ∧
        Step.__enter__ env self w1 = (Ok self, w2) ∧
        registries w2 !! a = Some r' ∧
        FlowRegistry.tasks r' = FlowRegistry.tasks r ++ [task] ∧
        TaskSpec.name task = name ∧
        TaskSpec.component_type task = ct)) ∧
  (ct ∉ COMPONENT_TYPES → ct ≠ "auto" →
   Step.__init__ env name ct ns tags w =
   (Raise (ValueError ("Invalid component_type: " +:+ ct)), w)).
Proof.
  split; [|apply step_init_invalid].
  intros Hvalid.
  destruct (step_init_valid env name ct ns tags w Hvalid)
    as (self & w1 & st & Hinit & Hst & Hct & Hname & Hflow & Hreg).
  split; [by exists self, w1, st|].
  intros a r Ha Hr.
  destruct (step_enter_records env self w1 st a r Hst) as
    (w2 & r' & task & Henter & Hr' & Htasks & Htn & Htc & _).
  { by rewrite Hflow. }
  { by rewrite Hreg. }
  exists self, w1, w2, r', task. repeat split; try done; congruence.
Qed.

Lemma step_component_type_witness :
  (∃ self w1 w2 r' task,
     Step.__init__ plain_environment "guess" "auto" None None inside_flow = (Ok self, w1) ∧
     Step.__enter__ plain_environment self w1 = (Ok self, w2) ∧
     registries w2 !! 0 = Some r' ∧
     FlowRegistry.tasks r' = [] ++ [task] ∧
     TaskSpec.name task = "guess" ∧
     TaskSpec.component_type task = "auto") ∧
  Step.__init__ plain_environment "s" "Loader" None None empty_world =
  (Raise (ValueError ("Invalid component_type: " +:+ "Loader")), empty_world).
Proof.
  split.
  - destruct (step_component_type plain_environment "guess" "auto" None None inside_flow)
      as [H _].
    destruct (H (or_intror eq_refl)) as [_ H2].
    apply (H2 0 (FlowRegistry.mk "p" "uuid-0" [] (Some "2024-01-01T00:00:0Z") None
                   "RUNNING" [])).
    + by vm_compute.
    + by vm_compute.
  - apply (proj2 (step_component_type plain_environment "s" "Loader" None None empty_world)).
    + intros H. repeat (apply elem_of_cons in H as [H|H]; [discriminate|]).
      by apply elem_of_nil in H.
    + discriminate.
Defined.

(** ** What holds of the core graph and of the scopes in every run *)

(** In a registry whose task names are distinct no edge joins a name to
    itself. *)
Lemma derive_edges_distinct_names (r : FlowRegistry.t) (a : string) :
  NoDup (map TaskSpec.name (FlowRegistry.tasks r)) →
  (a, a) ∉ FlowRegistry.derive_edges r.
Proof.
  intros Hnd Hin. unfold FlowRegistry.derive_edges in Hin.
  apply elem_of_elements, elem_of_list_to_set, elem_of_appended_edges in Hin
    as (i & j & ti & tj & _ & _ & Hij & Hi & Hj & _ & _ & _ & Ha & Hb).
  assert (i = j); [|lia].
  apply (NoDup_lookup _ i j a Hnd).
  - by rewrite list_lookup_fmap, Hi, Ha.
  - by rewrite list_lookup_fmap, Hj, Hb.
Qed.

Lemma never_raises_ret {A} (a : A) : never_raises (ret a).
Proof. by intros w e. Qed.

Lemma never_raises_modify (f : world → world) : never_raises (modify f).
Proof. by intros w e. Qed.

Lemma never_raises_logger (lvl : level) (msg : message) : never_raises (logger lvl msg).
Proof. apply never_raises_modify. Qed.

Lemma never_raises_read_clock : never_raises read_clock.
Proof. by intros w e. Qed.

Lemma never_raises_read_step (a : nat) : never_raises (read_step a).
Proof. intros w e. unfold read_step. by destruct (step_objects w !! a). Qed.

Lemma never_raises_bind {A B} (m : M A) (k : A → M B) :
  never_raises m → (∀ a, never_raises (k a)) → never_raises (bind m k).
Proof.
  intros Hm Hk w e. unfold bind.
  destruct (m w) as [[a|e'|] w'] eqn:E; simpl; [apply Hk| |done].
  intros [= ->]. apply (Hm w e). by rewrite E.
Qed.

(** Whatever the guarded statement does, a handler that does not raise
    ends the exception. *)
Lemma never_raises_try_except {A} (m : M A) (handler : exn → M A) :
  (∀ e, never_raises (handler e)) → never_raises (try_except m handler).
Proof.
  intros Hh w e. unfold try_except.
  destruct (m w) as [[a|e'|] w'] eqn:E; simpl; [done|apply Hh|done].
Qed.

Lemma never_raises_try_finally {A} (m : M A) (cleanup : M unit) :
  never_raises m → never_raises cleanup → never_raises (try_finally m cleanup).
Proof.
  intros Hm Hc w e. unfold try_finally.
  destruct (m w) as [r w'] eqn:E.
  destruct (cleanup w') as [[[]|e'|] w''] eqn:E'; simpl.
  - intros ->. apply (Hm w e). by rewrite E.
  - intros _. apply (Hc w' e'). by rewrite E'.
  - done.
Qed.

Lemma never_raises_tracing_exit (env : environment) (exc : option exn) :
  never_raises (tracing_exit env exc).
Proof.
  unfold tracing_exit. destruct (tracer_available env).
  - apply never_raises_bind; [apply never_raises_read_clock|].
    intros _. apply never_raises_modify.
  - apply never_raises_ret.
Qed.

Lemma raises_only_never {A} (P : exn → Prop) (m : M A) :
  never_raises m → raises_only P m.
Proof. intros Hm w e He. by destruct (Hm w e). Qed.

Lemma raises_only_bind {A B} (P : exn → Prop) (m : M A) (k : A → M B) :
  raises_only P m → (∀ a, raises_only P (k a)) → raises_only P (bind m k).
Proof.
  intros Hm Hk w e. unfold bind.
  destruct (m w) as [[a|e'|] w'] eqn:E; simpl; [apply Hk| |done].
  intros [= ->]. apply (Hm w e). by rewrite E.
Qed.

Lemma raises_only_try_finally {A} (P : exn → Prop) (m : M A) (cleanup : M unit) :
  never_raises m → raises_only P cleanup → raises_only P (try_finally m cleanup).
Proof.
  intros Hm Hc w e. unfold try_finally.
  destruct (m w) as [r w'] eqn:E.
  destruct (cleanup w') as [[[]|e'|] w''] eqn:E'; simpl.
  - intros ->. destruct (Hm w e). by rewrite E.
  - intros [= <-]. apply (Hc w' e'). by rewrite E'.
  - done.
Qed.

(** [Step.__exit__] raises nothing but what [_current_step.reset] raises
    on a token used before: the handler of its try block only logs, and
    nothing else in its finally block can raise. *)
Lemma step_exit_raises_only_reset (env : environment) (self : nat) (exc : option exn) :
  raises_only (λ e, e = token_used) (Step.__exit__ env self exc).
Proof.
  unfold Step.__exit__.
  apply raises_only_bind;
    [apply raises_only_never, never_raises_read_step|]. intros st.
  apply raises_only_bind.
  { apply raises_only_never. destruct (StepAttrs._start_time st).
    - apply never_raises_bind; [apply never_raises_read_clock|].
      intros. apply never_raises_ret.
    - apply never_raises_ret. }
  intros wall_time.
  apply raises_only_bind; [|intros; apply raises_only_never, never_raises_ret].
  apply raises_only_try_finally.
  - apply never_raises_try_except. intros e. apply never_raises_logger.
  - apply raises_only_bind;
      [apply raises_only_never, never_raises_read_step|]. intros st'.
    apply raises_only_bind.
    + apply raises_only_never.
      destruct (StepAttrs._tracing_context st');
        [apply never_raises_tracing_exit|apply never_raises_ret].
    + intros _. destruct (StepAttrs._step_token st') as [tok|];
        [|apply raises_only_never, never_raises_ret].
      destruct (used tok).
      * by intros w e [= <-].
      * apply raises_only_never.
        apply never_raises_bind; [apply never_raises_modify|].
        intros _. apply never_raises_modify.
Qed.

Lemma bind_Ok {A B} (m : M A) (k : A → M B) (w w' : world) (b : B) :
  bind m k w = (Ok b, w') → ∃ a w1, m w = (Ok a, w1) ∧ k a w1 = (Ok b, w').
Proof.
  unfold bind. destruct (m w) as [[a|e|] w1]; [eauto|done|done].
Qed.

(** ... and it never asks for the exception to be dropped. *)
Lemma step_exit_returns_false (env : environment) (self : nat) (exc : option exn)
    (w w' : world) (b : bool) :
  Step.__exit__ env self exc w = (Ok b, w') → b = false.
Proof.
  unfold Step.__exit__. intros H.
  apply bind_Ok in H as (st & w1 & _ & H).
  apply bind_Ok in H as (wall_time & w2 & _ & H).
  apply bind_Ok in H as (u & w3 & _ & H).
  by injection H as <- _.
Qed.

(** An exception raised in the body of a step reaches the caller as it
    is, whatever happens to the bookkeeping, unless the step's token was
    used before and the reset raises in its place. *)
Lemma step_scope_propagates {A B} (env : environment) (self : nat)
    (enter : M B) (body : B → M A) (w w0 w1 : world) (target : B) (e : exn) :
  enter w = (Ok target, w0) →
  body target w0 = (Raise e, w1) →
  (with_statement enter (Step.__exit__ env self) body w).1 = Raise e ∨
  (with_statement enter (Step.__exit__ env self) body w).1 = Raise token_used ∨
  (with_statement enter (Step.__exit__ env self) body w).1 = Unmodelled.
Proof.
  intros Henter Hbody. unfold with_statement, bind. rewrite Henter, Hbody.
  destruct (Step.__exit__ env self (Some e) w1) as [[[]|e'|] w2] eqn:Hexit; simpl.
  - by apply step_exit_returns_false in Hexit.
  - by left.
  - right. left. f_equal.
    apply (step_exit_raises_only_reset env self (Some e) w1 e').
    by rewrite Hexit.
  - by right; right.
Qed.

(** When the file cannot be opened the export logs the error and
    returns; no file appears. *)
Lemma export_failure_is_logged :
  let (_, w) := empty_flow read_only_directory empty_world in
  let (result, w') := interpreter_exit read_only_directory w in
  result = Ok tt ∧ files w' = ∅ ∧
  last (log w') =
    Some (ERROR, WithError "Failed to export flow registry: "
                   (OSError "p_flow_uuid-0.json")).
Proof. by vm_compute. Qed.

(** The export itself never raises: its handler only logs. *)
Lemma export_on_exit_never_raises (env : environment) (self : nat) :
  never_raises (Flow._export_on_exit env self).
Proof.
  unfold Flow._export_on_exit. apply never_raises_try_except.
  intros e. apply never_raises_logger.
Qed.

(** Without an explicit path the document goes to
    "{name}_flow_{run_id}.json"; with one, to that path. *)
Lemma export_on_exit_path (env : environment) (self : nat) (w : world)
    (f : FlowAttrs.t) (r : FlowRegistry.t) :
  let path :=
    match FlowAttrs.export_path f with
    | Some p => if String.eqb p ""
                then FlowAttrs.name f +:+ "_flow_" +:+ FlowAttrs.run_id f +:+ ".json"
                else p
    | None => FlowAttrs.name f +:+ "_flow_" +:+ FlowAttrs.run_id f +:+ ".json"
    end in
  flow_objects w !! self = Some f →
  registries w !! FlowAttrs.registry f = Some r →
  can_write env path = true →
  json_serializable (PDict (FlowRegistry.to_dict r)) = true →
  ∃ w', Flow._export_on_exit env self w = (Ok tt, w') ∧
        files w' = <[path := Document (FlowRegistry.to_dict r)]> (files w).
Proof.
  intros path Hf Hr Hw Hjson. subst path.
  unfold Flow._export_on_exit, try_except, bind, read_flow. rewrite Hf.
  destruct (FlowAttrs.export_path f) as [p|] eqn:Hp.
  - destruct (String.eqb p "") eqn:Hempty.
    + unfold update_flow, modify, ret, bind, to_json. cbn [fst snd].
      rewrite Hw. unfold bind, read_registry. cbn [registries set_flow_objects].
      rewrite Hr, Hjson.
      unfold modify, logger, modify. eexists. split; reflexivity.
    + unfold ret, to_json. cbn [fst snd].
      rewrite Hw. unfold bind, read_registry.
      rewrite Hr, Hjson.
      unfold modify, logger, modify. eexists. split; reflexivity.
  - unfold update_flow, modify, ret, bind, to_json. cbn [fst snd].
    rewrite Hw. unfold bind, read_registry. cbn [registries set_flow_objects].
    rewrite Hr, Hjson.
    unfold modify, logger, modify. eexists. split; reflexivity.
Qed.

(** * Further properties of the code around the claims *)

(** ** The registry: lookup and update of tasks *)

Lemma get_task_index_Some (r : FlowRegistry.t) (name : string)
    (run_id : option string) (k : nat) :
  FlowRegistry.get_task_index r name run_id = Some k ↔
  ∃ task, FlowRegistry.tasks r !! k = Some task ∧
          FlowRegistry.task_matches name run_id task = true ∧
          ∀ j task', FlowRegistry.tasks r !! j = Some task' → (k < j)%nat →
                     FlowRegistry.task_matches name run_id task' = false.
Proof.
  unfold FlowRegistry.get_task_index.
  set (ts := FlowRegistry.tasks r).
  destruct (list_find _ (reverse ts)) as [[i x]|] eqn:Hfind.
  - apply list_find_Some in Hfind as (Hi & Hx & Hlt).
    apply reverse_lookup_Some in Hi as [Hi Hlen].
    split.
    + intros [= <-]. exists x.
      replace (length ts - 1 - i)%nat with (length ts - S i)%nat by lia.
      split; [done|]. split; [done|].
      intros j t' Hj Hkj.
      pose proof (lookup_lt_Some _ _ _ Hj) as Hjlen.
      destruct (FlowRegistry.task_matches name run_id t') eqn:Hm; [|done].
      exfalso. apply (Hlt (length ts - S j)%nat t'); [|lia|done].
      apply reverse_lookup_Some. split; [|lia].
      by replace (length ts - S (length ts - S j))%nat with j by lia.
    + intros (t & Hk & Hm & Hlater). f_equal.
      pose proof (lookup_lt_Some _ _ _ Hk) as Hklen.
      destruct (decide (length ts - 1 - i = k)%nat) as [|Hne]; [done|].
      exfalso.
      destruct (decide (k < length ts - S i)%nat) as [Hlt'|Hge].
      * specialize (Hlater _ _ Hi Hlt'). congruence.
      * apply (Hlt (length ts - S k)%nat t); [|lia|done].
        apply reverse_lookup_Some. split; [|lia].
        by replace (length ts - S (length ts - S k))%nat with k by lia.
  - split; [done|]. intros (t & Hk & Hm & _). exfalso.
    apply list_find_None in Hfind. rewrite Forall_forall in Hfind.
    apply (Hfind t); [|done].
    apply elem_of_reverse. by eapply list_elem_of_lookup_2.
Qed.

Lemma get_task_index_None (r : FlowRegistry.t) (name : string)
    (run_id : option string) :
  FlowRegistry.get_task_index r name run_id = None ↔
  ∀ task, task ∈ FlowRegistry.tasks r →
          FlowRegistry.task_matches name run_id task = false.
Proof.
  unfold FlowRegistry.get_task_index.
  destruct (list_find _ (reverse (FlowRegistry.tasks r))) as [[i x]|] eqn:Hfind.
  - split; [done|]. intros Hall. exfalso.
    apply list_find_Some in Hfind as (Hi & Hx & _).
    apply list_elem_of_lookup_2 in Hi. rewrite elem_of_reverse in Hi.
    rewrite (Hall x Hi) in Hx. done.
  - split; [|done]. intros _ t Ht.
    apply list_find_None in Hfind. rewrite Forall_forall in Hfind.
    destruct (FlowRegistry.task_matches name run_id t) eqn:Hm; [|done].
    exfalso. apply (Hfind t); [|done]. by apply elem_of_reverse.
Qed.

(** X1. [get_task] returns the most recently added task of the name (and
    of the run id, when one is given): a task it returns is in the list,
    matches, and no task after it matches; it returns None exactly when
    no task matches. *)
Theorem get_task_most_recent (r : FlowRegistry.t) (name : string)
    (run_id : option string) :
  (∀ task, FlowRegistry.get_task r name run_id = Some task ↔
     ∃ k, FlowRegistry.tasks r !! k = Some task ∧
          FlowRegistry.task_matches name run_id task = true ∧
          ∀ j task', FlowRegistry.tasks r !! j = Some task' → (k < j)%nat →
                     FlowRegistry.task_matches name run_id task' = false) ∧
  (FlowRegistry.get_task r name run_id = None ↔
   ∀ task, task ∈ FlowRegistry.tasks r →
           FlowRegistry.task_matches name run_id task = false).
Proof.
  unfold FlowRegistry.get_task. split.
  - intros task. split.
    + destruct (FlowRegistry.get_task_index r name run_id) as [k|] eqn:Hk; [|done].
      intros Hlook. exists k.
      apply get_task_index_Some in Hk as (t & Ht & Hm & Hlater).
      by simplify_eq.
    + intros (k & Hk & Hm & Hlater).
      assert (FlowRegistry.get_task_index r name run_id = Some k) as ->; [|done].
      apply get_task_index_Some. eauto.
  - destruct (FlowRegistry.get_task_index r name run_id) as [k|] eqn:Hk.
    + apply get_task_index_Some in Hk as (t & Ht & Hm & _).
      rewrite Ht. split; [done|]. intros Hall.
      rewrite (Hall t) in Hm; [done|]. by eapply list_elem_of_lookup_2.
    + split; [|done]. intros _. by apply get_task_index_None.
Qed.

Lemma get_task_index_snoc (r r' : FlowRegistry.t) (task : TaskSpec.t)
    (name : string) (run_id : option string) :
  FlowRegistry.tasks r' = FlowRegistry.tasks r ++ [task] →
  FlowRegistry.get_task_index r' name run_id =
  if FlowRegistry.task_matches name run_id task
  then Some (length (FlowRegistry.tasks r))
  else FlowRegistry.get_task_index r name run_id.
Proof.
  intros Htasks. unfold FlowRegistry.get_task_index.
  rewrite Htasks, reverse_snoc, length_app. cbn [list_find length].
  destruct (decide (FlowRegistry.task_matches name run_id task = true)) as [Hm|Hm].
  - rewrite Hm. cbn. f_equal. lia.
  - apply not_true_is_false in Hm. rewrite Hm.
    destruct (list_find _ (reverse (FlowRegistry.tasks r))) as [[i x]|] eqn:Hfind;
      cbn; [|done].
    f_equal. lia.
Qed.

Lemma get_task_snoc (r r' : FlowRegistry.t) (task : TaskSpec.t)
    (name : string) (run_id : option string) :
  FlowRegistry.tasks r' = FlowRegistry.tasks r ++ [task] →
  FlowRegistry.get_task r' name run_id =
  if FlowRegistry.task_matches name run_id task
  then Some task
  else FlowRegistry.get_task r name run_id.
Proof.
  intros Htasks. unfold FlowRegistry.get_task.
  rewrite (get_task_index_snoc r r' task) by done.
  destruct (FlowRegistry.task_matches name run_id task).
  - rewrite Htasks. by rewrite lookup_app_r, Nat.sub_diag.
  - destruct (FlowRegistry.get_task_index r name run_id) as [k|] eqn:Hk; [|done].
    apply get_task_index_Some in Hk as (t & Ht & _).
    rewrite Htasks, lookup_app_l; [done|]. by eapply lookup_lt_Some.
Qed.

(** X2. A task just added is the one [get_task] returns for its name,
    with or without its run id, and the answers for other names are those
    of the registry before. *)
Theorem get_task_add_task (r : FlowRegistry.t) (task : TaskSpec.t) :
  FlowRegistry.get_task (FlowRegistry.add_task r task) (TaskSpec.name task) None
    = Some task ∧
  FlowRegistry.get_task (FlowRegistry.add_task r task) (TaskSpec.name task)
    (TaskSpec.run_id task) = Some task ∧
  ∀ name run_id, name ≠ TaskSpec.name task →
    FlowRegistry.get_task (FlowRegistry.add_task r task) name run_id =
    FlowRegistry.get_task r name run_id.
Proof.
  split_and!.
  - rewrite (get_task_snoc r _ task) by done.
    unfold FlowRegistry.task_matches. by rewrite String.eqb_refl.
  - rewrite (get_task_snoc r _ task) by done.
    unfold FlowRegistry.task_matches. rewrite String.eqb_refl.
    destruct (TaskSpec.run_id task); [|done]. by rewrite String.eqb_refl.
  - intros name run_id Hne.
    rewrite (get_task_snoc r _ task) by done.
    unfold FlowRegistry.task_matches.
    destruct (String.eqb_spec (TaskSpec.name task) name); [congruence|done].
Qed.

Lemma get_task_index_lt (r : FlowRegistry.t) (name : string)
    (run_id : option string) (k : nat) :
  FlowRegistry.get_task_index r name run_id = Some k →
  (k < length (FlowRegistry.tasks r))%nat.
Proof.
  intros (t & Ht & _)%get_task_index_Some. by eapply lookup_lt_Some.
Qed.

Lemma get_task_index_matches (r : FlowRegistry.t) (name : string)
    (run_id : option string) :
  FlowRegistry.get_task_index r name run_id =
  let matches := FlowRegistry.task_matches name run_id <$> FlowRegistry.tasks r in
  match list_find (λ b, b = true) (reverse matches) with
  | Some (i, _) => Some (length matches - 1 - i)%nat
  | None => None
  end.
Proof.
  unfold FlowRegistry.get_task_index. cbn zeta.
  rewrite <- fmap_reverse, list_find_fmap, length_fmap.
  by destruct (list_find _ (reverse (FlowRegistry.tasks r))) as [[i x]|].
Qed.

Lemma get_task_index_alter (r : FlowRegistry.t) (f : TaskSpec.t → TaskSpec.t)
    (k : nat) (name : string) (run_id : option string) :
  (∀ task, TaskSpec.name (f task) = TaskSpec.name task) →
  (∀ task, TaskSpec.run_id (f task) = TaskSpec.run_id task) →
  FlowRegistry.get_task_index
    (FlowRegistry.set_tasks (alter f k (FlowRegistry.tasks r)) r) name run_id =
  FlowRegistry.get_task_index r name run_id.
Proof.
  intros Hname Hrun.
  rewrite !get_task_index_matches.
  cbn [FlowRegistry.set_tasks FlowRegistry.tasks].
  rewrite (list_fmap_alter _ f id), list_alter_id; [done|done|].
  apply Forall_forall. intros task _.
  unfold FlowRegistry.task_matches. by rewrite Hname, Hrun.
Qed.

Lemma task_objects_get_task_Some (self : TaskObjects.t) (name : string)
    (run_id : option string) (a : nat) :
  TaskObjects.get_task self name run_id = Some a →
  ∃ k, TaskObjects.tasks self !! k = Some a ∧
       FlowRegistry.task_matches name run_id (TaskObjects.store self a) = true ∧
       ∀ r, FlowRegistry.tasks r = TaskObjects.values self →
            FlowRegistry.get_task_index r name run_id = Some k.
Proof.
  unfold TaskObjects.get_task. intros Hfind.
  destruct (list_find _ _) as [[i b]|] eqn:Hf; [|done].
  cbn in Hfind. injection Hfind as ->.
  pose proof Hf as Hf'.
  apply list_find_Some in Hf' as (Hi & Hmatch & _).
  apply reverse_lookup_Some in Hi as [Hk Hlt].
  exists (length (TaskObjects.tasks self) - S i)%nat. split_and!; [done|done|].
  intros r Hr. unfold FlowRegistry.get_task_index, TaskObjects.values in *.
  rewrite Hr, <- fmap_reverse, list_find_fmap, length_fmap.
  unfold compose. rewrite Hf. cbn. f_equal. lia.
Qed.

Lemma task_objects_get_task_None (self : TaskObjects.t) (name : string)
    (run_id : option string) (r : FlowRegistry.t) :
  TaskObjects.get_task self name run_id = None →
  FlowRegistry.tasks r = TaskObjects.values self →
  FlowRegistry.get_task_index r name run_id = None.
Proof.
  unfold TaskObjects.get_task. intros Hfind Hr.
  destruct (list_find _ _) as [[i b]|] eqn:Hf; [done|].
  unfold FlowRegistry.get_task_index, TaskObjects.values in *.
  rewrite Hr, <- fmap_reverse, list_find_fmap. unfold compose. by rewrite Hf.
Qed.

(** X3. [update_task_status] assigns to the task object that [get_task]
    returns. The list of references is as before and every lookup by
    name and run id returns the same object as before. The object found
    gets the status and the finishing time, and the inputs, outputs and
    contracts that were given, and keeps its other attributes; it shows
    so at every position of the list that holds it, and every other
    object is untouched. When no task matches nothing changes. When no
    object stands at two positions of the list, the values of the list
    are those of [FlowRegistry.update_task_status] on the list of
    values; with one object added twice both positions change. *)
Theorem update_task_status_in_place (self : TaskObjects.t)
    (name run_id status : string)
    (inputs outputs contracts : option (list pydict)) (now : string) :
  let self' := TaskObjects.update_task_status self name run_id status
                 inputs outputs contracts now in
  TaskObjects.tasks self' = TaskObjects.tasks self ∧
  (∀ name' run_id', TaskObjects.get_task self' name' run_id' =
                    TaskObjects.get_task self name' run_id') ∧
  (∀ task, TaskObjects.get_task self name (Some run_id) = Some task →
     task ∈ TaskObjects.tasks self ∧
     TaskObjects.store self' task =
       TaskObjects.assigned status inputs outputs contracts now
         (TaskObjects.store self task) ∧
     (∀ k, TaskObjects.tasks self !! k = Some task →
           TaskObjects.values self' !! k =
           Some (TaskObjects.assigned status inputs outputs contracts now
                   (TaskObjects.store self task))) ∧
     (∀ other, other ≠ task →
               TaskObjects.store self' other = TaskObjects.store self other)) ∧
  (TaskObjects.get_task self name (Some run_id) = None → self' = self) ∧
  (NoDup (TaskObjects.tasks self) →
   ∀ r, FlowRegistry.tasks r = TaskObjects.values self →
        TaskObjects.values self' =
        FlowRegistry.tasks
          (FlowRegistry.update_task_status r name run_id status
             inputs outputs contracts now)) ∧
  TaskObjects.values
    (TaskObjects.update_task_status added_twice "load" "run-1" "SUCCESS"
       None None None "t") =
  [ TaskSpec.mk "load" "DataLoader" [] [] [] [] None (Some "t")
      (Some "SUCCESS") (Some "run-1") None;
    TaskSpec.mk "load" "DataLoader" [] [] [] [] None (Some "t")
      (Some "SUCCESS") (Some "run-1") None ].
Proof.
  intros self'. subst self'. unfold TaskObjects.update_task_status.
  destruct (TaskObjects.get_task self name (Some run_id)) as [a|] eqn:Ha.
  - destruct (task_objects_get_task_Some _ _ _ _ Ha) as (k & Hk & Hmatch & Hidx).
    split_and!; [done| | |done| |by vm_compute].
    + intros name' run_id'. unfold TaskObjects.get_task. cbn. f_equal.
      apply list_find_ext. intros b. destruct (decide (b = a)) as [->|]; [|done].
      unfold FlowRegistry.task_matches. done.
    + intros task [= <-]. cbn. split_and!.
      * by eapply list_elem_of_lookup_2.
      * by rewrite decide_True.
      * intros j Hj. unfold TaskObjects.values. cbn.
        rewrite list_lookup_fmap, Hj. cbn. by rewrite decide_True.
      * intros other Hne. by rewrite decide_False.
    + intros Hnd r Hr. unfold FlowRegistry.update_task_status.
      rewrite (Hidx r Hr). cbn [FlowRegistry.set_tasks FlowRegistry.tasks].
      rewrite Hr. unfold TaskObjects.values. cbn.
      apply list_eq. intros j. rewrite list_lookup_fmap.
      destruct (decide (j = k)) as [->|Hne].
      * rewrite list_lookup_alter_eq, list_lookup_fmap, Hk. cbn.
        by rewrite decide_True.
      * rewrite list_lookup_alter_ne, list_lookup_fmap by done.
        destruct (TaskObjects.tasks self !! j) as [b|] eqn:Hj; [|done]. cbn.
        rewrite decide_False; [done|]. intros ->.
        apply Hne. by eapply NoDup_lookup.
  - split_and!; [done|done|done|done| |by vm_compute].
    intros _ r Hr. unfold FlowRegistry.update_task_status.
    by rewrite (task_objects_get_task_None _ _ _ _ Ha Hr).
Qed.

(** X4. [get_parallelizable_tasks] has one entry per task name, and the
    entry of a name is decided by the component type of the most recent
    task of that name: earlier tasks of the same name do not count. *)
Theorem parallelizable_of_most_recent (r : FlowRegistry.t) (name : string) :
  dict_lookup name (FlowRegistry.get_parallelizable_tasks r) =
  (λ task, PBool (bool_decide
     (TaskSpec.component_type task ∈ FlowRegistry.parallelizable_types))) <$>
  FlowRegistry.get_task r name None.
Proof.
  destruct r as [n rid ts sa fa st stack].
  unfold FlowRegistry.get_parallelizable_tasks. cbn [FlowRegistry.tasks].
  induction ts as [|task ts IH] using rev_ind; [done|].
  rewrite foldl_app. cbn [foldl]. rewrite dict_lookup_set, IH.
  rewrite (get_task_snoc (FlowRegistry.mk n rid ts sa fa st stack)
             (FlowRegistry.mk n rid (ts ++ [task]) sa fa st stack) task)
    by reflexivity.
  unfold FlowRegistry.task_matches. rewrite andb_true_r.
  rewrite (String.eqb_sym name). by destruct (String.eqb _ name).
Qed.

(** X5. Adding a task keeps every edge derived so far, every edge that is
    new ends at the task added, and the two ends of an edge are names of
    tasks of the registry. *)
Theorem derive_edges_add_task (r : FlowRegistry.t) (task : TaskSpec.t) :
  (∀ e, e ∈ FlowRegistry.derive_edges r →
        e ∈ FlowRegistry.derive_edges (FlowRegistry.add_task r task)) ∧
  (∀ e, e ∈ FlowRegistry.derive_edges (FlowRegistry.add_task r task) →
        e ∉ FlowRegistry.derive_edges r → e.2 = TaskSpec.name task) ∧
  (∀ e, e ∈ FlowRegistry.derive_edges r →
        e.1 ∈ TaskSpec.name <$> FlowRegistry.tasks r ∧
        e.2 ∈ TaskSpec.name <$> FlowRegistry.tasks r).
Proof.
  unfold FlowRegistry.derive_edges.
  cbn [FlowRegistry.add_task FlowRegistry.set_tasks FlowRegistry.tasks].
  split_and!.
  - intros [a b]. rewrite !elem_of_elements, !elem_of_list_to_set.
    rewrite !elem_of_appended_edges.
    intros (i & j & ta & tb & o & d & Hij & Hi & Hj & H).
    exists i, j, ta, tb, o, d. split_and!; try tauto.
    + rewrite lookup_app_l; [done|]. by eapply lookup_lt_Some.
    + rewrite lookup_app_l; [done|]. by eapply lookup_lt_Some.
  - intros [a b]. rewrite !elem_of_elements, !elem_of_list_to_set.
    rewrite !elem_of_appended_edges.
    intros (i & j & ta & tb & o & d & Hij & Hi & Hj & Ho & Hd & Hsame & -> & ->) Hnew.
    cbn [snd].
    destruct (decide (j < length (FlowRegistry.tasks r))%nat) as [Hlt|Hge].
    + exfalso. apply Hnew. exists i, j, ta, tb, o, d.
      rewrite lookup_app_l in Hi by lia. rewrite lookup_app_l in Hj by lia.
      done.
    + pose proof (lookup_lt_Some _ _ _ Hj) as Hlen.
      rewrite length_app in Hlen. cbn in Hlen.
      rewrite lookup_app_r in Hj by lia.
      replace (j - length (FlowRegistry.tasks r))%nat with 0%nat in Hj by lia.
      by injection Hj as <-.
  - intros [a b]. rewrite !elem_of_elements, !elem_of_list_to_set.
    rewrite !elem_of_appended_edges.
    intros (i & j & ta & tb & o & d & Hij & Hi & Hj & Ho & Hd & Hsame & -> & ->).
    cbn [fst snd]. split; apply list_elem_of_fmap.
    + exists ta. split; [done|]. by eapply list_elem_of_lookup_2.
    + exists tb. split; [done|]. by eapply list_elem_of_lookup_2.
Qed.

(** ** Loading a document: the entries of "tasks" *)

Lemma mapM_first_raise {A B} (f : A → outcome B) (before after : list A)
    (x : A) (e : exn) :
  (∀ y, y ∈ before → ∃ b, f y = Ok b) → f x = Raise e →
  mapM f (before ++ x :: after) = Raise e.
Proof.
  intros Hbefore Hx. induction before as [|y before IH]; cbn.
  - by rewrite Hx.
  - destruct (Hbefore y) as [b ->]; [left|]. cbn.
    rewrite IH; [done|]. intros z Hz. apply Hbefore. by right.
Qed.

(** X6. Loading stops at the first entry of "tasks" that lacks a required
    key: when the entries before it have both "name" and "component_type",
    an entry without "name" makes [from_dict] raise KeyError 'name', and
    one with "name" but without "component_type" KeyError
    'component_type', whatever follows; no registry is returned. A
    document whose "tasks" is null raises TypeError. *)
Theorem from_dict_task_missing_keys (data : pydict) (before after : list pyval)
    (task_data : pydict) :
  is_Some (dict_lookup "flow" data) →
  is_Some (dict_lookup "run_id" data) →
  (∀ v, v ∈ before →
     ∃ d, v = PDict d ∧ is_Some (dict_lookup "name" d) ∧
          is_Some (dict_lookup "component_type" d)) →
  (dict_lookup "tasks" data = Some (PList (before ++ PDict task_data :: after)) →
   dict_lookup "name" task_data = None →
   FlowRegistry.from_dict data = Raise (KeyError "name")) ∧
  (dict_lookup "tasks" data = Some (PList (before ++ PDict task_data :: after)) →
   is_Some (dict_lookup "name" task_data) →
   dict_lookup "component_type" task_data = None →
   FlowRegistry.from_dict data = Raise (KeyError "component_type")) ∧
  (dict_lookup "tasks" data = Some PNone →
   FlowRegistry.from_dict data =
   Raise (TypeError "'NoneType' object is not iterable")).
Proof.
  intros [flow Hflow] [run_id Hrun] Hbefore.
  assert (∀ y, y ∈ before → ∃ b, FlowRegistry.task_arguments y = Ok b) as Hok.
  { intros y (d & -> & [n Hn] & [c Hc])%Hbefore.
    unfold FlowRegistry.task_arguments, dict_subscript. cbn.
    rewrite Hn, Hc. cbn. eauto. }
  unfold FlowRegistry.from_dict, dict_subscript, dict_get.
  rewrite Hflow, Hrun. cbn [mbind outcome_bind].
  split_and!.
  - intros -> Hname. cbn [py_iter mbind outcome_bind].
    rewrite (mapM_first_raise _ _ _ _ (KeyError "name")); [done|done|].
    unfold FlowRegistry.task_arguments, dict_subscript. cbn. by rewrite Hname.
  - intros -> [n Hname] Hct. cbn [py_iter mbind outcome_bind].
    rewrite (mapM_first_raise _ _ _ _ (KeyError "component_type")); [done|done|].
    unfold FlowRegistry.task_arguments, dict_subscript. cbn.
    by rewrite Hname, Hct.
  - intros ->. reflexivity.
Qed.

Lemma from_dict_task_missing_keys_witness :
  FlowRegistry.from_dict
    [("flow", PStr "p"); ("run_id", PStr "run-1");
     ("tasks", PList [PDict [("name", PStr "load"); ("component_type", PStr "DataLoader")];
                      PDict [("component_type", PStr "Transformer")];
                      PDict [("name", PStr "save"); ("component_type", PStr "Exporter")]])]
    = Raise (KeyError "name") ∧
  FlowRegistry.from_dict
    [("flow", PStr "p"); ("run_id", PStr "run-1");
     ("tasks", PList [PDict [("name", PStr "load")]])]
    = Raise (KeyError "component_type") ∧
  FlowRegistry.from_dict
    [("flow", PStr "p"); ("run_id", PStr "run-1"); ("tasks", PNone)]
    = Raise (TypeError "'NoneType' object is not iterable").
Proof.
  split_and!.
  - refine (proj1 (from_dict_task_missing_keys _
      [PDict [("name", PStr "load"); ("component_type", PStr "DataLoader")]]
      [PDict [("name", PStr "save"); ("component_type", PStr "Exporter")]]
      [("component_type", PStr "Transformer")] _ _ _) _ _);
      try reflexivity; try (by eexists).
    intros v ->%list_elem_of_singleton. eexists.
    split_and!; [reflexivity|by eexists|by eexists].
  - refine (proj1 (proj2 (from_dict_task_missing_keys _ [] []
      [("name", PStr "load")] _ _ _)) _ _ _);
      try reflexivity; try (by eexists).
    by intros v ?%elem_of_nil.
  - refine (proj2 (proj2 (from_dict_task_missing_keys _ [] [] [] _ _ _)) _);
      try reflexivity; try (by eexists).
    by intros v ?%elem_of_nil.
Defined.

(** X7. The optional keys of a task entry: an entry without one of
    "inputs", "outputs", "contracts", "tags", "started_at",
    "finished_at", "status", "run_id" and "parent" is read as the same
    entry with that key set to its default, an empty list for the first
    three, an empty dict for "tags" and null for the others. *)
Theorem task_arguments_defaults (task_data : pydict) (key : string)
    (value : pyval) :
  (key, value) ∈ [ ("inputs", PList []); ("outputs", PList []);
                   ("contracts", PList []); ("tags", PDict []);
                   ("started_at", PNone); ("finished_at", PNone);
                   ("status", PNone); ("run_id", PNone); ("parent", PNone) ] →
  dict_lookup key task_data = None →
  FlowRegistry.task_arguments (PDict (dict_set key value task_data)) =
  FlowRegistry.task_arguments (PDict task_data).
Proof.
  intros Hkey Hnone.
  unfold FlowRegistry.task_arguments, dict_subscript, dict_get.
  cbn [as_subscriptable mbind outcome_bind].
  rewrite !dict_lookup_set.
  repeat (apply elem_of_cons in Hkey as [[= -> ->]|Hkey];
          [cbn; by rewrite Hnone|]).
  by apply elem_of_nil in Hkey.
Qed.

Lemma task_arguments_defaults_witness :
  FlowRegistry.task_arguments
    (PDict (dict_set "tags" (PDict [])
       [("name", PStr "load"); ("component_type", PStr "DataLoader")])) =
  FlowRegistry.task_arguments
    (PDict [("name", PStr "load"); ("component_type", PStr "DataLoader")]).
Proof.
  apply (task_arguments_defaults _ "tags" (PDict [])).
  - by repeat constructor.
  - reflexivity.
Defined.

(** ** Writing and reading the exported file *)

Lemma json_reloaded_tuple_free (v : pyval) :
  tuple_free v = true → json_reloaded v = v.
Proof.
  revert v. fix IH 1. intros [| | | |xs|xs|kvs|]; cbn; try done.
  - intros Hall. f_equal. induction xs as [|x xs IHxs]; [done|].
    cbn in Hall |- *. apply andb_true_iff in Hall as [Hx Hxs].
    by rewrite (IH x Hx), (IHxs Hxs).
  - intros Hall. f_equal. induction kvs as [|[k x] kvs IHkvs]; [done|].
    cbn in Hall |- *. apply andb_true_iff in Hall as [Hx Hxs].
    by rewrite (IH x Hx), (IHkvs Hxs).
Qed.

Lemma json_reloaded_dict_tuple_free (d : pydict) :
  tuple_free (PDict d) = true → json_reloaded_dict d = d.
Proof.
  intros H%json_reloaded_tuple_free. cbn in H. by injection H.
Qed.

Lemma reloaded_task_tuple_free (task : TaskSpec.t) :
  tuple_free_task task = true → reloaded_task task = task.
Proof.
  unfold tuple_free_task, reloaded_task.
  rewrite andb_true_iff, !forallb_app, !andb_true_iff.
  intros [(Hi & Ho & Hc) Htags].
  assert (∀ ds, forallb (λ d, tuple_free (PDict d)) ds = true →
                map json_reloaded_dict ds = ds) as Hmap.
  { induction ds as [|d ds IH]; [done|]. cbn [forallb map].
    intros [Hd Hds]%andb_true_iff.
    by rewrite (json_reloaded_dict_tuple_free d Hd), (IH Hds). }
  rewrite (Hmap _ Hi), (Hmap _ Ho), (Hmap _ Hc).
  rewrite (json_reloaded_dict_tuple_free _ Htags).
  by destruct task.
Qed.

Lemma json_reloaded_of_opt_str (o : option string) :
  json_reloaded (of_opt_str o) = of_opt_str o.
Proof. by destruct o. Qed.

Lemma reloaded_task_to_dict (task : TaskSpec.t) :
  json_reloaded_dict (TaskSpec.to_dict task) =
  TaskSpec.to_dict (reloaded_task task).
Proof.
  unfold TaskSpec.to_dict, json_reloaded_dict. cbn.
  rewrite !json_reloaded_of_opt_str, !map_map. done.
Qed.

Lemma from_dict_reloaded_to_dict (r : FlowRegistry.t) :
  FlowRegistry.from_dict (json_reloaded_dict (FlowRegistry.to_dict r)) =
  Ok (FlowRegistry.set_task_stack []
        (FlowRegistry.set_tasks (map reloaded_task (FlowRegistry.tasks r)) r)).
Proof.
  set (r' := FlowRegistry.set_tasks (map reloaded_task (FlowRegistry.tasks r)) r).
  rewrite <- (from_dict_to_dict r').
  transitivity (FlowRegistry.from_dict
    (dict_set "parallelizable"
       (json_reloaded (PDict (FlowRegistry.get_parallelizable_tasks r)))
       (dict_set "edges"
          (json_reloaded (PList (map (λ e, PTuple [PStr e.1; PStr e.2])
                                   (FlowRegistry.derive_edges r))))
          (FlowRegistry.to_dict r')))).
  - f_equal. unfold FlowRegistry.to_dict, json_reloaded_dict. cbn.
    rewrite !json_reloaded_of_opt_str, !map_map.
    do 7 f_equal. apply (f_equal PList), map_ext. intros task.
    cbn [json_reloaded]. f_equal. apply reloaded_task_to_dict.
  - rewrite !from_dict_ignores_key; [done| |];
      by apply (bool_decide_unpack _); vm_compute.
Qed.

Lemma forallb_map_ext {A B} (f : B → bool) (g : A → B) (h : A → bool)
    (l : list A) :
  (∀ x, f (g x) = h x) → forallb f (map g l) = forallb h l.
Proof.
  intros Hfg. induction l as [|x l IH]; [done|]. cbn. by rewrite Hfg, IH.
Qed.

Lemma json_serializable_to_dict (r : FlowRegistry.t) :
  json_serializable (PDict (FlowRegistry.to_dict r)) =
  forallb serializable_task (FlowRegistry.tasks r).
Proof.
  assert (∀ o, json_serializable (of_opt_str o) = true) as Hopt by (by intros []).
  assert (∀ ds, json_serializable (PList (map PDict ds)) =
                forallb (λ d, json_serializable (PDict d)) ds) as Hlist.
  { intros ds. cbn [json_serializable]. by apply forallb_map_ext. }
  assert (∀ task, json_serializable (PDict (TaskSpec.to_dict task)) =
                  serializable_task task) as Htask.
  { intros task. unfold serializable_task. rewrite !forallb_app.
    rewrite <- !Hlist.
    change (json_serializable (PDict (TaskSpec.to_dict task))) with
      (forallb (λ kv, json_serializable kv.2) (TaskSpec.to_dict task)).
    unfold TaskSpec.to_dict. cbn [forallb snd].
    rewrite !Hopt. cbn [json_serializable]. by rewrite !andb_true_r, !andb_assoc. }
  assert (json_serializable
            (PList (map (λ e : string * string, PTuple [PStr e.1; PStr e.2])
                          (FlowRegistry.derive_edges r))) = true) as Hedges.
  { cbn [json_serializable].
    rewrite (forallb_map_ext _ _ (λ _, true)) by done.
    by apply forallb_forall. }
  assert (json_serializable (PDict (FlowRegistry.get_parallelizable_tasks r))
          = true) as Hpar.
  { unfold FlowRegistry.get_parallelizable_tasks.
    generalize (FlowRegistry.tasks r). intros ts.
    assert (∀ d : pydict, json_serializable (PDict d) = true →
      json_serializable (PDict (foldl (λ d task,
        dict_set (TaskSpec.name task)
          (PBool (bool_decide (TaskSpec.component_type task
                               ∈ FlowRegistry.parallelizable_types))) d) d ts))
      = true) as Hfold; [|by apply Hfold].
    induction ts as [|task ts IH]; intros d Hd; [done|].
    cbn [foldl]. apply IH. clear IH.
    induction d as [|[k v] d IHd]; [done|].
    cbn [dict_set]. cbn [json_serializable forallb snd] in Hd |- *.
    apply andb_true_iff in Hd as [Hv Hd].
    destruct (String.eqb _ k); cbn [forallb snd]; [done|].
    rewrite Hv. by apply IHd. }
  change (json_serializable (PDict (FlowRegistry.to_dict r))) with
    (forallb (λ kv, json_serializable kv.2) (FlowRegistry.to_dict r)).
  unfold FlowRegistry.to_dict. cbn [forallb snd].
  rewrite !Hopt, Hedges, Hpar. cbn [json_serializable]. rewrite !andb_true_r.
  cbn [andb]. by apply forallb_map_ext.
Qed.

(** X8. What [to_json] leaves behind. When the path cannot be opened it
    raises OSError and nothing changes. Otherwise the file is opened
    first: when every dict of every task is serializable the file holds
    the document of the registry; when one is not, the call raises
    TypeError and the file holds only the beginning of a document,
    whatever it held before, so that reading it back raises
    (JSONDecodeError, a ValueError). *)
Theorem to_json_outcomes (env : environment) (registry : nat) (path : string)
    (w : world) (r : FlowRegistry.t) :
  registries w !! registry = Some r →
  (can_write env path = false →
   to_json env registry path w = (Raise (OSError path), w)) ∧
  (can_write env path = true →
   forallb serializable_task (FlowRegistry.tasks r) = true →
   to_json env registry path w =
   (Ok tt, set_files (<[path := Document (FlowRegistry.to_dict r)]> (files w)) w)) ∧
  (can_write env path = true →
   forallb serializable_task (FlowRegistry.tasks r) = false →
   to_json env registry path w =
   (Raise (TypeError "Object is not JSON serializable"),
    set_files (<[path := Truncated]> (files w)) w) ∧
   (from_json path (to_json env registry path w).2).1 =
   Raise (ValueError "JSONDecodeError")).
Proof.
  intros Hr. unfold to_json. split_and!.
  - by intros ->.
  - intros -> Hser. unfold bind, read_registry. rewrite Hr.
    by rewrite json_serializable_to_dict, Hser.
  - intros -> Hser. unfold bind, read_registry. rewrite Hr.
    rewrite json_serializable_to_dict, Hser. split; [done|].
    unfold from_json, modify, raise. cbn [snd set_files files].
    by rewrite lookup_insert_eq.
Qed.

Lemma to_json_outcomes_witness :
  to_json read_only_directory 0 "flow.json"
    (world_of_registry (registry_of [task_load; task_clean])) =
  (Raise (OSError "flow.json"),
   world_of_registry (registry_of [task_load; task_clean])) ∧
  to_json plain_environment 0 "flow.json"
    (world_of_registry (registry_of [task_load; task_clean])) =
  (Ok tt,
   set_files (<["flow.json" :=
                  Document (FlowRegistry.to_dict (registry_of [task_load; task_clean]))]>
                (files (world_of_registry (registry_of [task_load; task_clean]))))
     (world_of_registry (registry_of [task_load; task_clean]))) ∧
  (from_json "flow.json"
     (to_json plain_environment 0 "flow.json"
        (world_of_registry (registry_of [task_load_at]))).2).1 =
  Raise (ValueError "JSONDecodeError").
Proof.
  split_and!.
  - apply (proj1 (to_json_outcomes read_only_directory 0 "flow.json"
                    (world_of_registry (registry_of [task_load; task_clean]))
                    (registry_of [task_load; task_clean]) eq_refl)).
    reflexivity.
  - apply (proj1 (proj2 (to_json_outcomes plain_environment 0 "flow.json"
                    (world_of_registry (registry_of [task_load; task_clean]))
                    (registry_of [task_load; task_clean]) eq_refl)));
      reflexivity.
  - apply (proj2 (proj2 (to_json_outcomes plain_environment 0 "flow.json"
                    (world_of_registry (registry_of [task_load_at]))
                    (registry_of [task_load_at]) eq_refl)));
      reflexivity.
Defined.

(** X9. An export that succeeds can be read back, for a registry whose
    dicts have string keys (the dicts of this development): [from_json]
    on the file [to_json] wrote returns the registry with an empty task
    stack and with the tuples inside the dicts of its tasks turned into
    lists, and leaves the state alone; when those dicts hold no tuple,
    it is the registry itself with an empty task stack. The "edges" and
    "parallelizable" entries of the file are not read. *)
Theorem to_json_from_json (env : environment) (registry : nat) (path : string)
    (w : world) (r : FlowRegistry.t) :
  registries w !! registry = Some r →
  can_write env path = true →
  forallb serializable_task (FlowRegistry.tasks r) = true →
  let w' := (to_json env registry path w).2 in
  from_json path w' =
    (Ok (FlowRegistry.set_task_stack []
           (FlowRegistry.set_tasks (map reloaded_task (FlowRegistry.tasks r)) r)),
     w') ∧
  (forallb tuple_free_task (FlowRegistry.tasks r) = true →
   from_json path w' = (Ok (FlowRegistry.set_task_stack [] r), w')).
Proof.
  intros Hr Hw Hser w'.
  assert (from_json path w' =
    (Ok (FlowRegistry.set_task_stack []
           (FlowRegistry.set_tasks (map reloaded_task (FlowRegistry.tasks r)) r)),
     w')) as Hload.
  { subst w'. unfold to_json. rewrite Hw. unfold bind, read_registry.
    rewrite Hr, json_serializable_to_dict, Hser.
    unfold from_json, modify. cbn [snd set_files files].
    by rewrite lookup_insert_eq, from_dict_reloaded_to_dict. }
  split; [done|]. intros Hfree. rewrite Hload. do 3 f_equal.
  assert (map reloaded_task (FlowRegistry.tasks r) = FlowRegistry.tasks r) as ->.
  { clear Hload Hser Hr. revert Hfree. generalize (FlowRegistry.tasks r).
    induction l as [|task ts IH]; [done|]. intros Hfree.
    cbn [forallb map] in Hfree |- *. apply andb_true_iff in Hfree as [Ht Hts].
    by rewrite (reloaded_task_tuple_free task Ht), (IH Hts). }
  by destruct r.
Qed.

Lemma to_json_from_json_witness :
  (from_json "flow.json"
     (to_json plain_environment 0 "flow.json"
        (world_of_registry (registry_of [task_load; task_clean]))).2).1 =
  Ok (registry_of [task_load; task_clean]).
Proof.
  refine (f_equal fst (proj2 (to_json_from_json plain_environment 0 "flow.json"
    (world_of_registry (registry_of [task_load; task_clean]))
    (registry_of [task_load; task_clean]) eq_refl eq_refl eq_refl) eq_refl)).
Defined.

(** ** The scopes at run time *)

Lemma bind_run {A B} (m : M A) (k : A → M B) (w w1 : world) (a : A) :
  m w = (Ok a, w1) → bind m k w = k a w1.
Proof. unfold bind. by intros ->. Qed.

Lemma bind_raise {A B} (m : M A) (k : A → M B) (w w1 : world) (e : exn) :
  m w = (Raise e, w1) → bind m k w = (Raise e, w1).
Proof. unfold bind. by intros ->. Qed.

Lemma only_observes_ret {A} (a : A) : only_observes (ret a).
Proof. intros w. by exists a, w. Qed.

Lemma only_observes_bind {A B} (m : M A) (k : A → M B) :
  only_observes m → (∀ a, only_observes (k a)) → only_observes (bind m k).
Proof.
  intros Hm Hk w. destruct (Hm w) as (a & w1 & Hrun & Hobj).
  destruct (Hk a w1) as (b & w2 & Hrun' & Hobj').
  exists b, w2. rewrite (bind_run _ _ _ _ _ Hrun). split; [done|congruence].
Qed.

Lemma only_observes_logger (lvl : level) (msg : message) :
  only_observes (logger lvl msg).
Proof. intros w. by eexists _, _. Qed.

Lemma only_observes_read_clock : only_observes read_clock.
Proof. intros w. by eexists _, _. Qed.

Lemma only_observes_now (env : environment) : only_observes (now env).
Proof.
  apply only_observes_bind; [apply only_observes_read_clock|].
  intros n. apply only_observes_ret.
Qed.

Lemma only_observes_prometheus (env : environment) (ev : telemetry_event) :
  only_observes (prometheus env ev).
Proof.
  unfold prometheus. destruct (Settings.prometheus_enabled _).
  - intros w. by eexists _, _.
  - apply only_observes_ret.
Qed.

Lemma only_observes_tracing_enter (env : environment) (span_name : string)
    (attributes : pydict) :
  only_observes (tracing_enter env span_name attributes).
Proof.
  apply only_observes_bind; [apply only_observes_read_clock|]. intros _.
  destruct (tracer_available env).
  - intros w. by eexists _, _.
  - apply only_observes_ret.
Qed.

Lemma only_observes_tracing_exit (env : environment) (exc : option exn) :
  only_observes (tracing_exit env exc).
Proof.
  unfold tracing_exit. destruct (tracer_available env).
  - apply only_observes_bind; [apply only_observes_read_clock|]. intros _.
    intros w. by eexists _, _.
  - apply only_observes_ret.
Qed.

Lemma only_observes_find_metrics_row (env : environment) (name : string) :
  only_observes (find_metrics_row env name).
Proof.
  unfold find_metrics_row. destruct (metrics_rows env name).
  - apply only_observes_ret.
  - apply only_observes_bind; [apply only_observes_logger|]. intros _.
    apply only_observes_ret.
Qed.

Lemma read_step_run (self : nat) (w : world) (st : StepAttrs.t) :
  step_objects w !! self = Some st → read_step self w = (Ok st, w).
Proof. unfold read_step. by intros ->. Qed.

Lemma read_registry_run (a : nat) (w : world) (r : FlowRegistry.t) :
  registries w !! a = Some r → read_registry a w = (Ok r, w).
Proof. unfold read_registry. by intros ->. Qed.

Lemma read_flow_run (self : nat) (w : world) (f : FlowAttrs.t) :
  flow_objects w !! self = Some f → read_flow self w = (Ok f, w).
Proof. unfold read_flow. by intros ->. Qed.


Lemma objects_fields (w w' : world) :
  objects w' = objects w →
  registries w' = registries w ∧ flow_objects w' = flow_objects w ∧
  step_objects w' = step_objects w ∧ _current_flow w' = _current_flow w ∧
  _current_step w' = _current_step w ∧
  _default_emitter w' = _default_emitter w ∧
  atexit_registered w' = atexit_registered w ∧ files w' = files w.
Proof. unfold objects. intros [= -> -> -> -> -> -> -> ->]. done. Qed.

Lemma try_except_run {A} (m : M A) (handler : exn → M A) (w w' : world) (a : A) :
  m w = (Ok a, w') → try_except m handler w = (Ok a, w').
Proof. unfold try_except. by intros ->. Qed.

Lemma try_except_raise {A} (m : M A) (handler : exn → M A) (w w' : world)
    (e : exn) :
  m w = (Raise e, w') → try_except m handler w = handler e w'.
Proof. unfold try_except. by intros ->. Qed.

Lemma try_finally_run {A} (m : M A) (cleanup : M unit) (w w' w'' : world)
    (r : outcome A) :
  m w = (r, w') → cleanup w' = (Ok tt, w'') →
  try_finally m cleanup w = (r, w'').
Proof. unfold try_finally. by intros -> ->. Qed.

Lemma try_finally_raise {A} (m : M A) (cleanup : M unit) (w w' w'' : world)
    (r : outcome A) (e : exn) :
  m w = (r, w') → cleanup w' = (Raise e, w'') →
  try_finally m cleanup w = (Raise e, w'').
Proof. unfold try_finally. by intros -> ->. Qed.

Lemma set_step_token_same (st : StepAttrs.t) :
  StepAttrs.set_step_token (StepAttrs._step_token st) st = st.
Proof. by destruct st. Qed.

Lemma set_token_same (f : FlowAttrs.t) :
  FlowAttrs.set_token (FlowAttrs._token f) f = f.
Proof. by destruct f. Qed.

Lemma build_run_facets_run (env : environment) (self : nat) (success : bool)
    (wall_time : nat) (w : world) (st : StepAttrs.t) :
  step_objects w !! self = Some st →
  ∃ facets w', Step._build_run_facets env self success wall_time w =
                 (Ok facets, w') ∧ objects w' = objects w.
Proof.
  intros Hst. unfold Step._build_run_facets.
  rewrite (bind_run _ _ _ _ _ (read_step_run _ _ _ Hst)).
  destruct (only_observes_find_metrics_row env (StepAttrs.name st) w)
    as (row & w1 & Hrow & Hobj).
  rewrite (bind_run _ _ _ _ _ Hrow). by eexists _, _.
Qed.


Lemma alter_registry (f : FlowRegistry.t → FlowRegistry.t) (a : nat)
    (m : gmap nat FlowRegistry.t) (r : FlowRegistry.t) :
  m !! a = Some r → alter f a m = <[a := f r]> m.
Proof.
  intros Hr. apply map_eq. intros b. destruct (decide (b = a)) as [->|Hne].
  - by rewrite lookup_alter_eq, lookup_insert_eq, Hr.
  - by rewrite lookup_alter_ne, lookup_insert_ne.
Qed.

Lemma call_update_task_status_run (env : environment) (a : nat)
    (name run_id status : string) (inputs outputs contracts : list pydict)
    (w : world) (r : FlowRegistry.t) :
  registries w !! a = Some r →
  ∃ n w',
    call_update_task_status env a name run_id status inputs outputs contracts w
      = (Ok tt, w') ∧
    registries w' =
      <[a := FlowRegistry.update_task_status r name run_id status
               (Some inputs) (Some outputs) (Some contracts)
               (now_iso_zulu env n)]> (registries w) ∧
    flow_objects w' = flow_objects w ∧ step_objects w' = step_objects w ∧
    _current_flow w' = _current_flow w ∧ _current_step w' = _current_step w ∧
    files w' = files w ∧ atexit_registered w' = atexit_registered w ∧
    _default_emitter w' = _default_emitter w.
Proof.
  intros Hr. unfold call_update_task_status.
  rewrite (bind_run _ _ _ _ _ (read_registry_run _ _ _ Hr)).
  destruct (FlowRegistry.get_task_index r name (Some run_id)) as [k|] eqn:Hk.
  - unfold now, bind, read_clock, ret, update_registry, modify.
    exists (clock_readings w). eexists. split; [reflexivity|].
    cbn. split_and!; try done.
    by rewrite (alter_registry _ a _ r Hr).
  - exists 0%nat, w. split; [done|]. split_and!; try done.
    unfold FlowRegistry.update_task_status. rewrite Hk.
    by rewrite insert_id.
Qed.

Lemma emit_event_cases (env : environment) (self : OpenLineageEmitter.t)
    (event_type run_id job_name : string) (inputs outputs : list DatasetRef.t)
    (run_facets : option pydict) (w : world) :
  ∃ w', objects w' = objects w ∧
    ((∃ sent, emit_event env self event_type run_id job_name inputs outputs
                run_facets w = (Ok sent, w')) ∨
     (OpenLineageEmitter.client self = false ∧
      emit_event env self event_type run_id job_name inputs outputs
        run_facets w =
      (Raise (TypeError "Object is not JSON serializable"), w'))).
Proof.
  unfold emit_event, now, bind, read_clock, logger, modify, ret, raise.
  destruct (OpenLineageEmitter.client self).
  - destruct (client_emit_fails env); eexists; (split; [|left; by eexists]); done.
  - match goal with
    | |- context [json_serializable ?v] => destruct (json_serializable v)
    end.
    + eexists; (split; [|left; by eexists]); done.
    + eexists; (split; [|right; by split]); done.
Qed.

Ltac observes :=
  repeat first
    [ apply only_observes_ret | apply only_observes_logger
    | apply only_observes_prometheus | apply only_observes_tracing_exit
    | apply only_observes_read_clock | apply only_observes_now
    | apply only_observes_bind; [|intros ?]
    | match goal with
      | |- only_observes (if ?b then _ else _) => destruct b
      | |- only_observes (match ?x with _ => _ end) => destruct x
      end ].

Lemma json_serializable_dict_set (k : string) (v : pyval) (d : pydict) :
  json_serializable v = true → json_serializable (PDict d) = true →
  json_serializable (PDict (dict_set k v d)) = true.
Proof.
  intros Hv. induction d as [|[k' v'] d IH]; cbn [dict_set].
  - intros _. cbn. by rewrite Hv.
  - cbn [json_serializable forallb snd] in IH |- *.
    intros [Hv' Hd]%andb_true_iff.
    destruct (String.eqb k k'); cbn [forallb snd].
    + by rewrite Hv, Hd.
    + by rewrite Hv', IH.
Qed.

Lemma json_serializable_dict_get (k : string) (d : pydict) (default : pyval) :
  json_serializable default = true → json_serializable (PDict d) = true →
  json_serializable (dict_get k d default) = true.
Proof.
  intros Hdef. unfold dict_get. induction d as [|[k' v'] d IH]; [done|].
  cbn [json_serializable forallb snd dict_lookup] in IH |- *.
  intros [Hv' Hd]%andb_true_iff.
  destruct (String.eqb k k'); [done|]. by apply IH.
Qed.

Lemma json_serializable_prepare_facets (facets : pydict) :
  json_serializable (PDict facets) = true →
  json_serializable (_prepare_facets (Some facets)) = true.
Proof.
  destruct facets as [|kv facets]; [done|].
  unfold _prepare_facets. generalize (kv :: facets). clear. intros fs.
  cbn [json_serializable]. induction fs as [|[k v] fs IH]; [done|].
  cbn [forallb map snd fst]. intros [Hv Hfs]%andb_true_iff.
  rewrite (IH Hfs), andb_true_r.
  destruct v; try done.
  apply json_serializable_dict_set; [done|].
  by apply json_serializable_dict_set.
Qed.

#[local] Opaque dict_set.

Lemma build_run_facets_printable (env : environment) (self : nat)
    (success : bool) (wall_time : nat) (w w' : world) (st : StepAttrs.t)
    (facets : pydict) :
  step_objects w !! self = Some st →
  printable_metrics env (StepAttrs.name st) = true →
  forallb (λ c, json_serializable (PDict c)) (StepAttrs.contracts st) = true →
  Step._build_run_facets env self success wall_time w = (Ok facets, w') →
  json_serializable (_prepare_facets (Some facets)) = true.
Proof.
  intros Hst Hrow Hcon. unfold Step._build_run_facets.
  rewrite (bind_run _ _ _ _ _ (read_step_run _ _ _ Hst)).
  unfold printable_metrics in Hrow. unfold find_metrics_row.
  assert (json_serializable
            (PDict [("contracts", PList (map PDict (StepAttrs.contracts st)))])
          = true) as Hc.
  { cbn [json_serializable forallb snd]. rewrite andb_true_r.
    by rewrite (forallb_map_ext _ _ (λ c, json_serializable (PDict c))). }
  assert (∀ v, json_serializable v = true →
            json_serializable (PDict
              (dict_set "performance" v
                 [("classification",
                   PDict [("component_type", PStr (StepAttrs.component_type st));
                          ("method", PStr (if negb (StepAttrs.component_type st =? "auto")
                                           then "manual" else "auto"));
                          ("rationale", PStr (if negb (StepAttrs.component_type st =? "auto")
                                              then "Manually specified"
                                              else "Auto-classified"))])]))
            = true) as Hperf.
  { intros v Hv. by apply json_serializable_dict_set. }
  destruct (metrics_rows env (StepAttrs.name st)) as [row|].
  - unfold bind, ret. intros [= <- _].
    apply json_serializable_prepare_facets.
    destruct row as [|kv row].
    { destruct (StepAttrs.contracts st) as [|c cs];
        [|apply json_serializable_dict_set; [exact Hc|]]; by apply Hperf. }
    set (full := kv :: row) in *.
    assert (json_serializable (PDict
              (default [] (performance_from_metrics_row full))) = true) as Hp.
    { subst full. cbv [performance_from_metrics_row default from_option id].
      cbn [json_serializable forallb snd].
      rewrite !json_serializable_dict_get; done. }
    assert (json_serializable (PDict
              (default [] (reliability_from_metrics_row full))) = true) as Hq.
    { subst full. unfold reliability_from_metrics_row.
      destruct (dict_lookup "reliability_attempts" (kv :: row)); [|done].
      cbv [default from_option id]. cbn [json_serializable forallb snd].
      rewrite !json_serializable_dict_get; done. }
    destruct (StepAttrs.contracts st) as [|c cs];
      [|apply json_serializable_dict_set; [exact Hc|]].
    all: destruct (reliability_from_metrics_row full) as [rel|];
           [apply json_serializable_dict_set;
              [by apply json_serializable_dict_set|]|].
    all: destruct (performance_from_metrics_row full) as [perf|]; [|done].
    all: apply Hperf; cbv [default from_option id] in Hp.
    all: destruct (dict_get "wall_time_seconds" perf PNone); try done.
    all: by apply json_serializable_dict_set.
  - unfold bind, logger, modify, ret. intros [= <- _].
    apply json_serializable_prepare_facets.
    destruct (StepAttrs.contracts st) as [|c cs];
      [|apply json_serializable_dict_set; [exact Hc|]].
    all: by apply Hperf.
Qed.

#[local] Transparent dict_set.

Lemma emit_event_printable (env : environment) (self : OpenLineageEmitter.t)
    (event_type run_id job_name : string) (inputs outputs : list DatasetRef.t)
    (run_facets : option pydict) (w w' : world) (e : exn) :
  forallb (printable_dataset env) (inputs ++ outputs) = true →
  json_serializable (_prepare_facets run_facets) = true →
  emit_event env self event_type run_id job_name inputs outputs run_facets w
    ≠ (Raise e, w').
Proof.
  rewrite forallb_app. intros [Hin Hout]%andb_true_iff Hfacets.
  unfold emit_event, now, bind, read_clock, logger, modify, ret, raise.
  destruct (OpenLineageEmitter.client self).
  - by destruct (client_emit_fails env).
  - match goal with
    | |- context [json_serializable ?v] =>
        assert (json_serializable v = true) as ->; [|done]
    end.
    cbn [json_serializable forallb snd].
    rewrite Hfacets. cbn [_prepare_facets json_serializable andb].
    rewrite !(forallb_map_ext _ _ (printable_dataset env)) by done.
    by rewrite Hin, Hout.
Qed.

Lemma tracing_exit_run (env : environment) (exc : option exn) (w : world) :
  ∃ w', tracing_exit env exc w = (Ok tt, w') ∧ objects w' = objects w ∧
        log w' = log w.
Proof.
  unfold tracing_exit, bind, read_clock, modify, ret.
  destruct (tracer_available env); by eexists.
Qed.

Lemma step_exit_effect (env : environment) (self : nat) (exc : option exn)
    (w : world) (st : StepAttrs.t) (a : nat) (r : FlowRegistry.t) :
  step_objects w !! self = Some st →
  StepAttrs.flow_registry st = Some a →
  registries w !! a = Some r →
  ∃ w',
    Step.__exit__ env self exc w =
      (if reset_raises (StepAttrs._step_token st)
       then Raise token_used else Ok false, w') ∧
    flow_objects w' = flow_objects w ∧
    step_objects w' =
      (if reset_raises (StepAttrs._step_token st) then step_objects w
       else <[self := StepAttrs.set_step_token
                        (spent (StepAttrs._step_token st)) st]> (step_objects w)) ∧
    _current_flow w' = _current_flow w ∧ files w' = files w ∧
    atexit_registered w' = atexit_registered w ∧
    _default_emitter w' = _default_emitter w ∧
    _current_step w' =
      (if reset_raises (StepAttrs._step_token st) then _current_step w
       else default (_current_step w) (old_value <$> StepAttrs._step_token st)) ∧
    ((∃ n, registries w' =
           <[a := finalized r st (bool_decide (exc = None)) (now_iso_zulu env n)]>
             (registries w)) ∨
     (registries w' = registries w ∧
      OpenLineageEmitter.client (StepAttrs._emitter st) = false ∧
      last (log w') = Some (ERROR, WithError "Error in step cleanup: "
                (TypeError "Object is not JSON serializable")) )) ∧
    (emission_returns env st = true →
     ∃ n, registries w' =
          <[a := finalized r st (bool_decide (exc = None)) (now_iso_zulu env n)]>
            (registries w)).
Proof.
  intros Hst Hflow Hr. unfold Step.__exit__.
  rewrite (bind_run _ _ _ _ _ (read_step_run _ _ _ Hst)).
  assert (only_observes
            match StepAttrs._start_time st with
            | Some start => bind read_clock (λ t, ret (t - start)%nat)
            | None => ret 0%nat
            end) as Hwall.
  { destruct (StepAttrs._start_time st).
    - apply only_observes_bind; [apply only_observes_read_clock|].
      intros t. apply only_observes_ret.
    - apply only_observes_ret. }
  destruct (Hwall w) as (wall_time & w1 & Hrun1 & Hobj1). clear Hwall.
  rewrite (bind_run _ _ _ _ _ Hrun1). clear Hrun1.
  apply objects_fields in Hobj1 as (Hreg1 & Hfl1 & Hso1 & Hcf1 & Hcs1 & Hde1 & Hat1 & Hfiles1).
  match goal with
  | |- context [try_except ?m ?h] => set (body := m); set (handler := h)
  end.
  assert (∃ w2,
    try_except body handler w1 = (Ok tt, w2) ∧
    flow_objects w2 = flow_objects w ∧ step_objects w2 = step_objects w ∧
    _current_flow w2 = _current_flow w ∧ files w2 = files w ∧
    atexit_registered w2 = atexit_registered w ∧
    _default_emitter w2 = _default_emitter w ∧
    _current_step w2 = _current_step w ∧
    ((∃ n, registries w2 =
           <[a := finalized r st (bool_decide (exc = None)) (now_iso_zulu env n)]>
             (registries w)) ∨
     (registries w2 = registries w ∧
      OpenLineageEmitter.client (StepAttrs._emitter st) = false ∧
      last (log w2) = Some (ERROR, WithError "Error in step cleanup: "
                (TypeError "Object is not JSON serializable")))) ∧
    (emission_returns env st = true →
     ∃ n, registries w2 =
          <[a := finalized r st (bool_decide (exc = None)) (now_iso_zulu env n)]>
            (registries w))) as (w2 & Htry & Hfl2 & Hso2 & Hcf2 & Hfiles2 & Hat2 & Hde2 & Hcs2 & Hreg2).
  { subst body handler.
    destruct (build_run_facets_run env self (bool_decide (exc = None))
                wall_time w1 st) as (facets & w2 & Hfacets & Hobj2);
      [by rewrite Hso1|].
    apply objects_fields in Hobj2 as (Hreg2 & Hfl2 & Hso2 & Hcf2 & Hcs2 & Hde2 & Hat2 & Hfiles2).
    rewrite Hreg1 in Hreg2. rewrite Hfl1 in Hfl2. rewrite Hso1 in Hso2.
    rewrite Hcf1 in Hcf2. rewrite Hcs1 in Hcs2. rewrite Hfiles1 in Hfiles2.
    rewrite Hde1 in Hde2. rewrite Hat1 in Hat2.
    unfold try_except. rewrite (bind_run _ _ _ _ _ Hfacets).
    rewrite (bind_run _ _ _ _ _ (read_step_run self w2 st ltac:(by rewrite Hso2))).
    unfold flow_name at 1. rewrite Hflow.
    rewrite (bind_run _ _ w2 w2 (Some (FlowRegistry.name r))); cycle 1.
    { by rewrite (bind_run _ _ _ _ _ (read_registry_run a w2 r
                                        ltac:(by rewrite Hreg2))). }
    match goal with
    | |- context [emit_event ?e ?s ?t ?i ?j ?ins ?outs ?f] =>
        destruct (emit_event_cases e s t i j ins outs f w2)
          as (w3 & Hobj3 & [[sent Hemit]|[Hclient Hemit]])
    end;
      apply objects_fields in Hobj3
        as (Hreg3 & Hfl3 & Hso3 & Hcf3 & Hcs3 & Hde3 & Hat3 & Hfiles3).
    - rewrite (bind_run _ _ _ _ _ Hemit). cbv beta iota.
      destruct (call_update_task_status_run env a (StepAttrs.name st)
                  (StepAttrs.run_id st)
                  (if bool_decide (exc = None) then "SUCCESS" else "FAILED")
                  (map DatasetRef.to_dict (StepAttrs.inputs st))
                  (map DatasetRef.to_dict (StepAttrs.outputs st))
                  (StepAttrs.contracts st) w3 r)
        as (n & w4 & Hupd & Hreg4 & Hfl4 & Hso4 & Hcf4 & Hcs4 & Hfiles4 & Hat4 & Hde4);
        [by rewrite Hreg3, Hreg2|].
      rewrite Hreg3, Hreg2 in Hreg4.
      match goal with
      | |- context [bind (bind (call_update_task_status _ _ _ _ _ _ _ _) ?k) _ w3] =>
          assert (∃ w5, bind (call_update_task_status env a (StepAttrs.name st)
                  (StepAttrs.run_id st)
                  (if bool_decide (exc = None) then "SUCCESS" else "FAILED")
                  (map DatasetRef.to_dict (StepAttrs.inputs st))
                  (map DatasetRef.to_dict (StepAttrs.outputs st))
                  (StepAttrs.contracts st)) k w3 = (Ok tt, w5) ∧
            registries w5 =
              <[a := finalized r st (bool_decide (exc = None)) (now_iso_zulu env n)]>
                (registries w) ∧
            flow_objects w5 = flow_objects w4 ∧ step_objects w5 = step_objects w4 ∧
            _current_flow w5 = _current_flow w4 ∧
            _current_step w5 = _current_step w4 ∧ files w5 = files w4 ∧
            atexit_registered w5 = atexit_registered w4 ∧
            _default_emitter w5 = _default_emitter w4)
            as (w5 & Hpop & Hreg5 & Hfl5 & Hso5 & Hcf5 & Hcs5 & Hfiles5 & Hat5 & Hde5)
      end.
      { rewrite (bind_run _ _ _ _ _ Hupd).
        rewrite (bind_run _ _ _ _ _ (read_registry_run a w4 _
                   ltac:(by rewrite Hreg4, lookup_insert_eq))).
        unfold finalized.
        destruct (bool_decide (last _ = _)).
        - unfold update_registry, modify. eexists. split; [reflexivity|].
          cbn. split_and!; try done.
          rewrite Hreg4.
          rewrite (alter_registry _ a _ _ (lookup_insert_eq _ _ _)).
          by rewrite insert_insert_eq.
        - by exists w4. }
      rewrite (bind_run _ _ _ _ _ Hpop).
      match goal with
      | |- context [bind ?m ?k w5] =>
          assert (only_observes (bind m k)) as Htail by observes
      end.
      destruct (Htail w5) as ([] & w6 & -> & Hobj6).
      apply objects_fields in Hobj6
        as (Hreg6 & Hfl6 & Hso6 & Hcf6 & Hcs6 & Hde6 & Hat6 & Hfiles6).
      exists w6. split; [done|].
      split_and!; try congruence.
      + left. exists n. congruence.
      + intros _. exists n. congruence.
    - rewrite (bind_raise _ _ _ _ _ Hemit).
      eexists. split; [reflexivity|]. cbn.
      split_and!; try congruence.
      + right. split_and!; [congruence|done|]. by rewrite last_snoc.
      + unfold emission_returns. rewrite Hclient. cbn [orb].
        intros [[Hds Hrow]%andb_true_iff Hcon]%andb_true_iff. exfalso.
        eapply emit_event_printable; [exact Hds| |exact Hemit].
        eapply build_run_facets_printable; [|exact Hrow|exact Hcon|exact Hfacets].
        by rewrite Hso1. }
  match goal with
  | |- context [try_finally _ ?c] => set (cleanup := c)
  end.
  assert (∃ w3,
    cleanup w2 =
      (if reset_raises (StepAttrs._step_token st)
       then Raise token_used else Ok tt, w3) ∧
    registries w3 = registries w2 ∧ flow_objects w3 = flow_objects w2 ∧
    _current_flow w3 = _current_flow w2 ∧ files w3 = files w2 ∧
    atexit_registered w3 = atexit_registered w2 ∧
    _default_emitter w3 = _default_emitter w2 ∧ log w3 = log w2 ∧
    step_objects w3 =
      (if reset_raises (StepAttrs._step_token st) then step_objects w2
       else <[self := StepAttrs.set_step_token
                        (spent (StepAttrs._step_token st)) st]> (step_objects w2)) ∧
    _current_step w3 =
      (if reset_raises (StepAttrs._step_token st) then _current_step w2
       else default (_current_step w2) (old_value <$> StepAttrs._step_token st)))
    as (w3 & Hclean & Hreg3 & Hfl3 & Hcf3 & Hfiles3 & Hat3 & Hde3 & Hlog3
        & Hso3 & Hcs3).
  { subst cleanup.
    rewrite (bind_run _ _ _ _ _ (read_step_run self w2 st ltac:(by rewrite Hso2))).
    assert (∃ w3, match StepAttrs._tracing_context st with
                  | Some _ => tracing_exit env exc
                  | None => ret tt
                  end w2 = (Ok tt, w3) ∧ objects w3 = objects w2 ∧
                  log w3 = log w2) as (w3 & Htr & Hobj3 & Hlog3).
    { destruct (StepAttrs._tracing_context st).
      - apply tracing_exit_run.
      - by exists w2. }
    rewrite (bind_run _ _ _ _ _ Htr).
    apply objects_fields in Hobj3 as (? & ? & Hso3 & ? & ? & ? & ? & ?).
    destruct (StepAttrs._step_token st) as [tok|] eqn:Htok; cbn.
    - destruct (used tok) eqn:Hused.
      + exists w3. by split_and!.
      + eexists. split; [reflexivity|]. cbn. split_and!; try done.
        rewrite Hso3. apply map_eq. intros i.
        destruct (decide (i = self)) as [->|Hne].
        * rewrite lookup_alter_eq, lookup_insert_eq.
          by rewrite Hso2, Hst.
        * by rewrite lookup_alter_ne, lookup_insert_ne.
    - exists w3. split_and!; try done.
      rewrite Hso3. symmetry. apply insert_id.
      rewrite Hso2, Hst. f_equal. rewrite <- Htok.
      symmetry. apply set_step_token_same. }
  exists w3. destruct Hreg2 as [Hreg2 Hclient].
  split.
  { destruct (reset_raises (StepAttrs._step_token st)).
    - rewrite (bind_raise _ _ _ _ _ (try_finally_raise _ _ _ _ _ _ _ Htry Hclean)).
      done.
    - by rewrite (bind_run _ _ _ _ _ (try_finally_run _ _ _ _ _ _ Htry Hclean)). }
  rewrite Hreg3, Hlog3, Hso3, Hcs3, Hso2, Hcs2.
  split_and!; try congruence; done.
Qed.

Lemma step_init_run (env : environment) (name ct : string)
    (ns : option string) (tags : option pydict) (w : world) :
  ct ∈ COMPONENT_TYPES ∨ ct = "auto" →
  ∃ self w1 st,
    Step.__init__ env name ct ns tags w = (Ok self, w1) ∧
    step_objects w1 !! self = Some st ∧
    StepAttrs.name st = name ∧ StepAttrs.component_type st = ct ∧
    StepAttrs.tags st = default [] tags ∧
    StepAttrs.inputs st = [] ∧ StepAttrs.outputs st = [] ∧
    StepAttrs.contracts st = [] ∧
    StepAttrs.flow_registry st = _current_flow w ∧
    OpenLineageEmitter.client (StepAttrs._emitter st) = emitter_has_client env w ∧
    registries w1 = registries w ∧ flow_objects w1 = flow_objects w ∧
    _current_flow w1 = _current_flow w ∧ _current_step w1 = _current_step w ∧
    files w1 = files w ∧ atexit_registered w1 = atexit_registered w ∧
    emitter_has_client env w1 = emitter_has_client env w.
Proof.
  intros Hvalid. unfold Step.__init__.
  assert (negb (bool_decide (ct ∈ COMPONENT_TYPES)) && negb (String.eqb ct "auto") = false)
    as ->.
  { destruct Hvalid as [Hin| ->].
    - by rewrite bool_decide_eq_true_2.
    - by rewrite andb_false_r. }
  unfold emitter_has_client, bind, generate_run_id, get_world, get_emitter,
    new_emitter, logger, modify, ret, bind. simpl.
  destruct (_default_emitter w) as [e|] eqn:He; simpl.
  - eexists _, _, _. split; [reflexivity|]. simpl.
    rewrite lookup_insert_eq, He. done.
  - destruct (String.eqb (Settings.ol_url (settings env)) ""); simpl.
    + eexists _, _, _. split; [reflexivity|]. simpl.
      rewrite lookup_insert_eq. done.
    + destruct (openlineage_importable env); simpl.
      * destruct (client_construction_fails env); simpl;
          (eexists _, _, _; split; [reflexivity|]; simpl;
           rewrite lookup_insert_eq; done).
      * eexists _, _, _. split; [reflexivity|]. simpl.
        rewrite lookup_insert_eq. done.
Qed.

Lemma emit_event_start_run (env : environment) (e : OpenLineageEmitter.t)
    (run_id job_name : string) (w : world) :
  ∃ sent w',
    emit_event env e "START" run_id job_name [] [] None w = (Ok sent, w') ∧
    objects w' = objects w.
Proof.
  unfold emit_event, bind, now, read_clock, logger, modify, ret, bind. simpl.
  destruct (OpenLineageEmitter.client e); simpl.
  - destruct (client_emit_fails env); simpl; eexists _, _; split; done.
  - eexists _, _. split; done.
Qed.

Lemma step_enter_run (env : environment) (self : nat) (w : world)
    (st : StepAttrs.t) (a : nat) (r : FlowRegistry.t) :
  step_objects w !! self = Some st →
  StepAttrs.flow_registry st = Some a →
  registries w !! a = Some r →
  ∃ w' st' started_at,
    Step.__enter__ env self w = (Ok self, w') ∧
    registries w' =
      <[a := FlowRegistry.set_task_stack
               (FlowRegistry._task_stack r ++ [StepAttrs.name st])
               (FlowRegistry.add_task r
                  (TaskSpec.mk (StepAttrs.name st) (StepAttrs.component_type st)
                     [] [] [] (StepAttrs.tags st) (Some started_at) None
                     (Some "RUNNING") (Some (StepAttrs.run_id st))
                     (last (FlowRegistry._task_stack r))))]> (registries w) ∧
    step_objects w' !! self = Some st' ∧
    StepAttrs.name st' = StepAttrs.name st ∧
    StepAttrs.run_id st' = StepAttrs.run_id st ∧
    StepAttrs.inputs st' = StepAttrs.inputs st ∧
    StepAttrs.outputs st' = StepAttrs.outputs st ∧
    StepAttrs.contracts st' = StepAttrs.contracts st ∧
    StepAttrs.flow_registry st' = StepAttrs.flow_registry st ∧
    StepAttrs._emitter st' = StepAttrs._emitter st ∧
    StepAttrs._step_token st' = Some (mkToken (_current_step w) false) ∧
    _current_step w' = Some self ∧
    flow_objects w' = flow_objects w ∧ _current_flow w' = _current_flow w ∧
    files w' = files w ∧ atexit_registered w' = atexit_registered w ∧
    _default_emitter w' = _default_emitter w.
Proof.
  intros Hst Hflow Hr.
  unfold Step.__enter__, bind, read_clock, update_step, modify, get_world,
    read_step, flow_name, read_registry, ret, bind. simpl.
  rewrite !lookup_alter_eq, Hst. simpl. rewrite Hflow.
  unfold set_step_objects, set_current_step, set_clock_readings. simpl.
  rewrite Hr. simpl.
  unfold tracing_enter, bind, read_clock, modify, ret,
    set_step_objects, set_clock_readings, set_telemetry, now, update_registry,
    modify, bind.
  destruct (tracer_available env); simpl; rewrite Hr; simpl.
  all: match goal with
    | |- context [emit_event ?env ?e "START" ?rid ?job [] [] None ?w0] =>
        destruct (emit_event_start_run env e rid job w0)
          as (sent & w1 & -> & Hobj)
    end.
  all: apply objects_fields in Hobj
         as (Hreg & Hfl & Hso & Hcf & Hcs & Hde & Hat & Hfiles).
  all: cbn in Hreg, Hfl, Hso, Hcf, Hcs, Hde, Hat, Hfiles.
  all: unfold prometheus, modify, logger, ret.
  all: destruct (Settings.prometheus_enabled (settings env)); simpl.
  all: eexists _, _, _; split; [reflexivity|]; simpl.
  all: rewrite Hreg, Hfl, Hso, Hcf, Hcs, Hde, Hat, Hfiles.
  all: rewrite !lookup_alter_eq, Hst; simpl.
  all: split_and!; try done.
  all: rewrite (alter_registry _ a _ _ Hr).
  all: rewrite (alter_registry _ a _ _ (lookup_insert_eq _ _ _)).
  all: by rewrite insert_insert_eq.
Qed.

Lemma marks_run (self : nat) (ms : list marking) (w : world) (st : StepAttrs.t) :
  _current_step w = Some self →
  step_objects w !! self = Some st →
  ∃ w' st',
    for_each mark ms w = (Ok tt, w') ∧
    step_objects w' !! self = Some st' ∧
    StepAttrs.inputs st' = StepAttrs.inputs st ++ marked_inputs ms ∧
    StepAttrs.outputs st' = StepAttrs.outputs st ++ marked_outputs ms ∧
    StepAttrs.name st' = StepAttrs.name st ∧
    StepAttrs.run_id st' = StepAttrs.run_id st ∧
    StepAttrs.contracts st' = StepAttrs.contracts st ∧
    StepAttrs.flow_registry st' = StepAttrs.flow_registry st ∧
    StepAttrs._emitter st' = StepAttrs._emitter st ∧
    StepAttrs._step_token st' = StepAttrs._step_token st ∧
    registries w' = registries w ∧ flow_objects w' = flow_objects w ∧
    _current_flow w' = _current_flow w ∧ _current_step w' = _current_step w ∧
    files w' = files w ∧ atexit_registered w' = atexit_registered w ∧
    _default_emitter w' = _default_emitter w.
Proof.
  revert w st. induction ms as [|m ms IH]; intros w st Hcur Hst.
  - exists w, st. rewrite !app_nil_r. by split_and!.
  - set (st1 := match m with
                | Input ds => StepAttrs.set_inputs (StepAttrs.inputs st ++ [ds]) st
                | Output ds => StepAttrs.set_outputs (StepAttrs.outputs st ++ [ds]) st
                end).
    assert (∃ w1, mark m w = (Ok tt, w1) ∧
              step_objects w1 !! self = Some st1 ∧
              registries w1 = registries w ∧ flow_objects w1 = flow_objects w ∧
              _current_flow w1 = _current_flow w ∧
              _current_step w1 = _current_step w ∧ files w1 = files w ∧
              atexit_registered w1 = atexit_registered w ∧
              _default_emitter w1 = _default_emitter w)
      as (w1 & Hmark & Hst1 & Hreg1 & Hfl1 & Hcf1 & Hcs1 & Hfiles1 & Hat1 & Hde1).
    { destruct m as [ds|ds]; cbn [mark].
      - unfold mark_input, current_step, get_world, bind, ret. rewrite Hcur.
        unfold Step.mark_input, update_step, logger, modify, bind.
        eexists. split; [reflexivity|]. cbn.
        by rewrite lookup_alter_eq, Hst.
      - unfold mark_output, current_step, get_world, bind, ret. rewrite Hcur.
        unfold Step.mark_output, update_step, logger, modify, bind.
        eexists. split; [reflexivity|]. cbn.
        by rewrite lookup_alter_eq, Hst. }
    destruct (IH w1 st1 ltac:(congruence) Hst1)
      as (w' & st' & Hrun & Hst' & Hin & Hout & Hname & Hrid & Hcon & Hfr & Hem
          & Htok & Hreg & Hfl & Hcf & Hcs & Hfiles & Hat & Hde).
    exists w', st'. cbn [for_each foldr].
    rewrite (bind_run _ _ _ _ _ Hmark). split; [exact Hrun|].
    split; [done|].
    subst st1. unfold marked_inputs, marked_outputs in *.
    destruct m as [ds|ds]; cbn in *;
      rewrite <- ?app_assoc in *; cbn in *; split_and!; congruence.
Qed.

Lemma alter_snoc {A} (f : A → A) (l : list A) (x : A) :
  alter f (length l) (l ++ [x]) = l ++ [f x].
Proof. induction l as [|y l IH]; [done|]. cbn. by f_equal. Qed.

Lemma finalized_entered (r : FlowRegistry.t) (st st3 : StepAttrs.t)
    (success : bool) (started_at now : string) :
  StepAttrs.name st3 = StepAttrs.name st →
  StepAttrs.run_id st3 = StepAttrs.run_id st →
  finalized
    (FlowRegistry.set_task_stack
       (FlowRegistry._task_stack r ++ [StepAttrs.name st])
       (FlowRegistry.add_task r
          (TaskSpec.mk (StepAttrs.name st) (StepAttrs.component_type st)
             [] [] [] (StepAttrs.tags st) (Some started_at) None
             (Some "RUNNING") (Some (StepAttrs.run_id st))
             (last (FlowRegistry._task_stack r)))))
    st3 success now =
  FlowRegistry.set_tasks
    (FlowRegistry.tasks r ++
     [TaskSpec.mk (StepAttrs.name st) (StepAttrs.component_type st)
        (map DatasetRef.to_dict (StepAttrs.inputs st3))
        (map DatasetRef.to_dict (StepAttrs.outputs st3))
        (StepAttrs.contracts st3) (StepAttrs.tags st) (Some started_at)
        (Some now) (Some (if success then "SUCCESS" else "FAILED"))
        (Some (StepAttrs.run_id st)) (last (FlowRegistry._task_stack r))]) r.
Proof.
  intros Hname Hrid. unfold finalized, FlowRegistry.update_task_status.
  rewrite Hname, Hrid.
  rewrite (get_task_index_snoc r _
             (TaskSpec.mk (StepAttrs.name st) (StepAttrs.component_type st)
                [] [] [] (StepAttrs.tags st) (Some started_at) None
                (Some "RUNNING") (Some (StepAttrs.run_id st))
                (last (FlowRegistry._task_stack r)))) by reflexivity.
  unfold FlowRegistry.task_matches. cbn [TaskSpec.name TaskSpec.run_id].
  rewrite !String.eqb_refl. cbn [andb].
  cbn [FlowRegistry.set_task_stack FlowRegistry.add_task FlowRegistry.set_tasks
       FlowRegistry.tasks FlowRegistry._task_stack FlowRegistry.name
       FlowRegistry.run_id FlowRegistry.started_at FlowRegistry.finished_at
       FlowRegistry.status].
  rewrite last_snoc, bool_decide_eq_true_2 by done.
  rewrite alter_snoc, length_app. cbn [length default].
  replace (length (FlowRegistry._task_stack r) + 1 - 1)%nat
    with (length (FlowRegistry._task_stack r)) by lia.
  by rewrite take_app_length.
Qed.

Lemma marking_step_effect (env : environment) (name ct : string)
    (ms : list marking) (exc : option exn) (w : world) (a : nat)
    (r : FlowRegistry.t) :
  ct ∈ COMPONENT_TYPES ∨ ct = "auto" →
  _current_flow w = Some a →
  registries w !! a = Some r →
  emitter_has_client env w = true ∨
  (forallb (printable_dataset env) (marked_inputs ms ++ marked_outputs ms) = true ∧
   printable_metrics env name = true) →
  ∃ w' task,
    marking_step env name ct ms exc w =
      (match exc with Some e => Raise e | None => Ok (Some tt) end, w') ∧
    registries w' =
      <[a := FlowRegistry.set_tasks (FlowRegistry.tasks r ++ [task]) r]>
        (registries w) ∧
    TaskSpec.name task = name ∧ TaskSpec.component_type task = ct ∧
    TaskSpec.inputs task = map DatasetRef.to_dict (marked_inputs ms) ∧
    TaskSpec.outputs task = map DatasetRef.to_dict (marked_outputs ms) ∧
    TaskSpec.contracts task = [] ∧
    TaskSpec.status task = Some (if exc is Some _ then "FAILED" else "SUCCESS") ∧
    is_Some (TaskSpec.started_at task) ∧ is_Some (TaskSpec.finished_at task) ∧
    TaskSpec.parent task = last (FlowRegistry._task_stack r) ∧
    _current_step w' = _current_step w ∧ _current_flow w' = _current_flow w ∧
    files w' = files w ∧ flow_objects w' = flow_objects w ∧
    atexit_registered w' = atexit_registered w ∧
    emitter_has_client env w' = emitter_has_client env w ∧
    TaskSpec.tags task = [].
Proof.
  intros Hvalid Hflow Hr Hclient.
  destruct (step_init_run env name ct None None w Hvalid)
    as (self & w1 & st & Hinit & Hst & Hname & Hct & Htags & Hin & Hout & Hcon
        & Hfr & Hem & Hreg1 & Hfl1 & Hcf1 & Hcs1 & Hfiles1 & Hat1 & Hde1).
  destruct (step_enter_run env self w1 st a r Hst ltac:(congruence)
              ltac:(by rewrite Hreg1))
    as (w2 & st2 & started_at & Henter & Hreg2 & Hst2 & Hname2 & Hrid2 & Hin2
        & Hout2 & Hcon2 & Hfr2 & Hem2 & Htok2 & Hcs2 & Hfl2 & Hcf2 & Hfiles2
        & Hat2 & Hde2).
  destruct (marks_run self ms w2 st2 Hcs2 Hst2)
    as (w3 & st3 & Hmarks & Hst3 & Hin3 & Hout3 & Hname3 & Hrid3 & Hcon3 & Hfr3
        & Hem3 & Htok3 & Hreg3 & Hfl3 & Hcf3 & Hcs3 & Hfiles3 & Hat3 & Hde3).
  set (r2 := FlowRegistry.set_task_stack
               (FlowRegistry._task_stack r ++ [StepAttrs.name st])
               (FlowRegistry.add_task r
                  (TaskSpec.mk (StepAttrs.name st) (StepAttrs.component_type st)
                     [] [] [] (StepAttrs.tags st) (Some started_at) None
                     (Some "RUNNING") (Some (StepAttrs.run_id st))
                     (last (FlowRegistry._task_stack r))))) in *.
  destruct (step_exit_effect env self exc w3 st3 a r2 Hst3 ltac:(congruence)
              ltac:(by rewrite Hreg3, Hreg2, lookup_insert_eq))
    as (w4 & Hexit & Hfl4 & Hso4 & Hcf4 & Hfiles4 & Hat4 & Hde4 & Hcs4 & _ & Hreg4).
  assert (StepAttrs._step_token st3 = Some (mkToken (_current_step w1) false))
    as Htok by congruence.
  rewrite Htok in Hexit, Hso4, Hcs4. cbn in Hexit, Hso4, Hcs4.
  destruct Hreg4 as [n Hreg4].
  { unfold emission_returns. rewrite Hem3, Hem2, Hem.
    destruct Hclient as [->|[Hds Hrow]]; [done|].
    rewrite Hin3, Hout3, Hin2, Hout2, Hin, Hout, Hcon3, Hcon2, Hcon.
    rewrite Hname3, Hname2, Hname. cbn [app forallb].
    by rewrite Hds, Hrow, orb_true_r. }
  rewrite (finalized_entered r st st3 _ started_at) in Hreg4 by congruence.
  rewrite Hreg3, Hreg2, insert_insert_eq, Hreg1 in Hreg4.
  eexists w4, _. split_and!; [|exact Hreg4|..]; cbn; try congruence.
  - unfold marking_step, with_step.
    rewrite (bind_run _ _ _ _ _ Hinit). unfold with_statement.
    rewrite (bind_run _ _ _ _ _ Henter).
    rewrite (bind_run _ _ _ _ _ Hmarks).
    destruct exc as [e|]; unfold raise, ret; by rewrite Hexit.
  - rewrite Hin3, Hin2, Hin. done.
  - rewrite Hout3, Hout2, Hout. done.
  - by destruct exc.
  - done.
  - done.
  - rewrite <- Hde1. unfold emitter_has_client.
    by rewrite Hde4, Hde3, Hde2.
  - done.
Qed.

(** X12. A step inside a flow records its lineage. Whatever the order
    of the [mark_input] and [mark_output] calls of its body, and whether
    the body then raises or not, once the [with step(...)] statement is
    over the flow's registry holds one more task, with the inputs and the
    outputs in the order they were marked, status SUCCESS or FAILED, a
    start and a finish time, and the enclosing step as parent; the task
    stack and the current step are as before, no file is written, and an
    exception of the body goes on. This needs the closing event to get
    through: an emitter with a client, or datasets and a metrics row
    that json can print. *)
Theorem marking_step_records (env : environment) (name ct : string)
    (ms : list marking) (exc : option exn) (w : world) (a : nat)
    (r : FlowRegistry.t) :
  ct ∈ COMPONENT_TYPES ∨ ct = "auto" →
  _current_flow w = Some a →
  registries w !! a = Some r →
  emitter_has_client env w = true ∨
  (forallb (printable_dataset env) (marked_inputs ms ++ marked_outputs ms) = true ∧
   printable_metrics env name = true) →
  ∃ w' task,
    marking_step env name ct ms exc w =
      (match exc with Some e => Raise e | None => Ok (Some tt) end, w') ∧
    registries w' =
      <[a := FlowRegistry.set_tasks (FlowRegistry.tasks r ++ [task]) r]>
        (registries w) ∧
    TaskSpec.name task = name ∧ TaskSpec.component_type task = ct ∧
    TaskSpec.inputs task = map DatasetRef.to_dict (marked_inputs ms) ∧
    TaskSpec.outputs task = map DatasetRef.to_dict (marked_outputs ms) ∧
    TaskSpec.contracts task = [] ∧
    TaskSpec.status task = Some (if exc is Some _ then "FAILED" else "SUCCESS") ∧
    is_Some (TaskSpec.started_at task) ∧ is_Some (TaskSpec.finished_at task) ∧
    TaskSpec.parent task = last (FlowRegistry._task_stack r) ∧
    _current_step w' = _current_step w ∧ _current_flow w' = _current_flow w ∧
    files w' = files w.
Proof.
  intros Hvalid Hflow Hr Hemit.
  destruct (marking_step_effect env name ct ms exc w a r Hvalid Hflow Hr Hemit)
    as (w' & task & Hrun & Hreg & Hname & Hct & Hin & Hout & Hcon & Hstatus
        & Hstart & Hfinish & Hparent & Hcs & Hcf & Hfiles & _).
  exists w', task. by split_and!.
Qed.

Lemma marking_step_records_witness :
  ∃ w' task,
    marking_step plain_environment "load" "DataLoader"
      [Output ds_raw; Input ds_raw] (Some boom) inside_flow = (Raise boom, w') ∧
    registries w' !! 0 =
      Some (FlowRegistry.mk "p" "uuid-0" [task] (Some "2024-01-01T00:00:0Z")
              None "RUNNING" []) ∧
    TaskSpec.inputs task = [DatasetRef.to_dict ds_raw] ∧
    TaskSpec.outputs task = [DatasetRef.to_dict ds_raw] ∧
    TaskSpec.status task = Some "FAILED".
Proof.
  destruct (marking_step_records plain_environment "load" "DataLoader"
              [Output ds_raw; Input ds_raw] (Some boom) inside_flow 0
              (FlowRegistry.mk "p" "uuid-0" [] (Some "2024-01-01T00:00:0Z")
                 None "RUNNING" []))
    as (w' & task & Hrun & Hreg & _ & _ & Hin & Hout & _ & Hstatus & _).
  - left. by apply (bool_decide_unpack _); vm_compute.
  - reflexivity.
  - reflexivity.
  - right. split; reflexivity.
  - exists w', task. split; [exact Hrun|].
    split; [|split; [exact Hin|split; [exact Hout|exact Hstatus]]].
    rewrite Hreg, lookup_insert_eq. reflexivity.
Defined.



(** The same [__exit__] a second time: the token is used. *)
Example step_exit_twice_raises :
  (bind (Step.__exit__ plain_environment 0 (Some boom))
        (λ _, Step.__exit__ plain_environment 0 None) inside_step).1 =
  Raise token_used.
Proof. by vm_compute. Qed.

(** ** The flow scope and whole pipelines *)

Lemma alter_flow_object (g : FlowAttrs.t → FlowAttrs.t) (self : nat)
    (m : gmap nat FlowAttrs.t) (f : FlowAttrs.t) :
  m !! self = Some f → alter g self m = <[self := g f]> m.
Proof.
  intros Hf. apply map_eq. intros b. destruct (decide (b = self)) as [->|Hne].
  - by rewrite lookup_alter_eq, lookup_insert_eq, Hf.
  - by rewrite lookup_alter_ne, lookup_insert_ne.
Qed.

Lemma flow_exit_effect (env : environment) (self : nat) (exc : option exn)
    (w : world) (f : FlowAttrs.t) (r : FlowRegistry.t) :
  flow_objects w !! self = Some f →
  registries w !! FlowAttrs.registry f = Some r →
  ∃ w' finished_at,
    Flow.__exit__ env self exc w =
      (if reset_raises (FlowAttrs._token f) then Raise token_used else Ok false,
       w') ∧
    registries w' =
      <[FlowAttrs.registry f :=
          FlowRegistry.set_status (if exc is Some _ then "FAILED" else "SUCCESS")
            (FlowRegistry.set_finished_at (Some finished_at) r)]> (registries w) ∧
    _current_flow w' =
      (if reset_raises (FlowAttrs._token f) then _current_flow w
       else default (_current_flow w) (old_value <$> FlowAttrs._token f)) ∧
    flow_objects w' =
      (if reset_raises (FlowAttrs._token f) then flow_objects w
       else <[self := FlowAttrs.set_token (spent (FlowAttrs._token f)) f]>
              (flow_objects w)) ∧
    step_objects w' = step_objects w ∧
    _current_step w' = _current_step w ∧ files w' = files w ∧
    atexit_registered w' = atexit_registered w ∧
    _default_emitter w' = _default_emitter w.
Proof.
  intros Hf Hr. unfold Flow.__exit__.
  rewrite (bind_run _ _ _ _ _ (read_flow_run _ _ _ Hf)).
  match goal with
  | |- context [try_finally ?m ?c] => set (body := m); set (cleanup := c)
  end.
  assert (∃ w1 finished_at,
    body w = (Ok tt, w1) ∧
    registries w1 =
      <[FlowAttrs.registry f :=
          FlowRegistry.set_status (if exc is Some _ then "FAILED" else "SUCCESS")
            (FlowRegistry.set_finished_at (Some finished_at) r)]> (registries w) ∧
    _current_flow w1 = _current_flow w ∧ flow_objects w1 = flow_objects w ∧
    step_objects w1 = step_objects w ∧
    _current_step w1 = _current_step w ∧ files w1 = files w ∧
    atexit_registered w1 = atexit_registered w ∧
    _default_emitter w1 = _default_emitter w)
    as (w1 & finished_at & Hbody & Hreg1 & Hcf1 & Hfl1 & Hso1 & Hcs1 & Hfiles1
        & Hat1 & Hde1).
  { subst body.
    unfold now, bind, read_clock, update_registry, modify, ret,
      prometheus, logger, read_registry.
    destruct exc as [e|], (Settings.prometheus_enabled (settings env));
      cbn; rewrite !lookup_alter_eq, Hr; cbn;
      eexists _, _; (split; [reflexivity|]); cbn; split_and!; try done;
      rewrite (alter_registry _ _ _ _ Hr);
      rewrite (alter_registry _ _ _ _ (lookup_insert_eq _ _ _));
      by rewrite insert_insert_eq. }
  assert (∃ w2,
    cleanup w1 =
      (if reset_raises (FlowAttrs._token f) then Raise token_used else Ok tt, w2) ∧
    registries w2 = registries w1 ∧
    _current_flow w2 =
      (if reset_raises (FlowAttrs._token f) then _current_flow w1
       else default (_current_flow w1) (old_value <$> FlowAttrs._token f)) ∧
    flow_objects w2 =
      (if reset_raises (FlowAttrs._token f) then flow_objects w1
       else <[self := FlowAttrs.set_token (spent (FlowAttrs._token f)) f]>
              (flow_objects w1)) ∧
    step_objects w2 = step_objects w1 ∧
    _current_step w2 = _current_step w1 ∧ files w2 = files w1 ∧
    atexit_registered w2 = atexit_registered w1 ∧
    _default_emitter w2 = _default_emitter w1)
    as (w2 & Hclean & Hreg2 & Hcf2 & Hfl2 & Hso2 & Hcs2 & Hfiles2 & Hat2 & Hde2).
  { subst cleanup. destruct (FlowAttrs._token f) as [tok|] eqn:Htok; cbn.
    - destruct (used tok) eqn:Hused.
      + exists w1. by split_and!.
      + eexists. split; [reflexivity|]. cbn. split_and!; try done.
        apply alter_flow_object. by rewrite Hfl1.
    - exists w1. split_and!; try done.
      symmetry. apply insert_id. rewrite Hfl1, Hf. f_equal.
      rewrite <- Htok. symmetry. apply set_token_same. }
  exists w2, finished_at. split.
  { destruct (reset_raises (FlowAttrs._token f)).
    - rewrite (bind_raise _ _ _ _ _ (try_finally_raise _ _ _ _ _ _ _ Hbody Hclean)).
      done.
    - by rewrite (bind_run _ _ _ _ _ (try_finally_run _ _ _ _ _ _ Hbody Hclean)). }
  rewrite Hreg2, Hcf2, Hfl2, Hso2, Hcs2, Hfiles2, Hat2, Hde2.
  rewrite Hcf1, Hfl1. by split_and!.
Qed.

Lemma flow_init_run (env : environment) (name : string)
    (run_id : option string) (auto_export : bool) (export_path : option string)
    (w : world) :
  ∃ self a w' rid,
    Flow.__init__ env name run_id auto_export export_path w = (Ok self, w') ∧
    registries w !! a = None ∧ flow_objects w !! self = None ∧
    (∀ given, run_id = Some given → given ≠ "" → rid = given) ∧
    registries w' = <[a := FlowRegistry.new name rid]> (registries w) ∧
    flow_objects w' =
      <[self := FlowAttrs.mk name rid auto_export export_path a None false]>
        (flow_objects w) ∧
    _current_flow w' = _current_flow w ∧
    step_objects w' = step_objects w ∧ _current_step w' = _current_step w ∧
    files w' = files w ∧ atexit_registered w' = atexit_registered w ∧
    _default_emitter w' = _default_emitter w.
Proof.
  pose proof (is_fresh (dom (registries w))) as Hfresh_r.
  pose proof (is_fresh (dom (flow_objects w))) as Hfresh_f.
  apply not_elem_of_dom in Hfresh_r, Hfresh_f.
  unfold Flow.__init__.
  unfold bind, generate_run_id, get_world, modify, prometheus, ret.
  exists (fresh (dom (flow_objects w))), (fresh (dom (registries w))).
  destruct run_id as [given|]; [destruct (String.eqb given "") eqn:Hgiven|];
    destruct (Settings.prometheus_enabled (settings env)); cbn;
    eexists _, _; (split; [reflexivity|]); cbn; split_and!; try done.
  all: try (intros ? [= <-] Hne%String.eqb_neq; congruence).
  all: by intros ? [=].
Qed.

Lemma flow_enter_effect (env : environment) (self : nat) (w : world)
    (f : FlowAttrs.t) (r : FlowRegistry.t) :
  flow_objects w !! self = Some f →
  registries w !! FlowAttrs.registry f = Some r →
  ∃ w' started_at,
    Flow.__enter__ env self w = (Ok (FlowAttrs.registry f), w') ∧
    registries w' =
      <[FlowAttrs.registry f := FlowRegistry.set_started_at (Some started_at) r]>
        (registries w) ∧
    flow_objects w' =
      <[self := FlowAttrs.set_cleanup_registered
                  (FlowAttrs._cleanup_registered f || FlowAttrs.auto_export f)
                  (FlowAttrs.set_token (Some (mkToken (_current_flow w) false)) f)]>
        (flow_objects w) ∧
    _current_flow w' = Some (FlowAttrs.registry f) ∧
    atexit_registered w' =
      atexit_registered w ++
      (if FlowAttrs.auto_export f && negb (FlowAttrs._cleanup_registered f)
       then [self] else []) ∧
    step_objects w' = step_objects w ∧ _current_step w' = _current_step w ∧
    files w' = files w ∧ _default_emitter w' = _default_emitter w.
Proof.
  intros Hf Hr. unfold Flow.__enter__.
  rewrite (bind_run _ _ _ _ _ (read_flow_run _ _ _ Hf)).
  unfold bind, get_world, modify, update_flow, now, read_clock, ret,
    update_registry, logger.
  destruct (FlowAttrs.auto_export f) eqn:Hae,
    (FlowAttrs._cleanup_registered f) eqn:Hcr; cbn;
    eexists _, _; (split; [reflexivity|]); cbn; rewrite ?app_nil_r;
    split_and!; try done; try (by apply alter_registry).
  all: rewrite ?(alter_flow_object _ _ _ _ Hf).
  all: rewrite ?(alter_flow_object _ _ _ _ (lookup_insert_eq _ _ _)).
  all: rewrite ?insert_insert_eq.
  all: destruct f; cbn in *; by subst.
Qed.
Lemma steps_run (env : environment) (calls : list step_call) (a : nat) :
  forallb valid_call calls = true →
  ∀ (w : world) (r : FlowRegistry.t),
  _current_flow w = Some a →
  registries w !! a = Some r →
  emitter_has_client env w = true ∨ forallb (printable_call env) calls = true →
  ∃ w' tasks,
    for_each (λ c,
      bind (marking_step env (call_name c) (call_type c) (call_marks c) None)
           (λ _, ret tt)) calls w = (Ok tt, w') ∧
    registries w' =
      <[a := FlowRegistry.set_tasks (FlowRegistry.tasks r ++ tasks) r]>
        (registries w) ∧
    Forall2 (records (last (FlowRegistry._task_stack r))) calls tasks ∧
    _current_step w' = _current_step w ∧ _current_flow w' = _current_flow w ∧
    files w' = files w ∧ flow_objects w' = flow_objects w ∧
    atexit_registered w' = atexit_registered w.
Proof.
  induction calls as [|c calls IH]; intros Hvalid w r Hflow Hr Hemit.
  - exists w, []. split_and!; try done.
    rewrite app_nil_r. replace (FlowRegistry.set_tasks (FlowRegistry.tasks r) r)
      with r by (by destruct r). by rewrite insert_id.
  - cbn [forallb] in Hvalid. apply andb_true_iff in Hvalid as [Hc Hcalls].
    assert (call_type c ∈ COMPONENT_TYPES ∨ call_type c = "auto") as Hc'.
    { unfold valid_call in Hc. apply orb_true_iff in Hc as [Hc|Hc].
      - left. by apply bool_decide_eq_true in Hc.
      - right. by apply String.eqb_eq. }
    destruct (marking_step_effect env (call_name c) (call_type c) (call_marks c)
                None w a r Hc' Hflow Hr)
      as (w1 & task & Hrun & Hreg1 & Hname & Hct & Hin & Hout & Hcon & Hstatus
          & Hstart & Hfinish & Hparent & Hcs1 & Hcf1 & Hfiles1 & Hfl1 & Hat1 & Hem1
          & Htags).
    { destruct Hemit as [?|Hp]; [by left|right].
      cbn [forallb] in Hp. apply andb_true_iff in Hp as [Hp _].
      by apply andb_true_iff in Hp. }
    destruct (IH Hcalls w1
                (FlowRegistry.set_tasks (FlowRegistry.tasks r ++ [task]) r))
      as (w' & tasks & Hrest & Hreg' & Hrec & Hcs' & Hcf' & Hfiles' & Hfl' & Hat').
    { congruence. }
    { by rewrite Hreg1, lookup_insert_eq. }
    { destruct Hemit as [?|Hp]; [left; congruence|right].
      cbn [forallb] in Hp. by apply andb_true_iff in Hp as [_ Hp]. }
    exists w', (task :: tasks). cbn [for_each foldr].
    rewrite (bind_run _ _ w w1 tt); cycle 1.
    { by rewrite (bind_run _ _ _ _ _ Hrun). }
    split; [exact Hrest|].
    split_and!; try congruence.
    + rewrite Hreg', Hreg1, insert_insert_eq. f_equal.
      destruct r. cbn. by rewrite <- app_assoc.
    + constructor; [by split_and!|]. exact Hrec.
Qed.

Lemma pipeline_effect (env : environment) (name : string)
    (run_id : option string) (calls : list step_call) (w : world) :
  forallb valid_call calls = true →
  emitter_has_client env w = true ∨ forallb (printable_call env) calls = true →
  ∃ w' a self r f,
    pipeline env name run_id calls w = (Ok (Some tt), w') ∧
    registries w !! a = None ∧ flow_objects w !! self = None ∧
    registries w' = <[a := r]> (registries w) ∧
    flow_objects w' = <[self := f]> (flow_objects w) ∧
    FlowAttrs.registry f = a ∧ FlowAttrs.name f = name ∧
    FlowAttrs.run_id f = FlowRegistry.run_id r ∧
    FlowAttrs.export_path f = None ∧
    FlowRegistry.name r = name ∧
    (∀ given, run_id = Some given → given ≠ "" → FlowRegistry.run_id r = given) ∧
    FlowRegistry.status r = "SUCCESS" ∧
    is_Some (FlowRegistry.started_at r) ∧ is_Some (FlowRegistry.finished_at r) ∧
    FlowRegistry._task_stack r = [] ∧
    Forall2 (records None) calls (FlowRegistry.tasks r) ∧
    _current_flow w' = _current_flow w ∧ _current_step w' = _current_step w ∧
    files w' = files w ∧
    atexit_registered w' = atexit_registered w ++ [self].
Proof.
  intros Hvalid Hemit.
  destruct (flow_init_run env name run_id true None w)
    as (self & a & w0 & rid & Hinit & Hfresh_a & Hfresh_self & Hrid & Hreg0
        & Hfl0 & Hcf0 & Hso0 & Hcs0 & Hfiles0 & Hat0 & Hde0).
  destruct (flow_enter_effect env self w0
              (FlowAttrs.mk name rid true None a None false)
              (FlowRegistry.new name rid))
    as (w1 & started_at & Henter & Hreg1 & Hfl1 & Hcf1 & Hat1 & Hso1 & Hcs1
        & Hfiles1 & Hde1).
  { by rewrite Hfl0, lookup_insert_eq. }
  { by rewrite Hreg0, lookup_insert_eq. }
  cbn in Henter, Hreg1, Hfl1, Hcf1, Hat1.
  destruct (steps_run env calls a Hvalid w1
              (FlowRegistry.set_started_at (Some started_at)
                 (FlowRegistry.new name rid)))
    as (w2 & tasks & Hsteps & Hreg2 & Hrec & Hcs2 & Hcf2 & Hfiles2 & Hfl2 & Hat2).
  { done. }
  { by rewrite Hreg1, lookup_insert_eq. }
  { destruct Hemit as [Hc|?]; [left|by right].
    unfold emitter_has_client in *. by rewrite Hde1, Hde0. }
  set (f := FlowAttrs.set_cleanup_registered true
              (FlowAttrs.set_token (Some (mkToken (_current_flow w0) false))
                 (FlowAttrs.mk name rid true None a None false))) in *.
  destruct (flow_exit_effect env self None w2 f
              (FlowRegistry.set_tasks
                 (FlowRegistry.tasks (FlowRegistry.set_started_at
                    (Some started_at) (FlowRegistry.new name rid)) ++ tasks)
                 (FlowRegistry.set_started_at (Some started_at)
                    (FlowRegistry.new name rid))))
    as (w3 & finished_at & Hexit & Hreg3 & Hcf3 & Hfl3 & Hso3 & Hcs3 & Hfiles3
        & Hat3 & Hde3).
  { by rewrite Hfl2, Hfl1, lookup_insert_eq. }
  { by rewrite Hreg2, lookup_insert_eq. }
  assert (reset_raises (FlowAttrs._token f) = false) as Hunused by done.
  rewrite Hunused in Hexit, Hcf3, Hfl3.
  cbn in Hreg3, Hcf3.
  eexists w3, a, self, _, (FlowAttrs.set_token (spent (FlowAttrs._token f)) f).
  split_and!.
  - unfold pipeline, with_flow. rewrite (bind_run _ _ _ _ _ Hinit).
    unfold with_statement. rewrite (bind_run _ _ _ _ _ Henter).
    by rewrite Hsteps, Hexit.
  - done.
  - done.
  - by rewrite Hreg3, Hreg2, Hreg1, Hreg0, !insert_insert_eq.
  - by rewrite Hfl3, Hfl2, Hfl1, Hfl0, !insert_insert_eq.
  - done.
  - done.
  - done.
  - done.
  - done.
  - exact Hrid.
  - done.
  - done.
  - done.
  - done.
  - exact Hrec.
  - congruence.
  - congruence.
  - congruence.
  - rewrite Hat3, Hat2, Hat1, Hat0. done.
Qed.

Lemma records_serializable (parent : option string) (c : step_call)
    (task : TaskSpec.t) :
  records parent c task → serializable_call c = true →
  serializable_task task = true.
Proof.
  intros (_ & _ & Hin & Hout & Hcon & _ & _ & _ & _ & Htags) Hser.
  unfold serializable_task, serializable_call in *.
  rewrite Hin, Hout, Hcon, Htags, app_nil_r, <- map_app.
  rewrite (forallb_map_ext _ _
             (λ ds, json_serializable (PDict (DatasetRef.facets ds)))).
  - by rewrite Hser.
  - intros ds. cbn. by rewrite andb_true_r.
Qed.

(** X16. From the notebook to the file. In an interpreter where nothing
    else is registered for exit, a flow of marking steps that all
    complete, followed by the exit of the interpreter, leaves a file
    named after the flow and its run id that holds the document of the
    final registry: status SUCCESS and one task per step, in order.
    Nothing is written before the interpreter exits. This needs valid
    component types, closing events that get through, dataset facets that
    JSON can hold and a writable path. *)
Theorem pipeline_exported (env : environment) (name : string)
    (run_id : option string) (calls : list step_call) (w : world) :
  forallb valid_call calls = true →
  emitter_has_client env w = true ∨ forallb (printable_call env) calls = true →
  forallb serializable_call calls = true →
  atexit_registered w = [] →
  (∀ rid, can_write env (name +:+ "_flow_" +:+ rid +:+ ".json") = true) →
  ∃ w' w'' r,
    pipeline env name run_id calls w = (Ok (Some tt), w') ∧
    files w' = files w ∧
    interpreter_exit env w' = (Ok tt, w'') ∧
    files w'' =
      <[name +:+ "_flow_" +:+ FlowRegistry.run_id r +:+ ".json" :=
          Document (FlowRegistry.to_dict r)]> (files w) ∧
    FlowRegistry.name r = name ∧ FlowRegistry.status r = "SUCCESS" ∧
    Forall2 (records None) calls (FlowRegistry.tasks r).
Proof.
  intros Hvalid Hemit Hser Hatexit Hwrite.
  destruct (pipeline_effect env name run_id calls w Hvalid Hemit)
    as (w' & a & self & r & f & Hrun & _ & _ & Hreg & Hfl & Hfa & Hfn & Hfrid
        & Hpath & Hname & _ & Hstatus & _ & _ & _ & Hrec & _ & _ & Hfiles & Hat).
  destruct (export_on_exit_path env self w' f r) as (w'' & Hexport & Hfiles'').
  - by rewrite Hfl, lookup_insert_eq.
  - by rewrite Hfa, Hreg, lookup_insert_eq.
  - rewrite Hpath, Hfn. apply Hwrite.
  - rewrite json_serializable_to_dict. apply forallb_forall.
    intros task Htask%list_elem_of_In.
    apply list_elem_of_lookup in Htask as [i Hi].
    destruct (Forall2_lookup_r _ _ _ _ _ Hrec Hi) as (c & Hc & Hrc).
    eapply records_serializable; [exact Hrc|].
    rewrite forallb_forall in Hser. apply Hser, list_elem_of_In.
    by eapply list_elem_of_lookup_2.
  - exists w', w'', r. split_and!; try done.
    + unfold interpreter_exit, get_world. unfold bind at 1.
      rewrite Hat, Hatexit. cbn [app foldr].
      by rewrite (bind_run _ _ w' w' tt eq_refl).
    + rewrite Hfiles'', Hpath, Hfn, Hfrid, Hfiles. done.
Qed.

Lemma pipeline_exported_witness :
  ∃ w' w'' r,
    pipeline plain_environment "p" None two_calls empty_world = (Ok (Some tt), w') ∧
    files w' = files empty_world ∧
    interpreter_exit plain_environment w' = (Ok tt, w'') ∧
    files w'' =
      <["p" +:+ "_flow_" +:+ FlowRegistry.run_id r +:+ ".json" :=
          Document (FlowRegistry.to_dict r)]> (files empty_world) ∧
    FlowRegistry.name r = "p" ∧ FlowRegistry.status r = "SUCCESS" ∧
    Forall2 (records None) two_calls (FlowRegistry.tasks r).
Proof.
  apply (pipeline_exported plain_environment "p" None two_calls empty_world).
  - reflexivity.
  - right. reflexivity.
  - reflexivity.
  - reflexivity.
  - intros rid. reflexivity.
Defined.

(** X15. A flow of marking steps that all complete. Whatever registries
    existed before, the [with flow(...)] statement returns normally and
    leaves one new registry, with the flow's name, the run id that was
    given (a generated one when none or an empty one was given), status
    SUCCESS, a start and a finish time, an empty task stack, and one
    task per step in the order of the steps, each SUCCESS, without
    parent, with the inputs and outputs its body marked. The current
    flow and the current step are as before and no file is written: the
    flow's export is only registered for the exit of the interpreter. *)
Theorem pipeline_recorded (env : environment) (name : string)
    (run_id : option string) (calls : list step_call) (w : world) :
  forallb valid_call calls = true →
  emitter_has_client env w = true ∨ forallb (printable_call env) calls = true →
  ∃ w' a self r,
    pipeline env name run_id calls w = (Ok (Some tt), w') ∧
    registries w !! a = None ∧
    registries w' = <[a := r]> (registries w) ∧
    FlowRegistry.name r = name ∧
    (∀ given, run_id = Some given → given ≠ "" → FlowRegistry.run_id r = given) ∧
    FlowRegistry.status r = "SUCCESS" ∧
    is_Some (FlowRegistry.started_at r) ∧ is_Some (FlowRegistry.finished_at r) ∧
    FlowRegistry._task_stack r = [] ∧
    Forall2 (records None) calls (FlowRegistry.tasks r) ∧
    _current_flow w' = _current_flow w ∧ _current_step w' = _current_step w ∧
    files w' = files w ∧
    atexit_registered w' = atexit_registered w ++ [self].
Proof.
  intros Hvalid Hemit.
  destruct (pipeline_effect env name run_id calls w Hvalid Hemit)
    as (w' & a & self & r & f & Hrun & Hfresh & _ & Hreg & _ & _ & _ & _ & _
        & Hname & Hrid & Hstatus & Hstart & Hfinish & Hstack & Hrec & Hcf & Hcs
        & Hfiles & Hat).
  exists w', a, self, r. by split_and!.
Qed.

Lemma pipeline_recorded_witness :
  ∃ w' a self r,
    pipeline plain_environment "p" (Some "run-7") two_calls empty_world =
      (Ok (Some tt), w') ∧
    registries empty_world !! a = None ∧
    registries w' = <[a := r]> (registries empty_world) ∧
    FlowRegistry.name r = "p" ∧
    (∀ given, Some "run-7" = Some given → given ≠ "" →
              FlowRegistry.run_id r = given) ∧
    FlowRegistry.status r = "SUCCESS" ∧
    is_Some (FlowRegistry.started_at r) ∧ is_Some (FlowRegistry.finished_at r) ∧
    FlowRegistry._task_stack r = [] ∧
    Forall2 (records None) two_calls (FlowRegistry.tasks r) ∧
    _current_flow w' = _current_flow empty_world ∧
    _current_step w' = _current_step empty_world ∧
    files w' = files empty_world ∧
    atexit_registered w' = atexit_registered empty_world ++ [self].
Proof.
  apply (pipeline_recorded plain_environment "p" (Some "run-7") two_calls
           empty_world).
  - reflexivity.
  - right. reflexivity.
Defined.

(** X13. Entering a flow. [Flow.__enter__] returns the flow's registry
    and makes it the current flow, keeping the previous one as the token;
    it sets the registry's start time and changes nothing else of it; it
    registers the export for the exit of the interpreter when
    [auto_export] is set and the flow has not registered it yet, so that
    entering the same flow again registers nothing more; it writes no
    file and touches no step. *)
Theorem flow_enter_registers_once (env : environment) (self : nat) (w : world)
    (f : FlowAttrs.t) (r : FlowRegistry.t) :
  flow_objects w !! self = Some f →
  registries w !! FlowAttrs.registry f = Some r →
  let run := Flow.__enter__ env self w in
  let again := Flow.__enter__ env self run.2 in
  run.1 = Ok (FlowAttrs.registry f) ∧
  _current_flow run.2 = Some (FlowAttrs.registry f) ∧
  (∃ f', flow_objects run.2 !! self = Some f' ∧
         FlowAttrs._token f' = Some (mkToken (_current_flow w) false)) ∧
  (∃ started_at,
     registries run.2 =
       <[FlowAttrs.registry f := FlowRegistry.set_started_at (Some started_at) r]>
         (registries w)) ∧
  atexit_registered run.2 =
    atexit_registered w ++
    (if FlowAttrs.auto_export f && negb (FlowAttrs._cleanup_registered f)
     then [self] else []) ∧
  atexit_registered again.2 = atexit_registered run.2 ∧
  files run.2 = files w ∧ step_objects run.2 = step_objects w ∧
  _current_step run.2 = _current_step w.
Proof.
  intros Hf Hr.
  destruct (flow_enter_effect env self w f r Hf Hr)
    as (w1 & started_at & Hrun & Hreg & Hfl & Hcf & Hat & Hso & Hcs & Hfiles & _).
  cbn zeta. rewrite Hrun. cbn [fst snd].
  destruct (flow_enter_effect env self w1
              (FlowAttrs.set_cleanup_registered
                 (FlowAttrs._cleanup_registered f || FlowAttrs.auto_export f)
                 (FlowAttrs.set_token (Some (mkToken (_current_flow w) false)) f))
              (FlowRegistry.set_started_at (Some started_at) r))
    as (w2 & started_again & Hagain & _ & _ & _ & Hat2 & _).
  { by rewrite Hfl, lookup_insert_eq. }
  { cbn. by rewrite Hreg, lookup_insert_eq. }
  cbn in Hagain. rewrite Hagain. cbn [fst snd].
  split_and!; try done.
  - eexists. rewrite Hfl, lookup_insert_eq. done.
  - by exists started_at.
  - rewrite Hat2. cbn.
    destruct (FlowAttrs.auto_export f), (FlowAttrs._cleanup_registered f); cbn;
      by rewrite app_nil_r.
Qed.

Lemma flow_enter_registers_once_witness :
  (Flow.__enter__ plain_environment 0 flow_created).1 = Ok 0%nat ∧
  atexit_registered (Flow.__enter__ plain_environment 0 flow_created).2 = [0%nat] ∧
  atexit_registered
    (Flow.__enter__ plain_environment 0
       (Flow.__enter__ plain_environment 0 flow_created).2).2 = [0%nat].
Proof.
  destruct (flow_enter_registers_once plain_environment 0 flow_created
              (FlowAttrs.mk "p" "uuid-0" true None 0 None false)
              (FlowRegistry.new "p" "uuid-0") eq_refl eq_refl)
    as (Hrun & _ & _ & _ & Hat & Hagain & _).
  split_and!; [exact Hrun|exact Hat|].
  rewrite Hagain. exact Hat.
Defined.

(** X14. Leaving a flow. [Flow.__exit__] sets the registry's finish
    time, and its status to SUCCESS, or to FAILED when the body raised,
    and leaves the tasks as they are: a task that is still RUNNING stays
    RUNNING. When the flow's token has not been used (the flow was
    entered and not yet left) it then puts the current flow back to what
    it was when the flow was entered, leaves the token used and returns
    False, so an exception of the body goes on. When the token was used
    before (the same [Flow] object left a second time, or left after a
    nested re-entry), [_current_flow.reset] raises RuntimeError out of
    the finally block, after the status was set, and the current flow
    and the flow object stay as they are. In both cases no file is
    written, nothing is registered, nothing else of the flow object
    changes and no step object is touched. *)
Theorem flow_exit_sets_status (env : environment) (self : nat)
    (exc : option exn) (w : world) (f : FlowAttrs.t) (r : FlowRegistry.t) :
  flow_objects w !! self = Some f →
  registries w !! FlowAttrs.registry f = Some r →
  let run := Flow.__exit__ env self exc w in
  run.1 = (if reset_raises (FlowAttrs._token f)
           then Raise token_used else Ok false) ∧
  (∃ finished_at,
     registries run.2 =
       <[FlowAttrs.registry f :=
           FlowRegistry.set_status (if exc is Some _ then "FAILED" else "SUCCESS")
             (FlowRegistry.set_finished_at (Some finished_at) r)]> (registries w)) ∧
  (∀ r', registries run.2 !! FlowAttrs.registry f = Some r' →
         FlowRegistry.tasks r' = FlowRegistry.tasks r ∧
         FlowRegistry._task_stack r' = FlowRegistry._task_stack r) ∧
  _current_flow run.2 =
    (if reset_raises (FlowAttrs._token f) then _current_flow w
     else default (_current_flow w) (old_value <$> FlowAttrs._token f)) ∧
  flow_objects run.2 =
    (if reset_raises (FlowAttrs._token f) then flow_objects w
     else <[self := FlowAttrs.set_token (spent (FlowAttrs._token f)) f]>
            (flow_objects w)) ∧
  step_objects run.2 = step_objects w ∧
  _current_step run.2 = _current_step w ∧ files run.2 = files w ∧
  atexit_registered run.2 = atexit_registered w.
Proof.
  intros Hf Hr.
  destruct (flow_exit_effect env self exc w f r Hf Hr)
    as (w' & finished_at & Hrun & Hreg & Hcf & Hfl & Hso & Hcs & Hfiles & Hat & _).
  cbn zeta. rewrite Hrun. cbn [fst snd].
  split_and!; try done.
  - by exists finished_at.
  - intros r'. rewrite Hreg, lookup_insert_eq. by intros [= <-].
Qed.

Lemma flow_exit_sets_status_witness :
  (Flow.__exit__ plain_environment 0 (Some boom) inside_flow).1 = Ok false ∧
  _current_flow (Flow.__exit__ plain_environment 0 (Some boom) inside_flow).2 = None.
Proof.
  destruct (flow_exit_sets_status plain_environment 0 (Some boom) inside_flow
              (FlowAttrs.mk "p" "uuid-0" true None 0 (Some (mkToken None false)) true)
              (FlowRegistry.mk "p" "uuid-0" [] (Some "2024-01-01T00:00:0Z")
                 None "RUNNING" []) eq_refl eq_refl)
    as (Hrun & _ & _ & Hcf & _).
  split; [exact Hrun|exact Hcf].
Defined.

(** The same flow entered inside itself, [with f: with f: pass]: the
    inner exit uses the token both exits hold, and the outer exit raises,
    with the flow still current. *)
Example flow_exit_twice_raises :
  let run :=
    bind (Flow.__enter__ plain_environment 0)
      (λ _, bind (Flow.__exit__ plain_environment 0 None)
              (λ _, Flow.__exit__ plain_environment 0 None)) inside_flow in
  run.1 = Raise token_used ∧ _current_flow run.2 = Some 0%nat.
Proof. by vm_compute. Qed.

(** ** The exporters' dependency graph, on any document *)

Lemma foldM_invariant {A S} (P : S → Prop) (f : S → A → outcome S)
    (l : list A) (s s' : S) :
  P s → (∀ s x s', P s → f s x = Ok s' → P s') →
  foldM f s l = Ok s' → P s'.
Proof.
  intros Hs Hstep. revert s Hs. induction l as [|x l IH]; intros s Hs; cbn.
  - by intros [= <-].
  - destruct (f s x) as [s1| |] eqn:Hf; cbn; [|done|done].
    apply IH. by eapply Hstep.
Qed.

(** X17. Neither exporter ever returns a dependency of a task on
    itself, whatever document it is given: the Airflow dependencies and
    the Mermaid edges hold no pair whose two ends are equal, also when
    several tasks have the same name or a task reads what it writes. *)
Theorem exporters_no_self_dependency (tasks : list pydict) :
  (∀ dependencies, derive_task_dependencies tasks = Ok dependencies →
     ∀ a b, (a, b) ∈ dependencies → a ≠ b) ∧
  (∀ edges, _derive_mermaid_edges tasks = Ok edges →
     ∀ a b label, (a, b, label) ∈ edges → a ≠ b).
Proof.
  split.
  - intros deps. unfold derive_task_dependencies.
    destruct (foldM _ ∅ tasks) as [producers| |]; cbn; [|done|done].
    apply (foldM_invariant (λ deps, ∀ a b, (a, b) ∈ deps → a ≠ b)).
    { by intros a b ?%elem_of_nil. }
    intros acc task acc' Hacc.
    destruct (dict_subscript task "name") as [name| |]; cbn; [|done|done].
    destruct (str_receiver "lower" name) as [name'| |]; cbn; [|done|done].
    destruct (py_iter _) as [inputs| |]; cbn; [|done|done].
    apply (foldM_invariant (λ deps, ∀ a b, (a, b) ∈ deps → a ≠ b)); [done|].
    clear. intros acc d acc' Hacc.
    destruct (as_getable d) as [d'| |]; cbn; [|done|done].
    destruct (dataset_key d') as [k| |]; cbn; [|done|done].
    destruct (producers !! k) as [up|]; [|by intros [= <-]].
    case_bool_decide as Hne; intros [= <-]; [|done].
    intros a b [?|[= -> ->]%list_elem_of_singleton]%elem_of_app; [by apply Hacc|done].
  - intros edges. unfold _derive_mermaid_edges.
    destruct (foldM _ ∅ tasks) as [producers| |]; cbn; [|done|done].
    apply (foldM_invariant (λ edges, ∀ a b l, (a, b, l) ∈ edges → a ≠ b)).
    { by intros a b l ?%elem_of_nil. }
    intros acc task acc' Hacc.
    destruct (as_str _) as [name| |]; cbn; [|done|done].
    destruct (py_iter _) as [inputs| |]; cbn; [|done|done].
    apply (foldM_invariant (λ edges, ∀ a b l, (a, b, l) ∈ edges → a ≠ b)); [done|].
    clear. intros acc d acc' Hacc.
    destruct (as_getable d) as [d'| |]; cbn; [|done|done].
    destruct (dataset_key d') as [k| |]; cbn; [|done|done].
    destruct (producers !! k) as [up|]; [|by intros [= <-]].
    case_bool_decide as Hne; [|by intros [= <-]].
    destruct (str_receiver "split" _) as [n| |]; cbn; [|done|done].
    intros [= <-].
    intros a b l [?|[= -> -> ->]%list_elem_of_singleton]%elem_of_app;
      [by eapply Hacc|done].
Qed.

Lemma exporters_no_self_dependency_witness :
  derive_task_dependencies (task_dicts (registry_of [task_load; task_clean])) =
    Ok [("load", "clean")] ∧
  "load" ≠ "clean".
Proof.
  assert (derive_task_dependencies
            (task_dicts (registry_of [task_load; task_clean])) =
          Ok [("load", "clean")]) as Hrun by (by vm_compute).
  split; [exact Hrun|].
  apply (proj1 (exporters_no_self_dependency _) _ Hrun). by left.
Defined.

Lemma producers_of_last_writer (label : TaskSpec.t → string)
    (ts : list TaskSpec.t) (k n : string) :
  producers_of label ts !! k = Some n ↔
  ∃ i task, ts !! i = Some task ∧
    k ∈ map key_text (TaskSpec.outputs task) ∧ n = label task ∧
    ∀ i' task', (i < i')%nat → ts !! i' = Some task' →
                k ∉ map key_text (TaskSpec.outputs task').
Proof.
  unfold producers_of. induction ts as [|t ts IH] using rev_ind.
  - cbn. split; [done|]. by intros (i & task & Hi & _).
  - rewrite foldl_app. cbn [foldl]. rewrite insert_keys_lookup.
    case_bool_decide as Hk.
    + split.
      * intros [= <-]. exists (length ts), t. split_and!; try done.
        -- by rewrite lookup_app_r, Nat.sub_diag.
        -- intros i' task' Hlt Hi'. apply lookup_lt_Some in Hi'.
           rewrite length_app in Hi'. cbn in Hi'. lia.
      * intros (i & task & Hi & Hin & -> & Hlater).
        destruct (decide (i < length ts)%nat) as [Hlt|Hge].
        -- exfalso. apply (Hlater (length ts) t Hlt); [|done].
           by rewrite lookup_app_r, Nat.sub_diag.
        -- pose proof (lookup_lt_Some _ _ _ Hi) as Hlen.
           rewrite length_app in Hlen. cbn in Hlen.
           rewrite lookup_app_r in Hi by lia.
           replace (i - length ts)%nat with 0%nat in Hi by lia.
           by injection Hi as <-.
    + rewrite IH. split.
      * intros (i & task & Hi & Hin & -> & Hlater).
        exists i, task. split_and!; try done.
        -- rewrite lookup_app_l; [done|]. by eapply lookup_lt_Some.
        -- intros i' task' Hlt Hi'.
           destruct (decide (i' < length ts)%nat) as [Hlt'|Hge].
           ++ rewrite lookup_app_l in Hi' by done. by eapply Hlater.
           ++ pose proof (lookup_lt_Some _ _ _ Hi') as Hlen.
              rewrite length_app in Hlen. cbn in Hlen.
              rewrite lookup_app_r in Hi' by lia.
              replace (i' - length ts)%nat with 0%nat in Hi' by lia.
              by injection Hi' as <-.
      * intros (i & task & Hi & Hin & -> & Hlater).
        destruct (decide (i < length ts)%nat) as [Hlt|Hge].
        -- exists i, task. rewrite lookup_app_l in Hi by done.
           split_and!; try done.
           intros i' task' Hlt' Hi'. apply (Hlater i' task' Hlt').
           rewrite lookup_app_l; [done|]. by eapply lookup_lt_Some.
        -- exfalso. pose proof (lookup_lt_Some _ _ _ Hi) as Hlen.
           rewrite length_app in Hlen. cbn in Hlen.
           rewrite lookup_app_r in Hi by lia.
           replace (i - length ts)%nat with 0%nat in Hi by lia.
           injection Hi as <-. done.
Qed.

(** X18. Which task an exporter takes as the producer of an input. On
    the document of a registry whose datasets have string namespace and
    name, both exporters return, and a dependency is returned exactly
    for a task [consumer] with an input [ds] and the task [producer]
    that is the last one in the list to write the key of [ds], when the
    two (sanitized, for Airflow) names differ. The positions of producer
    and consumer are not compared: the producer may stand after the
    consumer, and earlier writers of the same key are ignored. *)
Theorem exporters_take_last_writer (ts : list TaskSpec.t) :
  (∀ task ds, task ∈ ts →
     ds ∈ TaskSpec.outputs task ++ TaskSpec.inputs task →
     string_identified ds = true) →
  let writes (task : TaskSpec.t) (ds : pydict) :=
    key_text ds ∈ map key_text (TaskSpec.outputs task) in
  let last_writer (i : nat) (producer : TaskSpec.t) (ds : pydict) :=
    ts !! i = Some producer ∧ writes producer ds ∧
    ∀ i' task', (i < i')%nat → ts !! i' = Some task' → ¬ writes task' ds in
  (∃ edges, _derive_mermaid_edges (map TaskSpec.to_dict ts) = Ok edges ∧
     ∀ a b label, (a, b, label) ∈ edges ↔
       ∃ i producer j consumer ds,
         last_writer i producer ds ∧
         ts !! j = Some consumer ∧ ds ∈ TaskSpec.inputs consumer ∧
         a = TaskSpec.name producer ∧ b = TaskSpec.name consumer ∧ a ≠ b ∧
         label = edge_label (name_text ds)) ∧
  (∃ dependencies,
     derive_task_dependencies (map TaskSpec.to_dict ts) = Ok dependencies ∧
     ∀ a b, (a, b) ∈ dependencies ↔
       ∃ i producer j consumer ds,
         last_writer i producer ds ∧
         ts !! j = Some consumer ∧ ds ∈ TaskSpec.inputs consumer ∧
         a = sanitize_task_name (TaskSpec.name producer) ∧
         b = sanitize_task_name (TaskSpec.name consumer) ∧ a ≠ b).
Proof.
  intros Hid writes last_writer. split.
  - eexists. split; [by apply mermaid_edges_ok|].
    intros a b label. rewrite elem_of_dependencies_of. split.
    + intros (j & consumer & ds & up & Hj & Hds & Hup & Hne & [= -> -> ->]).
      apply producers_of_last_writer in Hup as (i & producer & Hi & Hw & -> & Hlast).
      exists i, producer, j, consumer, ds. by split_and!.
    + intros (i & producer & j & consumer & ds & (Hi & Hw & Hlast) & Hj & Hds
              & -> & -> & Hne & ->).
      exists j, consumer, ds, (TaskSpec.name producer). split_and!; try done.
      apply producers_of_last_writer. exists i, producer. by split_and!.
  - eexists. split; [by apply airflow_dependencies_ok|].
    intros a b. rewrite elem_of_dependencies_of. split.
    + intros (j & consumer & ds & up & Hj & Hds & Hup & Hne & [= -> ->]).
      apply producers_of_last_writer in Hup as (i & producer & Hi & Hw & -> & Hlast).
      exists i, producer, j, consumer, ds. by split_and!.
    + intros (i & producer & j & consumer & ds & (Hi & Hw & Hlast) & Hj & Hds
              & -> & -> & Hne).
      exists j, consumer, ds, (sanitize_task_name (TaskSpec.name producer)).
      split_and!; try done.
      apply producers_of_last_writer. exists i, producer. by split_and!.
Qed.

Lemma exporters_take_last_writer_witness :
  ∃ edges,
    _derive_mermaid_edges (map TaskSpec.to_dict [task_clean; task_load]) = Ok edges ∧
    ("load", "clean", edge_label (name_text ds_X)) ∈ edges.
Proof.
  destruct (exporters_take_last_writer [task_clean; task_load])
    as [(edges & Hrun & Hedges) _].
  - intros task ds Htask Hds.
    repeat (apply elem_of_cons in Htask as [->|Htask]);
      [| |by apply elem_of_nil in Htask]; cbn in Hds;
      repeat (apply elem_of_cons in Hds as [->|Hds]); try done;
      by apply elem_of_nil in Hds.
  - exists edges. split; [exact Hrun|]. apply Hedges.
    exists 1%nat, task_load, 0%nat, task_clean, ds_X. split_and!; try done.
    + by left.
    + intros [|[|i']] task' Hlt Hi'; [lia|lia|done].
    + by left.
Defined.

(** ** The exit of the interpreter *)

Lemma export_target_set (f : FlowAttrs.t) :
  export_target (FlowAttrs.set_export_path (Some (export_target f)) f) =
  export_target f.
Proof.
  unfold export_target. destruct f as [n rid ae [p|] a t c]; cbn.
  - destruct (String.eqb p "") eqn:Hp; cbn; [|by rewrite Hp].
    by destruct n.
  - by destruct n.
Qed.

(** One export: it returns, logs its one line, writes the file at its
    path when it can open it, and stores the path in the flow object. *)
Lemma export_on_exit_run (env : environment) (self : nat) (w : world)
    (f : FlowAttrs.t) (r : FlowRegistry.t) :
  flow_objects w !! self = Some f →
  registries w !! FlowAttrs.registry f = Some r →
  ∃ w', Flow._export_on_exit env self w = (Ok tt, w') ∧
        files w' = match exported_content env f r with
                   | Some content => <[export_target f := content]> (files w)
                   | None => files w
                   end ∧
        log w' = log w ++ [export_line env f r] ∧
        flow_objects w' =
          <[self := FlowAttrs.set_export_path (Some (export_target f)) f]>
            (flow_objects w) ∧
        registries w' = registries w ∧
        _current_flow w' = _current_flow w ∧ _current_step w' = _current_step w ∧
        step_objects w' = step_objects w ∧
        atexit_registered w' = atexit_registered w.
Proof.
  intros Hf Hr.
  unfold Flow._export_on_exit, try_except.
  rewrite (bind_run _ _ _ _ _ (read_flow_run _ _ _ Hf)).
  assert (∃ w1,
    match FlowAttrs.export_path f with
    | Some p =>
        if String.eqb p ""
        then bind (update_flow self (FlowAttrs.set_export_path
                     (Some (FlowAttrs.name f +:+ "_flow_" +:+ FlowAttrs.run_id f
                            +:+ ".json"))))
               (λ _, ret (FlowAttrs.name f +:+ "_flow_" +:+ FlowAttrs.run_id f
                          +:+ ".json"))
        else ret p
    | None =>
        bind (update_flow self (FlowAttrs.set_export_path
                (Some (FlowAttrs.name f +:+ "_flow_" +:+ FlowAttrs.run_id f
                       +:+ ".json"))))
          (λ _, ret (FlowAttrs.name f +:+ "_flow_" +:+ FlowAttrs.run_id f
                     +:+ ".json"))
    end w = (Ok (export_target f), w1) ∧
    flow_objects w1 =
      <[self := FlowAttrs.set_export_path (Some (export_target f)) f]>
        (flow_objects w) ∧
    registries w1 = registries w ∧ files w1 = files w ∧ log w1 = log w ∧
    _current_flow w1 = _current_flow w ∧ _current_step w1 = _current_step w ∧
    step_objects w1 = step_objects w ∧
    atexit_registered w1 = atexit_registered w)
    as (w1 & Hpath & Hfl1 & Hreg1 & Hfiles1 & Hlog1 & Hcf1 & Hcs1 & Hso1 & Hat1).
  { unfold export_target.
    destruct (FlowAttrs.export_path f) as [p|] eqn:Hp;
      [destruct (String.eqb p "") eqn:Hempty|].
    - eexists. split; [reflexivity|]. cbn. split_and!; try done.
      by apply alter_flow_object.
    - exists w. split_and!; try done.
      symmetry. apply insert_id. rewrite Hf. f_equal.
      rewrite <- Hp. by destruct f.
    - eexists. split; [reflexivity|]. cbn. split_and!; try done.
      by apply alter_flow_object. }
  rewrite (bind_run _ _ _ _ _ Hpath).
  unfold exported_content, export_line, to_json, bind, read_registry, modify,
    logger, raise.
  destruct (can_write env (export_target f)); [rewrite Hreg1, Hr;
    destruct (json_serializable _)|]; cbn;
    (eexists; split; [reflexivity|]); cbn;
    by rewrite ?Hlog1, ?Hfiles1.
Qed.

(** The files after the exports of the flows of [l], the last of the
    list first. *)
Lemma exports_run (env : environment) (all l : list nat) (w : world) :
  l ⊆ all → exports_ready all w →
  ∃ w' lines,
    foldr (λ self rest, bind rest (λ _, Flow._export_on_exit env self))
      (ret tt) l w = (Ok tt, w') ∧
    exports_ready all w' ∧
    (∀ self, export_of env w' self = export_of env w self) ∧
    files w' =
      foldr (λ self files,
               match export_of env w self with
               | Some (path, Some content, _) => <[path := content]> files
               | _ => files
               end) (files w) l ∧
    log w' = log w ++ lines ∧
    Forall2 (λ self line, ∃ path content, export_of env w self =
                                            Some (path, content, line))
      (reverse l) lines ∧
    registries w' = registries w ∧
    _current_flow w' = _current_flow w ∧ _current_step w' = _current_step w ∧
    step_objects w' = step_objects w ∧
    atexit_registered w' = atexit_registered w.
Proof.
  intros Hsub Hready. induction l as [|self l IH].
  - exists w, []. cbn. rewrite app_nil_r. by split_and!.
  - destruct IH as (w1 & lines & Hrest & Hready1 & Hsame1 & Hfiles1 & Hlog1
                    & Hlines & Hreg1 & Hcf1 & Hcs1 & Hso1 & Hat1).
    { intros s Hs. apply Hsub. by right. }
    destruct (Hready1 self) as (f & r & Hf & Hr); [apply Hsub; by left|].
    destruct (export_on_exit_run env self w1 f r Hf Hr)
      as (w2 & Hexport & Hfiles2 & Hlog2 & Hfl2 & Hreg2 & Hcf2 & Hcs2 & Hso2
          & Hat2).
    assert (export_of env w self =
            Some (export_target f, exported_content env f r, export_line env f r))
      as Hself.
    { rewrite <- Hsame1. unfold export_of. rewrite Hf. cbn. by rewrite Hr. }
    assert (∀ other, export_of env w2 other = export_of env w1 other) as Hsame2.
    { intros other. unfold export_of. rewrite Hfl2, Hreg2.
      destruct (decide (other = self)) as [->|Hne].
      - rewrite lookup_insert_eq, Hf.
        cbn -[export_target exported_content export_line]. rewrite Hr.
        cbn -[export_target exported_content export_line].
        unfold exported_content, export_line. by rewrite export_target_set.
      - by rewrite lookup_insert_ne. }
    exists w2, (lines ++ [export_line env f r]). cbn [foldr].
    rewrite (bind_run _ _ _ _ _ Hrest).
    split_and!; try done; try congruence.
    + intros other Hother.
      destruct (Hready1 other Hother) as (f' & r' & Hf' & Hr').
      rewrite Hfl2, Hreg2. destruct (decide (other = self)) as [->|Hne].
      * rewrite lookup_insert_eq. eexists _, r. split; [done|].
        cbn. congruence.
      * rewrite lookup_insert_ne by done. eauto.
    + rewrite Hself, Hfiles2, Hfiles1.
      by destruct (exported_content env f r).
    + by rewrite Hlog2, Hlog1, app_assoc.
    + rewrite reverse_cons. apply Forall2_app; [done|].
      constructor; [|constructor]. by eexists _, _.
Qed.

Lemma export_of_target (env : environment) (w : world) (self : nat)
    (path : string) (content : option file_content) (line : level * message) :
  export_of env w self = Some (path, content, line) →
  export_target <$> flow_objects w !! self = Some path.
Proof.
  unfold export_of. destruct (flow_objects w !! self) as [f|]; [|done]. cbn.
  destruct (registries w !! FlowAttrs.registry f); [|done]. cbn. congruence.
Qed.

Lemma exports_files_elsewhere (env : environment) (w : world) (l : list nat)
    (path : string) :
  path ∉ omap (λ self, export_target <$> flow_objects w !! self) l →
  foldr (λ self files,
           match export_of env w self with
           | Some (path, Some content, _) => <[path := content]> files
           | _ => files
           end) (files w) l !! path = files w !! path.
Proof.
  induction l as [|x l IH]; intros Hpath; [done|]. cbn [foldr].
  cbn [omap list_omap] in Hpath.
  destruct (export_of env w x) as [[[px [cx|]] linex]|] eqn:Hx.
  - rewrite (export_of_target _ _ _ _ _ _ Hx) in Hpath.
    apply not_elem_of_cons in Hpath as [Hne Hpath].
    rewrite lookup_insert_ne by done. by apply IH.
  - rewrite (export_of_target _ _ _ _ _ _ Hx) in Hpath.
    apply not_elem_of_cons in Hpath as [Hne Hpath]. by apply IH.
  - apply IH. destruct (export_target <$> flow_objects w !! x); [|done].
    by apply not_elem_of_cons in Hpath as [_ ?].
Qed.

Lemma exports_files_target (env : environment) (w : world) (l : list nat)
    (self : nat) (path : string) (content : option file_content)
    (line : level * message) :
  NoDup (omap (λ self, export_target <$> flow_objects w !! self) l) →
  self ∈ l →
  export_of env w self = Some (path, content, line) →
  foldr (λ self files,
           match export_of env w self with
           | Some (path, Some content, _) => <[path := content]> files
           | _ => files
           end) (files w) l !! path =
  match content with
  | Some content => Some content
  | None => files w !! path
  end.
Proof.
  induction l as [|x l IH]; intros Hnd Hself Hexp;
    [by apply elem_of_nil in Hself|].
  cbn [foldr]. cbn [omap list_omap] in Hnd.
  destruct (decide (self = x)) as [->|Hne].
  - rewrite Hexp. rewrite (export_of_target _ _ _ _ _ _ Hexp) in Hnd.
    apply NoDup_cons in Hnd as [Hfresh _].
    destruct content as [content|].
    + by rewrite lookup_insert_eq.
    + by apply exports_files_elsewhere.
  - apply elem_of_cons in Hself as [?|Hself]; [done|].
    assert (path ∈ omap (λ self, export_target <$> flow_objects w !! self) l)
      as Hin.
    { apply list_elem_of_omap. exists self. split; [done|].
      by eapply export_of_target. }
    destruct (export_of env w x) as [[[px [cx|]] linex]|] eqn:Hx.
    + rewrite (export_of_target _ _ _ _ _ _ Hx) in Hnd.
      apply NoDup_cons in Hnd as [Hfresh Hnd].
      rewrite lookup_insert_ne by (by intros ->). by apply IH.
    + rewrite (export_of_target _ _ _ _ _ _ Hx) in Hnd.
      apply NoDup_cons in Hnd as [_ Hnd]. by apply IH.
    + apply IH; [|done|done].
      destruct (export_target <$> flow_objects w !! x); [|done].
      by apply NoDup_cons in Hnd as [_ ?].
Qed.

(** X19. The exit of the interpreter attempts every registered export.
    When the registered flows and their registries exist and write to
    different paths, running the registered exports returns normally
    whatever happens to the files: an export that cannot open its path,
    or cannot serialize its registry, is logged and the others still run.
    Afterwards the file of every registered flow whose path could be
    opened holds the document of the flow's registry, or the beginning of
    it when the registry cannot be serialized; a path that could not be
    opened, and every path that is not a flow's, holds what it held
    before. The log has one more line for each flow, the last registered
    first: the success, or the error with the exception. No registry,
    step or context variable changes. *)
Theorem interpreter_exit_attempts_every_export (env : environment) (w : world) :
  exports_ready (atexit_registered w) w →
  NoDup (registered_targets w) →
  let run := interpreter_exit env w in
  run.1 = Ok tt ∧
  (∀ self f r,
     self ∈ atexit_registered w →
     flow_objects w !! self = Some f →
     registries w !! FlowAttrs.registry f = Some r →
     files run.2 !! export_target f =
       match exported_content env f r with
       | Some content => Some content
       | None => files w !! export_target f
       end) ∧
  (∀ path, path ∉ registered_targets w → files run.2 !! path = files w !! path) ∧
  (∃ lines,
     log run.2 = log w ++ lines ∧
     Forall2 (λ self line,
                ∃ f r, flow_objects w !! self = Some f ∧
                       registries w !! FlowAttrs.registry f = Some r ∧
                       line = export_line env f r)
       (reverse (atexit_registered w)) lines) ∧
  registries run.2 = registries w ∧
  _current_flow run.2 = _current_flow w ∧ _current_step run.2 = _current_step w ∧
  step_objects run.2 = step_objects w.
Proof.
  intros Hready Hnd.
  destruct (exports_run env (atexit_registered w) (atexit_registered w) w)
    as (w' & lines & Hrun & _ & _ & Hfiles & Hlog & Hlines & Hreg & Hcf & Hcs
        & Hso & _); [done|done|].
  assert (interpreter_exit env w = (Ok tt, w')) as ->.
  { unfold interpreter_exit, get_world. unfold bind at 1. exact Hrun. }
  cbn [fst snd]. split_and!; try done.
  - intros self f r Hself Hf Hr. rewrite Hfiles.
    apply (exports_files_target env w _ self _ _ (export_line env f r) Hnd Hself).
    unfold export_of. rewrite Hf. cbn. by rewrite Hr.
  - intros path Hpath. rewrite Hfiles. by apply exports_files_elsewhere.
  - exists lines. split; [done|].
    eapply Forall2_impl; [exact Hlines|].
    intros self line (path & content & Hexp). unfold export_of in Hexp.
    destruct (flow_objects w !! self) as [f|]; [|done]. cbn in Hexp.
    destruct (registries w !! FlowAttrs.registry f) as [r|] eqn:Hr; [|done].
    cbn in Hexp. injection Hexp as _ _ <-. by exists f, r.
Qed.

Lemma interpreter_exit_attempts_every_export_witness :
  let run := interpreter_exit first_path_locked two_flows_left in
  run.1 = Ok tt ∧
  files run.2 !! "p_flow_uuid-0.json" = None ∧
  is_Some (files run.2 !! "q_flow_uuid-1.json") ∧
  drop (length (log two_flows_left)) (log run.2) =
    [ (INFO, Text "Flow registry exported to: q_flow_uuid-1.json");
      (ERROR, WithError "Failed to export flow registry: "
                (OSError "p_flow_uuid-0.json")) ].
Proof.
  assert (exports_ready (atexit_registered two_flows_left) two_flows_left)
    as Hready.
  { intros self Hself. vm_compute in Hself.
    apply elem_of_cons in Hself as [->|Hself];
      [|apply list_elem_of_singleton in Hself as ->].
    - eexists _, _. split; by vm_compute.
    - eexists _, _. split; by vm_compute. }
  assert (NoDup (registered_targets two_flows_left)) as Hnd.
  { vm_compute. repeat constructor; [|by intros ?%elem_of_nil].
    by intros [=]%list_elem_of_singleton. }
  destruct (interpreter_exit_attempts_every_export first_path_locked
              two_flows_left Hready Hnd)
    as (Hrun & _). cbn zeta.
  split; [exact Hrun|]. vm_compute.
  split; [reflexivity|]. split; [by eexists|reflexivity].
Defined.

(** ** Edge labels *)




(** ** From the markings to the graph *)

Lemma same_dataset_to_dict (o d : DatasetRef.t) :
  FlowRegistry.same_dataset (DatasetRef.to_dict o) (DatasetRef.to_dict d) = true ↔
  DatasetRef.namespace o = DatasetRef.namespace d ∧
  DatasetRef.name o = DatasetRef.name d.
Proof.
  unfold FlowRegistry.same_dataset, DatasetRef.to_dict, dict_get. cbn.
  rewrite andb_true_iff, !String.eqb_eq. done.
Qed.

(** X21. The lineage graph of a notebook. After a flow of marking steps
    that all complete, the edges derived from the flow's registry are
    exactly the pairs (producer, consumer) of step names such that the
    producer step comes before the consumer step and marked as output a
    dataset with the namespace and the name of one the consumer marked
    as input. Facets play no part, and a step that reads before the
    writer has run gets no edge. *)
Theorem pipeline_edges (env : environment) (name : string)
    (run_id : option string) (calls : list step_call) (w : world) :
  forallb valid_call calls = true →
  emitter_has_client env w = true ∨ forallb (printable_call env) calls = true →
  ∃ w' a r,
    pipeline env name run_id calls w = (Ok (Some tt), w') ∧
    registries w' !! a = Some r ∧ registries w !! a = None ∧
    ∀ x y, (x, y) ∈ FlowRegistry.derive_edges r ↔
      ∃ i j producer consumer o d,
        (i < j)%nat ∧ calls !! i = Some producer ∧ calls !! j = Some consumer ∧
        o ∈ marked_outputs (call_marks producer) ∧
        d ∈ marked_inputs (call_marks consumer) ∧
        DatasetRef.namespace o = DatasetRef.namespace d ∧
        DatasetRef.name o = DatasetRef.name d ∧
        x = call_name producer ∧ y = call_name consumer.
Proof.
  intros Hvalid Hemit.
  destruct (pipeline_effect env name run_id calls w Hvalid Hemit)
    as (w' & a & self & r & f & Hrun & Hfresh & _ & Hreg & _ & _ & _ & _ & _
        & _ & _ & _ & _ & _ & _ & Hrec & _).
  exists w', a, r. split_and!; [done|by rewrite Hreg, lookup_insert_eq|done|].
  intros x y. unfold FlowRegistry.derive_edges.
  rewrite elem_of_elements, elem_of_list_to_set, elem_of_appended_edges. split.
  - intros (i & j & ta & tb & o & d & Hij & Hi & Hj & Ho & Hd & Hsame & -> & ->).
    destruct (Forall2_lookup_r _ _ _ _ _ Hrec Hi)
      as (ci & Hci & Hna & _ & _ & Houts & _).
    destruct (Forall2_lookup_r _ _ _ _ _ Hrec Hj)
      as (cj & Hcj & Hnb & _ & Hins & _).
    rewrite Houts in Ho. rewrite Hins in Hd.
    apply list_elem_of_fmap in Ho as (o' & -> & Ho').
    apply list_elem_of_fmap in Hd as (d' & -> & Hd').
    apply same_dataset_to_dict in Hsame as [Hns Hn].
    exists i, j, ci, cj, o', d'. by split_and!.
  - intros (i & j & ci & cj & o & d & Hij & Hi & Hj & Ho & Hd & Hns & Hn & -> & ->).
    destruct (Forall2_lookup_l _ _ _ _ _ Hrec Hi)
      as (ta & Hta & Hna & _ & _ & Houts & _).
    destruct (Forall2_lookup_l _ _ _ _ _ Hrec Hj)
      as (tb & Htb & Hnb & _ & Hins & _).
    exists i, j, ta, tb, (DatasetRef.to_dict o), (DatasetRef.to_dict d).
    split_and!; try done.
    + rewrite Houts. apply list_elem_of_fmap. eauto.
    + rewrite Hins. apply list_elem_of_fmap. eauto.
    + by apply same_dataset_to_dict.
Qed.


Lemma pipeline_edges_witness :
  ∃ w' a r,
    pipeline plain_environment "p" None two_calls empty_world = (Ok (Some tt), w') ∧
    registries w' !! a = Some r ∧
    ("load", "clean") ∈ FlowRegistry.derive_edges r.
Proof.
  destruct (pipeline_edges plain_environment "p" None two_calls empty_world)
    as (w' & a & r & Hrun & Hr & _ & Hedges).
  - reflexivity.
  - right. reflexivity.
  - exists w', a, r. split; [exact Hrun|]. split; [exact Hr|].
    apply Hedges.
    exists 0%nat, 1%nat, (mkStepCall "load" "DataLoader" [Output ds_raw]),
      (mkStepCall "clean" "Transformer" [Input ds_raw]), ds_raw, ds_raw.
    split; [lia|]. split; [reflexivity|]. split; [reflexivity|].
    split; [left|]. split; [left|]. repeat split; reflexivity.
Defined.

(** ** The search for circular dependencies *)

Section CycleSearch.

Variable graph : gmap string (list string).

Lemma neighbors_loop_false (rec : string → search → outcome (bool * search))
    (neighbors : list string) (s s' : search) :
  (∀ n t t', rec n t = Ok (false, t') → t.1 ⊆ t'.1 ∧ n ∈ t'.1 ∧ t'.2 ⊆ t.2) →
  neighbors_loop rec neighbors s = Ok (false, s') →
  s.1 ⊆ s'.1 ∧ s'.2 ⊆ s.2 ∧ ∀ n, n ∈ neighbors → n ∈ s'.1.
Proof.
  intros Hrec. revert s. induction neighbors as [|n ns IH]; intros s; cbn.
  - intros [= <-]. split_and!; [done|done|]. by intros n ?%elem_of_nil.
  - case_bool_decide as Hn.
    + destruct (rec n s) as [[[] t]| |] eqn:Hcall; cbn; [done| |done|done].
      intros Hloop. destruct (Hrec _ _ _ Hcall) as (Hv & Hnv & Hr).
      destruct (IH _ Hloop) as (Hv' & Hr' & Hns).
      split_and!; [by etrans|by etrans|].
      intros m [->|Hm]%elem_of_cons; [by apply Hv'|by apply Hns].
    + case_bool_decide as Hstack; [done|].
      intros Hloop. destruct (IH _ Hloop) as (Hv' & Hr' & Hns).
      split_and!; [done|done|].
      intros m [->|Hm]%elem_of_cons; [|by apply Hns].
      apply Hv'. by destruct (decide (n ∈ s.1)).
Qed.

Lemma has_cycle_false (fuel : nat) (node : string) (s s' : search) :
  has_cycle fuel graph node s = Ok (false, s') →
  s.1 ⊆ s'.1 ∧ node ∈ s'.1 ∧ s'.2 ⊆ s.2.
Proof.
  revert node s s'. induction fuel as [|fuel IH]; intros node s s'; [done|].
  cbn [has_cycle]. case_bool_decide as Hnode.
  - destruct (graph !! node) as [ns|]; cbn; [|done].
    destruct (neighbors_loop _ ns _) as [[[] t]| |] eqn:Hloop; cbn; try done.
    case_bool_decide; [|done]. intros [= <-]. cbn.
    apply neighbors_loop_false in Hloop as (Hv & Hr & _); [|exact IH].
    cbn in Hv, Hr. split_and!.
    + intros x Hx. apply Hv, elem_of_union. by right.
    + apply Hv, elem_of_union. left. by apply elem_of_singleton.
    + intros x [Hx Hne]%elem_of_difference.
      apply Hr, elem_of_union in Hx as [Hx|Hx]; [done|done].
  - cbn. case_bool_decide; [|done]. intros [= <-]. cbn. split_and!.
    + done.
    + by destruct (decide (node ∈ s.1)).
    + by intros x [Hx _]%elem_of_difference.
Qed.

Lemma has_cycle_neighbors (fuel : nat) (node : string) (s s' : search)
    (neighbors : list string) :
  has_cycle fuel graph node s = Ok (false, s') →
  node ∉ s.1 → graph !! node = Some neighbors →
  ∀ n, n ∈ neighbors → n ∈ s'.1.
Proof.
  destruct fuel as [|fuel]; [done|]. cbn [has_cycle]. intros Hrun Hnode Hg.
  rewrite bool_decide_eq_true_2, Hg in Hrun by done. cbn in Hrun.
  destruct (neighbors_loop _ neighbors _) as [[[] t]| |] eqn:Hloop;
    cbn in Hrun; try done.
  case_bool_decide; [|done]. injection Hrun as <-. cbn.
  apply neighbors_loop_false in Hloop as (_ & _ & Hns); [done|].
  intros n t0 t'. apply has_cycle_false.
Qed.

Lemma has_cycle_visited (fuel : nat) (node : string) (s : search) :
  node ∈ s.1 → node ∉ s.2 →
  has_cycle (S fuel) graph node s = Raise (KeyError node).
Proof.
  intros Hv Hr. cbn [has_cycle].
  rewrite bool_decide_eq_false_2 by (intros H; by apply H). cbn.
  by rewrite bool_decide_eq_false_2.
Qed.

Lemma neighbors_loop_visited (rec : string → search → outcome (bool * search))
    (neighbors : list string) (s : search) :
  (∀ n, n ∈ neighbors → n ∈ s.1 ∧ n ∉ s.2) →
  neighbors_loop rec neighbors s = Ok (false, s).
Proof.
  induction neighbors as [|n ns IH]; intros Hns; [done|]. cbn.
  destruct (Hns n) as [Hv Hr]; [by left|].
  rewrite bool_decide_eq_false_2 by (intros H; by apply H).
  rewrite bool_decide_eq_false_2 by done.
  apply IH. intros m Hm. apply Hns. by right.
Qed.

Lemma has_cycle_leaf (fuel : nat) (node : string) (visited : gset string)
    (neighbors : list string) :
  node ∉ visited → graph !! node = Some neighbors →
  (∀ n, n ∈ neighbors → n ∈ visited) →
  has_cycle (S fuel) graph node (visited, ∅) = Ok (false, ({[node]} ∪ visited, ∅)).
Proof.
  intros Hnode Hg Hns. cbn [has_cycle fst snd].
  rewrite bool_decide_eq_true_2, Hg by done. cbn [mbind outcome_bind].
  rewrite neighbors_loop_visited; cbn.
  - rewrite bool_decide_eq_true_2
      by (apply elem_of_union; left; by apply elem_of_singleton).
    by rewrite union_empty_r_L, difference_diag_L.
  - intros n Hn. specialize (Hns n Hn). split.
    + apply elem_of_union. by right.
    + rewrite union_empty_r_L, elem_of_singleton. by intros ->.
Qed.

Lemma cycle_loop_unvisited (fuel : nat) (order : list string) (s : search) :
  s.2 = ∅ → cycle_loop fuel graph order s = Ok false →
  ∀ n, n ∈ order → n ∉ s.1.
Proof.
  revert s. induction order as [|node rest IH]; intros s Hstack Hrun n Hn.
  { by apply elem_of_nil in Hn. }
  cbn in Hrun.
  destruct (has_cycle fuel graph node s) as [[[] t]| |] eqn:Hcall;
    cbn in Hrun; try done.
  destruct (has_cycle_false _ _ _ _ Hcall) as (Hv & Hnv & Hr).
  assert (t.2 = ∅) as Hstack' by (rewrite Hstack in Hr; by apply equiv_empty_L).
  apply elem_of_cons in Hn as [->|Hn].
  - intros Hvisited. destruct fuel as [|fuel]; [done|].
    rewrite has_cycle_visited in Hcall; [done|done|].
    rewrite Hstack. apply not_elem_of_empty.
  - intros Hvisited. apply (IH t Hstack' Hrun n Hn). by apply Hv.
Qed.

Lemma cycle_loop_false (fuel : nat) (order seen rest : list string) (s : search) :
  order = seen ++ rest → NoDup order →
  (∀ u ns v, graph !! u = Some ns → v ∈ ns → v ∈ order ∧ v ≠ u) →
  (∀ u, u ∈ order → is_Some (graph !! u)) →
  s.2 = ∅ → cycle_loop fuel graph rest s = Ok false →
  ∀ u ns v, u ∈ rest → graph !! u = Some ns → v ∈ ns → before order v u.
Proof.
  intros Horder Hnodup Hclosed Hkeys. revert seen s Horder.
  induction rest as [|node rest IH]; intros seen s Horder Hstack Hrun u ns v Hu Hg Hv.
  { by apply elem_of_nil in Hu. }
  pose proof (cycle_loop_unvisited _ _ _ Hstack Hrun) as Hunvisited.
  cbn in Hrun.
  destruct (has_cycle fuel graph node s) as [[[] t]| |] eqn:Hcall;
    cbn in Hrun; try done.
  destruct (has_cycle_false _ _ _ _ Hcall) as (Hmono & Hnv & Hr).
  assert (t.2 = ∅) as Hstack' by (rewrite Hstack in Hr; by apply equiv_empty_L).
  apply elem_of_cons in Hu as [->|Hu].
  - pose proof (has_cycle_neighbors _ _ _ _ _ Hcall
                  (Hunvisited node ltac:(by left)) Hg v Hv) as Hvisited.
    pose proof (cycle_loop_unvisited _ _ _ Hstack' Hrun) as Hlater.
    destruct (Hclosed _ _ _ Hg Hv) as [Hin Hne].
    rewrite Horder in Hin.
    apply elem_of_app in Hin as [Hin|Hin].
    + apply list_elem_of_lookup in Hin as [i Hi].
      exists i, (length seen). split_and!.
      * by eapply lookup_lt_Some.
      * rewrite Horder, lookup_app_l; [done|]. by eapply lookup_lt_Some.
      * by rewrite Horder, lookup_app_r, Nat.sub_diag.
    + apply elem_of_cons in Hin as [?|Hin]; [done|].
      by destruct (Hlater v Hin).
  - eapply (IH (seen ++ [node]) t);
      [|exact Hstack'|exact Hrun|exact Hu|exact Hg|exact Hv].
    by rewrite <- app_assoc.
Qed.

Lemma cycle_loop_reverse_order (fuel : nat) (order seen rest : list string) :
  order = seen ++ rest → NoDup order →
  (∀ u, u ∈ order → is_Some (graph !! u)) →
  (∀ u ns v, graph !! u = Some ns → v ∈ ns → before order v u) →
  cycle_loop (S fuel) graph rest (list_to_set seen, ∅) = Ok false.
Proof.
  intros Horder Hnodup Hkeys Hbefore. revert seen Horder.
  induction rest as [|node rest IH]; intros seen Horder; [done|].
  cbn [cycle_loop].
  destruct (Hkeys node) as [ns Hg].
  { rewrite Horder. apply elem_of_app. right. by left. }
  assert (node ∉ seen) as Hnode.
  { rewrite Horder in Hnodup. apply NoDup_app in Hnodup as (_ & Hdisj & _).
    intros Hin. apply (Hdisj node Hin). by left. }
  rewrite (has_cycle_leaf fuel node (list_to_set seen) ns); cbn.
  - replace ({[node]} ∪ list_to_set seen : gset string)
      with (list_to_set (C := gset string) (seen ++ [node])).
    + apply IH. by rewrite <- app_assoc.
    + rewrite list_to_set_app_L. cbn. rewrite union_empty_r_L.
      apply union_comm_L.
  - by rewrite elem_of_list_to_set.
  - done.
  - intros v Hv. rewrite elem_of_list_to_set.
    destruct (Hbefore _ _ _ Hg Hv) as (i & j & Hij & Hi & Hj).
    assert (j = length seen) as ->.
    { eapply NoDup_lookup; [exact Hnodup|exact Hj|].
      by rewrite Horder, lookup_app_r, Nat.sub_diag. }
    rewrite Horder, lookup_app_l in Hi by done.
    by eapply list_elem_of_lookup_2.
Qed.

End CycleSearch.

Lemma mapM_map_ok {A B C} (f : B → outcome C) (h : A → B) (g : A → C)
    (l : list A) :
  (∀ x, f (h x) = Ok (g x)) → mapM f (map h l) = Ok (map g l).
Proof.
  intros Hf. induction l as [|x l IH]; [done|]. cbn. by rewrite Hf, IH.
Qed.

Lemma empty_graph_lookup (task_names : list string) (n : string) :
  (list_to_map ((λ name, (name, [])) <$> task_names)
     : gmap string (list string)) !! n =
  if bool_decide (n ∈ task_names) then Some [] else None.
Proof.
  induction task_names as [|x l IH]; cbn.
  - by rewrite lookup_empty.
  - destruct (decide (n = x)) as [->|Hne].
    + rewrite lookup_insert_eq. by rewrite bool_decide_eq_true_2 by left.
    + rewrite lookup_insert_ne, IH by done.
      case_bool_decide as Hin.
      * by rewrite bool_decide_eq_true_2 by (by right).
      * rewrite bool_decide_eq_false_2; [done|].
        by intros [?|?]%elem_of_cons.
Qed.

Lemma dependency_graph_fold (g0 : gmap string (list string))
    (dependencies : list (string * string)) :
  (∀ d, d ∈ dependencies → is_Some (g0 !! d.1)) →
  ∃ g,
    foldM (λ graph dependency,
        match graph !! dependency.1 with
        | Some downstreams =>
            Ok (<[dependency.1 := downstreams ++ [dependency.2]]> graph)
        | None => Raise (KeyError dependency.1)
        end) g0 dependencies = Ok g ∧
    (∀ n, is_Some (g !! n) ↔ is_Some (g0 !! n)) ∧
    ∀ n ns, g !! n = Some ns →
      ∃ ns0, g0 !! n = Some ns0 ∧
             ∀ v, v ∈ ns ↔ v ∈ ns0 ∨ (n, v) ∈ dependencies.
Proof.
  revert g0. induction dependencies as [|[u d] deps IH]; intros g0 Hkeys.
  - exists g0. split_and!; [done|done|].
    intros n ns Hn. exists ns. split; [done|]. intros v. split; [by left|].
    intros [?|?%elem_of_nil]; done.
  - destruct (Hkeys (u, d)) as [ds Hds]; [by left|]. cbn in Hds.
    cbn [foldM fst snd]. rewrite Hds. cbn [mbind outcome_bind].
    destruct (IH (<[u := ds ++ [d]]> g0)) as (g & Hrun & Hdom & Hlook).
    { intros d' Hd'. destruct (decide (d'.1 = u)) as [->|Hne].
      - rewrite lookup_insert_eq. by eexists.
      - rewrite lookup_insert_ne by done. apply Hkeys. by right. }
    exists g. split; [exact Hrun|]. split.
    + intros n. rewrite Hdom. destruct (decide (n = u)) as [->|Hne].
      * rewrite lookup_insert_eq, Hds. split; by eexists.
      * by rewrite lookup_insert_ne.
    + intros n ns Hn. destruct (Hlook n ns Hn) as (ns1 & Hns1 & Hiff).
      destruct (decide (n = u)) as [->|Hne].
      * rewrite lookup_insert_eq in Hns1. injection Hns1 as <-.
        exists ds. split; [done|]. intros v. rewrite Hiff, elem_of_app.
        rewrite list_elem_of_singleton, elem_of_cons. split.
        -- intros [[?| ->]|?]; [by left|right; by left|right; by right].
        -- intros [?|[[= ->]|?]]; [left; by left|left; by right|by right].
      * rewrite lookup_insert_ne in Hns1 by done.
        exists ns1. split; [done|]. intros v. rewrite Hiff, elem_of_cons. split.
        -- intros [?|?]; [by left|right; by right].
        -- intros [?|[[= -> _]|?]]; [by left|done|by right].
Qed.

(** X22. The check for circular dependencies of [validate_airflow_export],
    on the dictionaries of tasks whose datasets have string namespaces and
    names: the dependencies are derived, and the check ends without the
    warning exactly when the loop over the set of task names meets every
    downstream task before its upstream task. [has_cycle] removes the node
    from [rec_stack] also when the node was visited before, which raises
    KeyError at a node that an earlier one has reached. *)
Theorem cycle_check_wants_reverse_order (ts : list TaskSpec.t)
    (order : list string) (fuel : nat) :
  (∀ task ds, task ∈ ts →
     ds ∈ TaskSpec.outputs task ++ TaskSpec.inputs task →
     string_identified ds = true) →
  NoDup order →
  (∀ n, n ∈ order ↔
        n ∈ (λ task, sanitize_task_name (TaskSpec.name task)) <$> ts) →
  ∃ dependencies,
    derive_task_dependencies (map TaskSpec.to_dict ts) = Ok dependencies ∧
    (circular_dependency_check (S fuel) order (map TaskSpec.to_dict ts) = Ok false ↔
     ∀ upstream downstream, (upstream, downstream) ∈ dependencies →
       before order downstream upstream).
Proof.
  intros Hid Hnodup Horder.
  set (label := λ task, sanitize_task_name (TaskSpec.name task)).
  set (deps := dependencies_of label (λ upstream task_name _, (upstream, task_name))
                 (producers_of label ts) ts).
  assert (∀ u v, (u, v) ∈ deps → u ∈ order ∧ v ∈ order ∧ u ≠ v) as Hdeps.
  { intros u v. subst deps. rewrite elem_of_dependencies_of.
    intros (j & consumer & ds & up & Hj & Hds & Hup & Hne & [= -> ->]).
    apply producers_of_last_writer in Hup as (i & producer & Hi & _ & -> & _).
    split_and!; [| |done]; apply Horder, list_elem_of_fmap.
    - exists producer. split; [done|]. by eapply list_elem_of_lookup_2.
    - exists consumer. split; [done|]. by eapply list_elem_of_lookup_2. }
  exists deps. split; [by apply airflow_dependencies_ok|].
  unfold circular_dependency_check.
  rewrite (airflow_dependencies_ok ts Hid). cbn [mbind outcome_bind].
  fold label. fold deps.
  rewrite (mapM_map_ok _ TaskSpec.to_dict label) by done.
  cbn [mbind outcome_bind].
  destruct (dependency_graph_fold
              (list_to_map ((λ name, (name, [])) <$> map label ts)) deps)
    as (g & Hgraph & Hdom & Hlook).
  { intros [u v] Hd. cbn. rewrite empty_graph_lookup.
    rewrite bool_decide_eq_true_2; [by eexists|].
    apply Horder. by apply (Hdeps u v). }
  unfold dependency_graph. rewrite Hgraph. cbn [mbind outcome_bind].
  assert (∀ u, u ∈ order → is_Some (g !! u)) as Hkeys.
  { intros u Hu. apply Hdom. rewrite empty_graph_lookup.
    rewrite bool_decide_eq_true_2; [by eexists|]. by apply Horder. }
  assert (∀ u ns v, g !! u = Some ns → (v ∈ ns ↔ (u, v) ∈ deps)) as Hedges.
  { intros u ns v Hu. destruct (Hlook u ns Hu) as (ns0 & Hns0 & Hiff).
    rewrite empty_graph_lookup in Hns0. case_bool_decide; [|done].
    injection Hns0 as <-. rewrite Hiff. split; [|by right].
    by intros [?%elem_of_nil|?]. }
  split.
  - intros Hrun u v Huv.
    destruct (Hdeps u v Huv) as (Hu & _ & _).
    destruct (Hkeys u Hu) as [ns Hns].
    eapply (cycle_loop_false g (S fuel) order [] order (∅, ∅));
      [done|done| |done|done|exact Hrun|exact Hu|exact Hns|by apply (Hedges u ns v)].
    intros u' ns' v' Hu' Hv'. apply (Hedges u' ns' v' Hu') in Hv'.
    destruct (Hdeps u' v' Hv') as (_ & ? & ?). by split.
  - intros Hbefore.
    apply (cycle_loop_reverse_order g fuel order [] order); [done|done|done|].
    intros u ns v Hu Hv. apply Hbefore. by apply (Hedges u ns v).
Qed.

Lemma cycle_check_wants_reverse_order_witness :
  circular_dependency_check 1 ["clean"; "load"]
    (map TaskSpec.to_dict [task_load; task_clean]) = Ok false.
Proof.
  destruct (cycle_check_wants_reverse_order [task_load; task_clean]
              ["clean"; "load"] 0) as (dependencies & Hrun & Hiff).
  - intros task ds Htask Hds.
    repeat (apply elem_of_cons in Htask as [->|Htask]);
      [| |by apply elem_of_nil in Htask]; cbn in Hds;
      repeat (apply elem_of_cons in Hds as [->|Hds]); try done;
      by apply elem_of_nil in Hds.
  - repeat constructor; [|by intros ?%elem_of_nil].
    by intros [=]%list_elem_of_singleton.
  - intros n. change (n ∈ ["clean"; "load"] ↔ n ∈ ["load"; "clean"]).
    rewrite !elem_of_cons. tauto.
  - apply Hiff. intros upstream downstream Hin.
    vm_compute in Hrun. injection Hrun as <-.
    apply list_elem_of_singleton in Hin as [= -> ->].
    exists 0%nat, 1%nat. split; [lia|]. by split.
Defined.

(** The two tasks in the order of the flow: the second node was visited
    from the first. *)
Example cycle_check_forward_order_raises :
  circular_dependency_check 2 ["load"; "clean"]
    (map TaskSpec.to_dict [task_load; task_clean]) = Raise (KeyError "clean").
Proof. by vm_compute. Qed.

(** ** The asset dependencies of the Dagster exporter *)

Lemma foldl_insert_lookup {A B} (k : A → string) (v : A → B) (l : list A)
    (m : gmap string B) (n : string) :
  (is_Some (foldl (λ m x, <[k x := v x]> m) m l !! n) ↔
   is_Some (m !! n) ∨ n ∈ k <$> l) ∧
  ∀ i x, l !! i = Some x → k x = n →
    (∀ j y, (i < j)%nat → l !! j = Some y → k y ≠ n) →
    foldl (λ m x, <[k x := v x]> m) m l !! n = Some (v x).
Proof.
  induction l as [|y l [IH1 IH2]] using rev_ind.
  - cbn. split; [|done]. split; [by left|]. by intros [?|?%elem_of_nil].
  - rewrite foldl_app. cbn [foldl]. split.
    + rewrite fmap_app, elem_of_app. cbn. rewrite list_elem_of_singleton.
      destruct (decide (n = k y)) as [->|Hne].
      * rewrite lookup_insert_eq. split; [by right; right|by eexists].
      * rewrite lookup_insert_ne by done. rewrite IH1. split.
        -- intros [?|?]; [by left|right; by left].
        -- intros [?|[?|?]]; [by left|by right|done].
    + intros i x Hi Hk Hlater.
      destruct (decide (i < length l)%nat) as [Hlt|Hge].
      * rewrite lookup_app_l in Hi by done.
        assert (k y ≠ n) as Hy.
        { apply (Hlater (length l)); [done|].
          by rewrite lookup_app_r, Nat.sub_diag. }
        rewrite lookup_insert_ne by done. apply (IH2 i x Hi Hk).
        intros j z Hj Hz. apply (Hlater j z Hj).
        by rewrite lookup_app_l by (by eapply lookup_lt_Some).
      * pose proof (lookup_lt_Some _ _ _ Hi) as Hlen.
        rewrite length_app in Hlen. cbn in Hlen.
        rewrite lookup_app_r in Hi by lia.
        replace (i - length l)%nat with 0%nat in Hi by lia.
        injection Hi as <-. rewrite <- Hk. by rewrite lookup_insert_eq.
Qed.

Lemma dagster_dependencies_ok (ts : list TaskSpec.t) :
  (∀ task ds, task ∈ ts →
     ds ∈ TaskSpec.outputs task ++ TaskSpec.inputs task →
     string_identified ds = true) →
  derive_asset_dependencies (map TaskSpec.to_dict ts) =
  Ok (foldl (λ dependencies task,
               <[asset_of task := upstreams_of (producers_of asset_of ts) task]>
                 dependencies) ∅ ts).
Proof.
  intros identified. unfold derive_asset_dependencies.
  rewrite (foldM_ok_map _
    (λ producers task,
       foldl (λ producers output, <[key_text output := asset_of task]> producers)
         producers (TaskSpec.outputs task))).
  2:{ intros P task Ht. simpl.
      exact (producer_loop_ok ts identified task (asset_of task) P Ht). }
  simpl. fold (producers_of asset_of ts).
  apply foldM_ok_map. intros deps task Ht. simpl.
  rewrite (foldM_ok_map _
    (λ acc input_ds,
       acc ++ match producers_of asset_of ts !! key_text input_ds with
              | Some upstream =>
                  if bool_decide (upstream ≠ asset_of task) then [upstream] else []
              | None => []
              end)).
  2:{ intros acc d Hd. simpl.
      assert (string_identified d = true) as Hid.
      { apply (identified task); [done|]. apply elem_of_app. by right. }
      rewrite dataset_key_text by done. simpl.
      change (sanitize_asset_name (TaskSpec.name task)) with (asset_of task).
      destruct (producers_of _ ts !! key_text d) as [up|];
        [|by rewrite app_nil_r].
      case_bool_decide; by rewrite ?app_nil_r. }
  simpl. by rewrite foldl_app_bind.
Qed.

(** X23. The asset dependencies of the Dagster exporter, on the documents
    of tasks whose datasets have string namespaces and names:
    [derive_asset_dependencies] returns a dict with one key for each asset
    name, and the entry of an asset is made from the inputs of the last
    task with that asset name alone: it holds the last writer of each of
    these inputs, when that is another asset. What an earlier task of the
    same asset name reads is not kept. *)
Theorem asset_dependencies_of_last_task (ts : list TaskSpec.t) :
  (∀ task ds, task ∈ ts →
     ds ∈ TaskSpec.outputs task ++ TaskSpec.inputs task →
     string_identified ds = true) →
  ∃ dependencies,
    derive_asset_dependencies (map TaskSpec.to_dict ts) = Ok dependencies ∧
    (∀ asset, is_Some (dependencies !! asset) ↔ asset ∈ asset_of <$> ts) ∧
    ∀ i task, ts !! i = Some task →
      (∀ j task', (i < j)%nat → ts !! j = Some task' →
                  asset_of task' ≠ asset_of task) →
      ∃ upstreams,
        dependencies !! asset_of task = Some upstreams ∧
        ∀ upstream, upstream ∈ upstreams ↔
          upstream ≠ asset_of task ∧
          ∃ ds j producer,
            ds ∈ TaskSpec.inputs task ∧ ts !! j = Some producer ∧
            key_text ds ∈ map key_text (TaskSpec.outputs producer) ∧
            upstream = asset_of producer ∧
            ∀ j' task', (j < j')%nat → ts !! j' = Some task' →
                        key_text ds ∉ map key_text (TaskSpec.outputs task').
Proof.
  intros Hid. eexists. split; [by apply dagster_dependencies_ok|].
  split.
  - intros asset.
    rewrite (proj1 (foldl_insert_lookup asset_of _ ts ∅ asset)).
    rewrite lookup_empty. split; [|by right].
    by intros [[? [=]]|?].
  - intros i task Hi Hlast. eexists. split.
    + by apply (proj2 (foldl_insert_lookup asset_of _ ts ∅ (asset_of task)) i task).
    + intros upstream. unfold upstreams_of. rewrite list_elem_of_bind. split.
      * intros (ds & Hup & Hds).
        destruct (producers_of asset_of ts !! key_text ds) as [up|] eqn:Hp;
          [|by apply elem_of_nil in Hup].
        case_bool_decide as Hne; [|by apply elem_of_nil in Hup].
        apply list_elem_of_singleton in Hup as ->. split; [done|].
        apply producers_of_last_writer in Hp
          as (j & producer & Hj & Hin & -> & Hlater).
        by exists ds, j, producer.
      * intros (Hne & ds & j & producer & Hds & Hj & Hin & -> & Hlater).
        exists ds. split; [|done].
        assert (producers_of asset_of ts !! key_text ds = Some (asset_of producer))
          as ->.
        { apply producers_of_last_writer. by exists j, producer. }
        rewrite bool_decide_eq_true_2 by done. by left.
Qed.

Lemma asset_dependencies_of_last_task_witness :
  ∃ dependencies,
    derive_asset_dependencies (map TaskSpec.to_dict [task_load; task_clean]) =
      Ok dependencies ∧
    is_Some (dependencies !! "clean").
Proof.
  destruct (asset_dependencies_of_last_task [task_load; task_clean])
    as (dependencies & Hrun & Hkeys & _).
  - intros task ds Htask Hds.
    repeat (apply elem_of_cons in Htask as [->|Htask]);
      [| |by apply elem_of_nil in Htask]; cbn in Hds;
      repeat (apply elem_of_cons in Hds as [->|Hds]); try done;
      by apply elem_of_nil in Hds.
  - exists dependencies. split; [exact Hrun|]. apply Hkeys.
    apply list_elem_of_fmap. exists task_clean. split; [by vm_compute|].
    right. left.
Defined.

(** Two tasks named "Clean" and "clean" are one asset, and the inputs of
    the first are not among its dependencies. *)
Example asset_dependencies_name_clash :
  derive_asset_dependencies
    (map TaskSpec.to_dict
       [task_load;
        TaskSpec.mk "Clean" "Transformer" (TaskSpec.outputs task_load) [] [] []
          None None None None None;
        TaskSpec.mk "clean" "Transformer" [] [] [] [] None None None None None]) =
  Ok {[ "load" := []; "clean" := [] ]}.
Proof. by vm_compute. Qed.

(** ** The graph of the exporters and the graph of the registry *)

Lemma dependencies_last_writer {E} (label : TaskSpec.t → string)
    (entry : string → string → pydict → E) (pair_of : E → string * string)
    (ts : list TaskSpec.t) (a b : string) :
  (∀ upstream task_name d, pair_of (entry upstream task_name d) = (upstream, task_name)) →
  (∃ e, e ∈ dependencies_of label entry (producers_of label ts) ts ∧
        pair_of e = (a, b)) ↔
  last_writer_pair label ts a b.
Proof.
  intros Hpair. split.
  - intros (e & He & Hab).
    apply elem_of_dependencies_of in He
      as (j & consumer & ds & up & Hj & Hds & Hup & Hne & ->).
    rewrite Hpair in Hab. injection Hab as <- <-.
    apply producers_of_last_writer in Hup
      as (i & producer & Hi & Hw & -> & Hlast).
    exists i, j, producer, consumer, ds. by split_and!.
  - intros (i & j & producer & consumer & ds & Hi & Hw & Hlast & Hj & Hds
            & -> & -> & Hne).
    exists (entry (label producer) (label consumer) ds). split; [|apply Hpair].
    apply elem_of_dependencies_of. exists j, consumer, ds, (label producer).
    split_and!; try done.
    apply producers_of_last_writer. exists i, producer. by split_and!.
Qed.

Lemma last_occurrence {A} (f : A → string) (l : list A) (b : string) :
  b ∈ f <$> l →
  ∃ j x, l !! j = Some x ∧ f x = b ∧
         ∀ j' y, (j < j')%nat → l !! j' = Some y → f y ≠ b.
Proof.
  induction l as [|y l IH] using rev_ind; [by intros ?%elem_of_nil|].
  rewrite fmap_app, elem_of_app. cbn. rewrite list_elem_of_singleton.
  destruct (decide (f y = b)) as [Hy|Hy].
  - intros _. exists (length l), y. split_and!.
    + by rewrite lookup_app_r, Nat.sub_diag.
    + done.
    + intros j' z Hlt Hz. apply lookup_lt_Some in Hz.
      rewrite length_app in Hz. cbn in Hz. lia.
  - intros [Hin|?]; [|congruence].
    destruct (IH Hin) as (j & x & Hj & Hx & Hlast).
    exists j, x. split_and!; [by apply lookup_app_l_Some|done|].
    intros j' z Hlt Hz. apply lookup_app_Some in Hz as [Hz|[_ Hz]].
    + by eapply Hlast.
    + apply list_lookup_singleton_Some in Hz as [_ <-]. done.
Qed.

Lemma asset_dependencies_last_writer (ts : list TaskSpec.t) (a b : string) :
  (∃ upstreams : list string,
     foldl (λ (dependencies : gmap string (list string)) task,
              <[asset_of task := upstreams_of (producers_of asset_of ts) task]>
                dependencies) ∅ ts !! b = Some upstreams ∧
     a ∈ upstreams) ↔
  ∃ i j, last_writer_link asset_of ts i j a b ∧
         ∀ j' task', (j < j')%nat → ts !! j' = Some task' → asset_of task' ≠ b.
Proof.
  split.
  - intros (ups & Hlook & Ha).
    destruct (last_occurrence asset_of ts b) as (j & consumer & Hj & Hb & Hlast).
    { destruct (proj1 (proj1 (foldl_insert_lookup asset_of
                 (upstreams_of (producers_of asset_of ts)) ts ∅ b)))
        as [[? Hempty]|Hin]; [by rewrite Hlook| |done].
      by rewrite lookup_empty in Hempty. }
    rewrite (proj2 (foldl_insert_lookup asset_of _ ts ∅ b) j consumer Hj Hb Hlast)
      in Hlook.
    injection Hlook as <-. unfold upstreams_of in Ha.
    apply list_elem_of_bind in Ha as (ds & Ha & Hds).
    destruct (producers_of asset_of ts !! key_text ds) as [up|] eqn:Hup;
      [|by apply elem_of_nil in Ha].
    case_bool_decide as Hne; [|by apply elem_of_nil in Ha].
    apply list_elem_of_singleton in Ha as ->.
    apply producers_of_last_writer in Hup
      as (i & producer & Hi & Hw & -> & Hwlast).
    exists i, j. split; [|done].
    exists producer, consumer, ds. split_and!; try done. congruence.
  - intros (i & j & (producer & consumer & ds & Hi & Hw & Hwlast & Hj & Hds
                     & -> & -> & Hne) & Hlast).
    eexists. split.
    + by apply (proj2 (foldl_insert_lookup asset_of _ ts ∅ (asset_of consumer))
                  j consumer).
    + unfold upstreams_of. apply list_elem_of_bind. exists ds. split; [|done].
      assert (producers_of asset_of ts !! key_text ds = Some (asset_of producer))
        as ->.
      { apply producers_of_last_writer. exists i, producer. by split_and!. }
      rewrite bool_decide_eq_true_2 by done. by left.
Qed.

Section DataOrdered.

Variable ts : list TaskSpec.t.
Hypothesis ordered : data_ordered ts = true.

Lemma ordered_identified (task : TaskSpec.t) (ds : pydict) :
  task ∈ ts → ds ∈ TaskSpec.outputs task ++ TaskSpec.inputs task →
  string_identified ds = true.
Proof.
  intros Ht Hds. unfold data_ordered in ordered.
  do 3 (apply andb_true_iff in ordered as [ordered _]).
  rewrite forallb_forall in ordered.
  apply list_elem_of_lookup in Ht as (i & Hi).
  apply (ordered (i, ds)), list_elem_of_In, elem_of_app.
  apply elem_of_app in Hds as [Ho|Hin].
  - left. apply elem_of_outputs_at. eauto.
  - right. apply elem_of_inputs_at. eauto.
Qed.

Lemma ordered_keys (i j : nat) (o d : pydict) :
  (i, o) ∈ outputs_at ts → (j, d) ∈ outputs_at ts ++ inputs_at ts →
  key_text o = key_text d → FlowRegistry.same_dataset o d = true.
Proof.
  intros Ho Hd Hk. unfold data_ordered in ordered.
  do 2 (apply andb_true_iff in ordered as [ordered _]).
  apply andb_true_iff in ordered as [_ Hf]. unfold keys_faithful in Hf.
  rewrite forallb_forall in Hf.
  specialize (Hf (i, o) (proj1 (list_elem_of_In _ _) Ho)).
  rewrite forallb_forall in Hf.
  specialize (Hf (j, d) (proj1 (list_elem_of_In _ _) Hd)). simpl in Hf.
  apply String.eqb_eq in Hk. by rewrite Hk in Hf.
Qed.

Lemma ordered_single (i j : nat) (o o' : pydict) :
  (i, o) ∈ outputs_at ts → (j, o') ∈ outputs_at ts →
  FlowRegistry.same_dataset o o' = true → i = j.
Proof.
  intros Ho Ho' Hs. unfold data_ordered in ordered.
  apply andb_true_iff in ordered as [ordered _].
  apply andb_true_iff in ordered as [_ Hf]. unfold single_producer in Hf.
  rewrite forallb_forall in Hf.
  specialize (Hf (i, o) (proj1 (list_elem_of_In _ _) Ho)).
  rewrite forallb_forall in Hf.
  specialize (Hf (j, o') (proj1 (list_elem_of_In _ _) Ho')). simpl in Hf.
  rewrite Hs in Hf. by apply Nat.eqb_eq in Hf.
Qed.

Lemma ordered_first (i j : nat) (o d : pydict) :
  (i, o) ∈ outputs_at ts → (j, d) ∈ inputs_at ts →
  FlowRegistry.same_dataset o d = true → (i ≤ j)%nat.
Proof.
  intros Ho Hd Hs. unfold data_ordered in ordered.
  apply andb_true_iff in ordered as [_ Hf]. unfold producers_first in Hf.
  rewrite forallb_forall in Hf.
  specialize (Hf (i, o) (proj1 (list_elem_of_In _ _) Ho)).
  rewrite forallb_forall in Hf.
  specialize (Hf (j, d) (proj1 (list_elem_of_In _ _) Hd)). simpl in Hf.
  rewrite Hs in Hf. by apply Nat.leb_le in Hf.
Qed.

(** On such a list the last writer of a dataset is its one writer, and it
    stands before the reader: the links of the producer index are the
    pairs of positions that [derive_edges] joins. *)
Lemma last_writer_link_ordered (label : TaskSpec.t → string) (i j : nat)
    (a b : string) :
  last_writer_link label ts i j a b ↔
  ∃ task_a task_b output input_ds,
    (i < j)%nat ∧ ts !! i = Some task_a ∧ ts !! j = Some task_b ∧
    output ∈ TaskSpec.outputs task_a ∧ input_ds ∈ TaskSpec.inputs task_b ∧
    FlowRegistry.same_dataset output input_ds = true ∧
    a = label task_a ∧ b = label task_b ∧ a ≠ b.
Proof.
  split.
  - intros (producer & consumer & d & Hi & Hw & Hlast & Hj & Hd & -> & -> & Hne).
    apply list_elem_of_fmap in Hw as (o & Hk & Ho).
    assert ((i, o) ∈ outputs_at ts) as Hio by (apply elem_of_outputs_at; eauto).
    assert ((j, d) ∈ inputs_at ts) as Hjd by (apply elem_of_inputs_at; eauto).
    assert (FlowRegistry.same_dataset o d = true) as Hs.
    { eapply ordered_keys; [done| |done]. apply elem_of_app. by right. }
    pose proof (ordered_first _ _ _ _ Hio Hjd Hs) as Hle.
    exists producer, consumer, o, d. split_and!; try done.
    destruct (decide (i = j)) as [->|]; [|lia]. by simplify_eq.
  - intros (task_a & task_b & o & d & Hij & Hi & Hj & Ho & Hd & Hs & -> & -> & Hne).
    assert (task_a ∈ ts) as Hta by (by eapply list_elem_of_lookup_2).
    assert (task_b ∈ ts) as Htb by (by eapply list_elem_of_lookup_2).
    assert (key_text o = key_text d) as Hk.
    { apply same_dataset_key_text; [| |done].
      - apply (ordered_identified task_a); [done|]. apply elem_of_app. by left.
      - apply (ordered_identified task_b); [done|]. apply elem_of_app. by right. }
    exists task_a, task_b, d. split_and!; try done.
    + rewrite <- Hk. apply list_elem_of_fmap. eauto.
    + intros i' task' Hlt Hi' Hw.
      apply list_elem_of_fmap in Hw as (o' & Hk' & Ho').
      assert (i' = i); [|lia].
      apply (ordered_single i' i o' o).
      * apply elem_of_outputs_at; eauto.
      * apply elem_of_outputs_at; eauto.
      * eapply ordered_keys.
        -- apply elem_of_outputs_at; eauto.
        -- apply elem_of_app. left. apply elem_of_outputs_at; eauto.
        -- congruence.
Qed.

Lemma last_writer_pair_ordered (g : string → string) (a b : string) :
  last_writer_pair (λ task, g (TaskSpec.name task)) ts a b ↔
  ∃ a' b', (a', b') ∈ FlowRegistry.appended_edges ts ∧
           a = g a' ∧ b = g b' ∧ a ≠ b.
Proof.
  unfold last_writer_pair. split.
  - intros (i & j & Hlink). apply last_writer_link_ordered in Hlink
      as (task_a & task_b & o & d & Hij & Hi & Hj & Ho & Hd & Hs & -> & -> & Hne).
    exists (TaskSpec.name task_a), (TaskSpec.name task_b). split_and!; try done.
    apply elem_of_appended_edges. exists i, j, task_a, task_b, o, d.
    by split_and!.
  - intros (a' & b' & Hedge & -> & -> & Hne).
    apply elem_of_appended_edges in Hedge
      as (i & j & task_a & task_b & o & d & Hij & Hi & Hj & Ho & Hd & Hs & -> & ->).
    exists i, j. apply last_writer_link_ordered.
    exists task_a, task_b, o, d. by split_and!.
Qed.

End DataOrdered.

(** With tasks [B(in=X); A(out=X)] the visualizer and the exporters
    return a dependency of B on A, and [derive_edges] returns none. *)
Lemma exporters_ignore_recording_order :
  _derive_mermaid_edges (task_dicts (registry_of [task_B_in_X; task_A_out_X])) =
    Ok [("A", "B", "x.csv")] ∧
  derive_task_dependencies (task_dicts (registry_of [task_B_in_X; task_A_out_X])) =
    Ok [("a", "b")] ∧
  derive_asset_dependencies (task_dicts (registry_of [task_B_in_X; task_A_out_X])) =
    Ok {[ "b" := ["a"]; "a" := [] ]} ∧
  FlowRegistry.derive_edges (registry_of [task_B_in_X; task_A_out_X]) = [].
Proof. by vm_compute. Qed.

(** C4, as the code has it. The functions by which the transforms derive
    dependencies from the inputs and outputs of the tasks are
    [derive_task_dependencies] (Airflow), [_derive_mermaid_edges]
    (Mermaid and DOT) and [derive_asset_dependencies] (Dagster), and none
    of them runs the algorithm of [derive_edges]: each builds a producer
    index. On the document of a registry whose datasets have string
    namespaces and names each of them returns, and a dependency is
    returned exactly for a task with an input and the last task of the
    list that writes the key of that input, wherever it stands, when the
    two names, sanitized by the exporter, differ; Dagster keeps for an
    asset the dependencies of the last task of that asset name. When the
    tasks stand in the order of their data (keys tell the datasets
    apart, each dataset has one writer, no reader stands before the
    writer) their pairs are the edges of [derive_edges] between tasks of
    different names, with both names sanitized by the exporter; for
    Dagster this needs the asset names to be distinct. *)
Theorem exporters_match_forward_flows (r : FlowRegistry.t) :
  let ts := FlowRegistry.tasks r in
  (∀ task ds, task ∈ ts →
     ds ∈ TaskSpec.outputs task ++ TaskSpec.inputs task →
     string_identified ds = true) →
  ∃ edges dependencies assets,
    _derive_mermaid_edges (task_dicts r) = Ok edges ∧
    derive_task_dependencies (task_dicts r) = Ok dependencies ∧
    derive_asset_dependencies (task_dicts r) = Ok assets ∧
    (∀ a b, (∃ label, (a, b, label) ∈ edges) ↔
            last_writer_pair TaskSpec.name ts a b) ∧
    (∀ a b, (a, b) ∈ dependencies ↔
            last_writer_pair (λ task, sanitize_task_name (TaskSpec.name task))
              ts a b) ∧
    (∀ a b, (∃ upstreams, assets !! b = Some upstreams ∧ a ∈ upstreams) ↔
            ∃ i j, last_writer_link asset_of ts i j a b ∧
                   ∀ j' task', (j < j')%nat → ts !! j' = Some task' →
                               asset_of task' ≠ b) ∧
    (data_ordered ts = true →
     (∀ a b, (∃ label, (a, b, label) ∈ edges) ↔
             (a, b) ∈ FlowRegistry.derive_edges r ∧ a ≠ b) ∧
     (∀ a b, (a, b) ∈ dependencies ↔
             ∃ a' b', (a', b') ∈ FlowRegistry.derive_edges r ∧
                      a = sanitize_task_name a' ∧ b = sanitize_task_name b' ∧
                      a ≠ b) ∧
     (NoDup (asset_of <$> ts) →
      ∀ a b, (∃ upstreams, assets !! b = Some upstreams ∧ a ∈ upstreams) ↔
             ∃ a' b', (a', b') ∈ FlowRegistry.derive_edges r ∧
                      a = sanitize_asset_name a' ∧ b = sanitize_asset_name b')).
Proof.
  intros ts Hid. subst ts. unfold task_dicts.
  eexists _, _, _.
  split; [by apply mermaid_edges_ok|].
  split; [by apply airflow_dependencies_ok|].
  split; [by apply dagster_dependencies_ok|].
  assert (∀ a b,
    (∃ label, (a, b, label) ∈
       dependencies_of TaskSpec.name
         (λ upstream task_name input_ds,
            (upstream, task_name, edge_label (name_text input_ds)))
         (producers_of TaskSpec.name (FlowRegistry.tasks r))
         (FlowRegistry.tasks r)) ↔
    last_writer_pair TaskSpec.name (FlowRegistry.tasks r) a b) as Hmermaid.
  { intros a b.
    etransitivity;
      [|apply (dependencies_last_writer TaskSpec.name
                 (λ upstream task_name input_ds,
                    (upstream, task_name, edge_label (name_text input_ds)))
                 (λ e, e.1)); done].
    split.
    - intros (label & H). by exists (a, b, label).
    - intros ([[a' b'] label] & H & [= -> ->]). by exists label. }
  assert (∀ a b,
    (a, b) ∈
       dependencies_of (λ task, sanitize_task_name (TaskSpec.name task))
         (λ upstream task_name _, (upstream, task_name))
         (producers_of (λ task, sanitize_task_name (TaskSpec.name task))
            (FlowRegistry.tasks r))
         (FlowRegistry.tasks r) ↔
    last_writer_pair (λ task, sanitize_task_name (TaskSpec.name task))
      (FlowRegistry.tasks r) a b) as Hairflow.
  { intros a b.
    etransitivity;
      [|apply (dependencies_last_writer
                 (λ task, sanitize_task_name (TaskSpec.name task))
                 (λ upstream task_name _, (upstream, task_name)) (λ e, e)); done].
    split.
    - intros H. by exists (a, b).
    - by intros (e & H & ->). }
  split; [exact Hmermaid|]. split; [exact Hairflow|].
  split; [intros a b; apply asset_dependencies_last_writer|].
  intros Hordered. unfold FlowRegistry.derive_edges. split_and!.
  - intros a b. rewrite Hmermaid.
    rewrite (last_writer_pair_ordered _ Hordered (λ name, name)).
    rewrite elem_of_elements, elem_of_list_to_set. split.
    + by intros (a' & b' & H & -> & -> & Hne).
    + intros [H Hne]. by exists a, b.
  - intros a b. rewrite Hairflow.
    rewrite (last_writer_pair_ordered _ Hordered sanitize_task_name).
    split.
    + intros (a' & b' & H & -> & -> & Hne). exists a', b'.
      by rewrite elem_of_elements, elem_of_list_to_set.
    + intros (a' & b' & H & -> & -> & Hne). exists a', b'.
      by rewrite elem_of_elements, elem_of_list_to_set in H.
  - intros Hnd a b. rewrite asset_dependencies_last_writer. split.
    + intros (i & j & Hlink & _).
      assert (last_writer_pair (λ task, sanitize_asset_name (TaskSpec.name task))
                (FlowRegistry.tasks r) a b) as Hpair by (by exists i, j).
      apply (last_writer_pair_ordered _ Hordered sanitize_asset_name) in Hpair
        as (a' & b' & H & -> & -> & Hne).
      exists a', b'. by rewrite elem_of_elements, elem_of_list_to_set.
    + intros (a' & b' & H & -> & ->).
      rewrite elem_of_elements, elem_of_list_to_set in H.
      apply elem_of_appended_edges in H
        as (i & j & task_a & task_b & o & d & Hij & Hi & Hj & Ho & Hd & Hs & -> & ->).
      assert (asset_of task_a ≠ asset_of task_b) as Hne.
      { intros Heq. assert (i = j); [|lia].
        apply (NoDup_lookup _ i j (asset_of task_a) Hnd).
        - by rewrite list_lookup_fmap, Hi.
        - by rewrite list_lookup_fmap, Hj, Heq. }
      exists i, j. split.
      * apply (last_writer_link_ordered _ Hordered).
        exists task_a, task_b, o, d. by split_and!.
      * intros j' task' Hlt Hj' Heq. assert (j' = j); [|lia].
        apply (NoDup_lookup _ j' j (asset_of task_b) Hnd).
        -- rewrite list_lookup_fmap, Hj'. cbn. f_equal. exact Heq.
        -- by rewrite list_lookup_fmap, Hj.
Qed.

Lemma exporters_match_forward_flows_witness :
  data_ordered [task_load; task_clean] = true ∧
  ∃ edges dependencies,
    _derive_mermaid_edges (task_dicts (registry_of [task_load; task_clean])) =
      Ok edges ∧
    derive_task_dependencies (task_dicts (registry_of [task_load; task_clean])) =
      Ok dependencies ∧
    (∀ a b : string,
       (∃ label, (a, b, label) ∈ edges) ↔
       (a, b) ∈ FlowRegistry.derive_edges (registry_of [task_load; task_clean]) ∧
       a ≠ b) ∧
    (∀ a b : string,
       (a, b) ∈ dependencies ↔
       ∃ a' b',
         (a', b') ∈ FlowRegistry.derive_edges (registry_of [task_load; task_clean]) ∧
         a = sanitize_task_name a' ∧ b = sanitize_task_name b' ∧ a ≠ b).
Proof.
  assert (data_ordered [task_load; task_clean] = true) as Hordered
    by (by vm_compute).
  split; [exact Hordered|].
  destruct (exporters_match_forward_flows (registry_of [task_load; task_clean]))
    as (edges & dependencies & assets & Hm & Ha & _ & _ & _ & _ & Hmatch).
  - intros task ds Htask Hds. cbn in Htask.
    repeat (apply elem_of_cons in Htask as [->|Htask]);
      [| |by apply elem_of_nil in Htask]; cbn in Hds;
      repeat (apply elem_of_cons in Hds as [->|Hds]); try done;
      by apply elem_of_nil in Hds.
  - destruct (Hmatch Hordered) as (Hme & Hae & _).
    exists edges, dependencies. by split_and!.
Defined.

(** ** The dependencies the generators write *)

Lemma consecutive_fmap {A B} (f : A → B) (l : list A) :
  consecutive (f <$> l) = prod_map f f <$> consecutive l.
Proof.
  unfold consecutive. destruct l as [|x l]; [done|]. cbn. f_equal.
  revert x. induction l as [|y l IH]; intros x; [done|].
  cbn. f_equal. apply IH.
Qed.

Lemma length_consecutive {A} (l : list A) :
  length (consecutive l) = (length l - 1)%nat.
Proof.
  unfold consecutive. destruct l as [|x l]; [done|]. cbn.
  rewrite Nat.sub_0_r. revert x. induction l as [|y l IH]; intros x; [done|].
  cbn. f_equal. apply IH.
Qed.

Lemma no_pair_no_dependency {E} (label : TaskSpec.t → string)
    (entry : string → string → pydict → E) (pair_of : E → string * string)
    (ts : list TaskSpec.t) :
  (∀ upstream task_name d, pair_of (entry upstream task_name d) = (upstream, task_name)) →
  (∀ a b, ¬ last_writer_pair label ts a b) →
  dependencies_of label entry (producers_of label ts) ts = [].
Proof.
  intros Hpair Hnone.
  destruct (dependencies_of label entry (producers_of label ts) ts)
    as [|e l] eqn:Hdeps; [done|].
  exfalso. apply (Hnone (pair_of e).1 (pair_of e).2).
  apply (dependencies_last_writer label entry pair_of ts _ _ Hpair).
  exists e. rewrite Hdeps. split; [by left|]. by destruct (pair_of e).
Qed.

Lemma sequential_lines_ok (line : string → string → string)
    (ts : list TaskSpec.t) :
  sequential_lines line (map TaskSpec.to_dict ts) =
  Ok (map (λ pair, line pair.1 pair.2) (consecutive (TaskSpec.name <$> ts))).
Proof.
  unfold sequential_lines.
  change (map TaskSpec.to_dict ts) with (TaskSpec.to_dict <$> ts).
  rewrite !consecutive_fmap.
  generalize (consecutive ts). intros l.
  induction l as [|[x y] l IH]; [done|]. cbn. cbn in IH. by rewrite IH.
Qed.

(** X24. What the generators write when no dependency is derived. On
    the document of a registry whose datasets have string namespaces and
    names, when no input of a task has a last writer of another name,
    [to_mermaid] and [to_graphviz_dot] draw an arrow from every task to
    the next one of the list instead; when no input has a last writer of
    another sanitized name, [generate_airflow_dag] writes the dependency
    of every task on the one before it in the list. The arrows are one
    less than the tasks: two tasks with no dataset in common are written
    as depending on each other in list order. *)
Theorem generators_fall_back_to_list_order (ts : list TaskSpec.t) :
  (∀ task ds, task ∈ ts →
     ds ∈ TaskSpec.outputs task ++ TaskSpec.inputs task →
     string_identified ds = true) →
  ((∀ a b, ¬ last_writer_pair TaskSpec.name ts a b) →
   mermaid_edge_lines (map TaskSpec.to_dict ts) =
     Ok ("    %% Sequential flow (no dependencies detected)" ::
         map (λ pair, "    " +:+ _sanitize_mermaid_id pair.1 +:+ " --> " +:+
                      _sanitize_mermaid_id pair.2)
           (consecutive (TaskSpec.name <$> ts))) ∧
   dot_edge_lines (map TaskSpec.to_dict ts) =
     Ok (map (λ pair, "    " +:+ _sanitize_dot_id pair.1 +:+ " -> " +:+
                      _sanitize_dot_id pair.2 +:+ ";")
           (consecutive (TaskSpec.name <$> ts)))) ∧
  ((∀ a b, ¬ last_writer_pair
               (λ task, sanitize_task_name (TaskSpec.name task)) ts a b) →
   airflow_dependency_lines (map TaskSpec.to_dict ts) =
     Ok (map (λ pair, pair.1 +:+ " >> " +:+ pair.2)
           (consecutive
              ((λ task, sanitize_task_name (TaskSpec.name task)) <$> ts)))) ∧
  length (consecutive (TaskSpec.name <$> ts)) = (length ts - 1)%nat.
Proof.
  intros Hid. split_and!.
  - intros Hnone. unfold mermaid_edge_lines, dot_edge_lines.
    rewrite (mermaid_edges_ok ts Hid).
    rewrite (no_pair_no_dependency TaskSpec.name _ (λ e, e.1)) by done.
    cbn [mbind outcome_bind]. by rewrite !sequential_lines_ok.
  - intros Hnone. unfold airflow_dependency_lines.
    rewrite (airflow_dependencies_ok ts Hid).
    rewrite (no_pair_no_dependency _ _ (λ e, e)) by done.
    cbn [mbind outcome_bind]. rewrite length_map.
    destruct (1 <? length ts)%nat eqn:Hlen.
    + rewrite (mapM_map_ok _ TaskSpec.to_dict
                 (λ task, sanitize_task_name (TaskSpec.name task))) by done.
      done.
    + apply Nat.ltb_ge in Hlen. destruct ts as [|x [|y ts]]; [done|done|].
      cbn in Hlen. lia.
  - by rewrite length_consecutive, length_fmap.
Qed.

Lemma generators_fall_back_to_list_order_witness :
  airflow_dependency_lines (map TaskSpec.to_dict [task_load; task_report]) =
    Ok ["load >> report"] ∧
  mermaid_edge_lines (map TaskSpec.to_dict [task_load; task_report]) =
    Ok ["    %% Sequential flow (no dependencies detected)";
        "    load --> report"] ∧
  FlowRegistry.derive_edges (registry_of [task_load; task_report]) = [].
Proof.
  assert (∀ label a b, ¬ last_writer_pair label [task_load; task_report] a b)
    as Hnone.
  { intros label a b (i & j & producer & consumer & ds & _ & _ & _ & Hj & Hds & _).
    destruct j as [|[|j]]; cbn in Hj; [| |done];
      injection Hj as <-; by apply elem_of_nil in Hds. }
  destruct (generators_fall_back_to_list_order [task_load; task_report])
    as ((Hmermaid & _) & Hairflow & _).
  - intros task ds Htask Hds.
    repeat (apply elem_of_cons in Htask as [->|Htask]);
      [| |by apply elem_of_nil in Htask]; cbn in Hds;
      repeat (apply elem_of_cons in Hds as [->|Hds]); try done;
      by apply elem_of_nil in Hds.
  - apply Hnone.
  - split; [|split; [|reflexivity]].
    + rewrite Hairflow by apply Hnone. reflexivity.
    + rewrite Hmermaid. reflexivity.
Defined.
